(** * Session orchestration engine of the AdelBot backend

    A shallow embedding of the session service, the container service's
    streaming exec, the agent runner's stream decoder and the admission
    check, followed by the properties of the design document they do and do
    not satisfy.

    Conventions of the embedding:
    - Python [str] is [string]: the UTF-8 bytes of the text. White space is
      the white space of Unicode ([Py.strip]); slices such as [s[:80]] count
      bytes.
    - Python [float] is the rational [Q] it denotes, and each operation
      rounds its exact result to binary64 ([Float.round]): to 53 significant
      bits, ties to the even one. [datetime] is the rational number of
      seconds; [datetime.now] is an explicit argument [now].
    - Python [int] is [Z].
    - A function that can raise returns [Result]; the error carries [str(e)].
    - The database session [db] is a record of tables that every operation
      takes and returns; [flush] writes the session object back to its row.

    Left out: a value the database refuses for its column ([fits] tells the
    rows it takes), a float of 2^1024 or more, which binary64 replaces by an
    infinity, the destruction of containers (it touches neither a session
    nor a table), and interleavings: every operation runs from start to
    end. *)

From Stdlib Require Import ZArith QArith Qround Qabs Qpower String Ascii List Bool DecimalString Lia Lqa.
From Stdlib Require Import Floats.
From stdpp Require Import gmap strings sorting.
Import ListNotations.

Local Open Scope string_scope.
Local Open Scope Z_scope.

(** ** Python strings *)

Module Py.

(** [str(n)] for an [int]. *)
Definition str_of_int (n : Z) : string := NilZero.string_of_int (Z.to_int n).

(** [s[:n]] *)
Definition take (n : nat) (s : string) : string := String.substring 0 n s.

(** [s.startswith(p)] *)
Definition startswith (p s : string) : bool := String.prefix p s.

(** [needle in hay] *)
Fixpoint contains (needle hay : string) : bool :=
  String.prefix needle hay ||
  match hay with
  | EmptyString => false
  | String _ rest => contains needle rest
  end.

(** ASCII part of [str.lower]. *)
Definition lower_char (c : ascii) : ascii :=
  let n := nat_of_ascii c in
  if (65 <=? n)%nat && (n <=? 90)%nat then ascii_of_nat (n + 32) else c.

Fixpoint lower (s : string) : string :=
  match s with
  | EmptyString => EmptyString
  | String c rest => String (lower_char c) (lower rest)
  end.

(** The characters of ASCII that [str.strip] removes: tab, newline,
    vertical tab, form feed, carriage return, the four separators 0x1c-0x1f
    and the space. *)
Definition is_space (c : ascii) : bool :=
  let n := nat_of_ascii c in
  ((9 <=? n)%nat && (n <=? 13)%nat) || ((28 <=? n)%nat && (n <=? 32)%nat).

(** The characters C's [isspace] accepts, which [int] skips around a
    literal: tab to carriage return, and the space. *)
Definition is_c_space (c : ascii) : bool :=
  let n := nat_of_ascii c in
  ((9 <=? n)%nat && (n <=? 13)%nat) || (n =? 32)%nat.

(** The white space outside ASCII, as UTF-8: U+0085 and U+00A0 take two
    bytes, *)
Definition is_space2 (a b : ascii) : bool :=
  (nat_of_ascii a =? 194)%nat
  && ((nat_of_ascii b =? 133)%nat || (nat_of_ascii b =? 160)%nat).

(** and U+1680, U+2000 to U+200A, U+2028, U+2029, U+202F, U+205F and U+3000
    take three. *)
Definition is_space3 (a b c : ascii) : bool :=
  let x := nat_of_ascii a in
  let y := nat_of_ascii b in
  let z := nat_of_ascii c in
  ((x =? 225)%nat && (y =? 154)%nat && (z =? 128)%nat)
  || ((x =? 226)%nat && (y =? 128)%nat
      && (((128 <=? z)%nat && (z <=? 138)%nat)
          || (z =? 168)%nat || (z =? 169)%nat || (z =? 175)%nat))
  || ((x =? 226)%nat && (y =? 129)%nat && (z =? 159)%nat)
  || ((x =? 227)%nat && (y =? 128)%nat && (z =? 128)%nat).

(** Stripping on the left: the white space outside ASCII, and the
    characters of ASCII that [space] accepts. *)
Fixpoint lstrip_of (space : ascii -> bool) (s : string) : string :=
  match s with
  | EmptyString => EmptyString
  | String a r1 =>
      if space a then lstrip_of space r1
      else
        match r1 with
        | String b r2 =>
            if is_space2 a b then lstrip_of space r2
            else
              match r2 with
              | String c r3 => if is_space3 a b c then lstrip_of space r3 else s
              | EmptyString => s
              end
        | EmptyString => s
        end
  end.

(** Stripping on the right: what is left of [s] when the longest end of it
    that is white space throughout is taken away. *)
Fixpoint rstrip_of (space : ascii -> bool) (s : string) : string :=
  match s with
  | EmptyString => EmptyString
  | String c rest =>
      match lstrip_of space s with
      | EmptyString => EmptyString
      | _ => String c (rstrip_of space rest)
      end
  end.

(** [s.strip()] *)
Definition strip (s : string) : string := rstrip_of is_space (lstrip_of is_space s).

(** [s.split(sep, 1)] for a one-character separator: [None] when [sep]
    does not occur (Python then returns the one-element list [[s]]). *)
Fixpoint split_once (sep : ascii) (s : string) : option (string * string) :=
  match s with
  | EmptyString => None
  | String c rest =>
      if Ascii.eqb c sep then Some (EmptyString, rest)
      else match split_once sep rest with
           | Some (a, b) => Some (String c a, b)
           | None => None
           end
  end.

(** [s.split(sep)] for a one-character separator. *)
Fixpoint split (sep : ascii) (s : string) : list string :=
  match s with
  | EmptyString => [EmptyString]
  | String c rest =>
      if Ascii.eqb c sep then EmptyString :: split sep rest
      else match split sep rest with
           | [] => [String c EmptyString]
           | a :: l => String c a :: l
           end
  end.

(** [sep.join(parts)] *)
Definition join (sep : string) (parts : list string) : string :=
  String.concat sep parts.

(** Truth value of a [str]. *)
Definition nonempty (s : string) : bool :=
  match s with EmptyString => false | _ => true end.

Definition newline : ascii := ascii_of_nat 10.

End Py.

(** ** [bytes.decode("utf-8", errors="replace")]

    The bytes are a [string] too. A sequence that is not well formed is
    replaced by U+FFFD: one for a byte that cannot start a character, one
    for the bytes of a character that is cut short by a byte that cannot
    continue it, or by the end of the input. *)

Module Utf8.

(** U+FFFD as UTF-8. *)
Definition REPLACEMENT : string :=
  String (ascii_of_nat 239) (String (ascii_of_nat 191) (String (ascii_of_nat 189) EmptyString)).

Definition continuation (c : ascii) : bool :=
  let n := nat_of_ascii c in (128 <=? n)%nat && (n <=? 191)%nat.

(** The second byte after a lead of three: E0 takes A0 and up (a shorter
    form exists below), ED takes up to 9F (surrogates lie above). *)
Definition second_of_three (lead c : ascii) : bool :=
  let a := nat_of_ascii lead in
  let n := nat_of_ascii c in
  continuation c
  && negb ((a =? 224)%nat && (n <? 160)%nat)
  && negb ((a =? 237)%nat && (160 <=? n)%nat).

(** The second byte after a lead of four: F0 takes 90 and up, F4 takes up
    to 8F (U+10FFFF is the last code point). *)
Definition second_of_four (lead c : ascii) : bool :=
  let a := nat_of_ascii lead in
  let n := nat_of_ascii c in
  continuation c
  && negb ((a =? 240)%nat && (n <? 144)%nat)
  && negb ((a =? 244)%nat && (144 <=? n)%nat).

Fixpoint decode (s : string) : string :=
  match s with
  | EmptyString => EmptyString
  | String b0 r0 =>
      let n0 := nat_of_ascii b0 in
      if (n0 <? 128)%nat then String b0 (decode r0)
      else if (n0 <? 194)%nat || (244 <? n0)%nat then REPLACEMENT ++ decode r0
      else if (n0 <? 224)%nat then
        match r0 with
        | EmptyString => REPLACEMENT
        | String b1 r1 =>
            if continuation b1 then String b0 (String b1 (decode r1))
            else REPLACEMENT ++ decode r0
        end
      else if (n0 <? 240)%nat then
        match r0 with
        | EmptyString => REPLACEMENT
        | String b1 r1 =>
            if second_of_three b0 b1 then
              match r1 with
              | EmptyString => REPLACEMENT
              | String b2 r2 =>
                  if continuation b2
                  then String b0 (String b1 (String b2 (decode r2)))
                  else REPLACEMENT ++ decode r1
              end
            else REPLACEMENT ++ decode r0
        end
      else
        match r0 with
        | EmptyString => REPLACEMENT
        | String b1 r1 =>
            if second_of_four b0 b1 then
              match r1 with
              | EmptyString => REPLACEMENT
              | String b2 r2 =>
                  if continuation b2 then
                    match r2 with
                    | EmptyString => REPLACEMENT
                    | String b3 r3 =>
                        if continuation b3
                        then String b0 (String b1 (String b2 (String b3 (decode r3))))
                        else REPLACEMENT ++ decode r2
                    end
                  else REPLACEMENT ++ decode r1
              end
            else REPLACEMENT ++ decode r0
        end
  end.

(** The bytes are well formed: characters one after the other, none cut
    short. *)
Fixpoint well_formed (s : string) : bool :=
  match s with
  | EmptyString => true
  | String b0 r0 =>
      let n0 := nat_of_ascii b0 in
      if (n0 <? 128)%nat then well_formed r0
      else if (n0 <? 194)%nat || (244 <? n0)%nat then false
      else if (n0 <? 224)%nat then
        match r0 with
        | String b1 r1 => continuation b1 && well_formed r1
        | EmptyString => false
        end
      else if (n0 <? 240)%nat then
        match r0 with
        | String b1 (String b2 r2) =>
            second_of_three b0 b1 && continuation b2 && well_formed r2
        | _ => false
        end
      else
        match r0 with
        | String b1 (String b2 (String b3 r3)) =>
            second_of_four b0 b1 && continuation b2 && continuation b3 && well_formed r3
        | _ => false
        end
  end.

End Utf8.

(** A computation that returns or raises; the error is [str(e)]. *)
Inductive Result (A : Type) : Type :=
| Ok (a : A)
| Raise (msg : string).
Arguments Ok {A} a.
Arguments Raise {A} msg.

(** ** Binary64 numbers

    A finite [float] is the rational it denotes. An operation of Python
    gives the binary64 number nearest to the exact result, the one with the
    even significand when two are as near: [round] cuts a rational to 53
    significant bits, or to a multiple of 2^-1074 when it is below
    2^-1022. *)

(** The integer nearest to [x], the even one of two. *)
Definition round_half_even (x : Q) : Z :=
  let below := Qfloor x in
  match (x - inject_Z below ?= 1 # 2)%Q with
  | Lt => below
  | Gt => below + 1
  | Eq => if Z.even below then below else below + 1
  end.

Module Float.

(** The exponent of the power of two at or below a positive [x]. *)
Definition ilog2 (x : Q) : Z :=
  if Qle_bool 1 x then Z.log2 (Qfloor x) else - Z.log2_up (Qceiling (/ x)).

(** The exponent of the unit in the last place of [x]. *)
Definition exponent (x : Q) : Z := Z.max (ilog2 (Qabs x) - 52) (-1074).

Definition round (x : Q) : Q :=
  if Qeq_bool x 0 then 0%Q
  else
    let e := exponent x in
    Qred (inject_Z (round_half_even (x / 2 ^ e)) * 2 ^ e).

(** Whether a rounded result is a number of binary64 and not an
    infinity. *)
Definition finite (x : Q) : bool := negb (Qle_bool (2 ^ 1024) (Qabs x)).

(** [a + b], [a * b] and [a / b] for a [b] other than 0. *)
Definition add (a b : Q) : Q := round (a + b).
Definition mul (a b : Q) : Q := round (a * b).
Definition div (a b : Q) : Q := round (a / b).

End Float.

(** [int(x)] for a [float]: truncation toward zero. *)
Definition int_of_float (x : Q) : Z := Z.quot (Qnum x) (Z.pos (Qden x)).

(** ** Data model (models/session.py, models/billing.py) *)

Inductive SessionStatus :=
| PENDING | PROVISIONING | RUNNING | AGENT_WORKING | PUSHING
| COMPLETED | FAILED | CANCELLED | TIMED_OUT.

Inductive EventType :=
| USER_MESSAGE | AGENT_MESSAGE | AGENT_ACTION | FILE_CHANGE | COMMAND_EXEC
| COMMAND_OUTPUT | GIT_OPERATION | ERROR | STATUS_CHANGE | CONTAINER_LOG.

Inductive BillingType := SESSION_CHARGE | CREDIT_PURCHASE | SUBSCRIPTION | REFUND.

Inductive SubscriptionTier := FREE | PRO | TEAM | ENTERPRISE.

Global Instance SessionStatus_eq_dec : EqDecision SessionStatus.
Proof. solve_decision. Defined.
Global Instance EventType_eq_dec : EqDecision EventType.
Proof. solve_decision. Defined.
Global Instance SubscriptionTier_eq_dec : EqDecision SubscriptionTier.
Proof. solve_decision. Defined.

(** The statuses the design calls terminal. *)
Definition terminal (st : SessionStatus) : bool :=
  match st with
  | COMPLETED | FAILED | CANCELLED | TIMED_OUT => true
  | _ => false
  end.

Record TierLimits := {
  minutes_per_month : Z;
  max_concurrent_sessions : Z;
  price_cents : Z
}.

Definition TIER_LIMITS (tier : SubscriptionTier) : TierLimits :=
  match tier with
  | FREE => {| minutes_per_month := 60; max_concurrent_sessions := 1; price_cents := 0 |}
  | PRO => {| minutes_per_month := 600; max_concurrent_sessions := 3; price_cents := 1999 |}
  | TEAM => {| minutes_per_month := 3000; max_concurrent_sessions := 10; price_cents := 7999 |}
  | ENTERPRISE => {| minutes_per_month := -1; max_concurrent_sessions := -1; price_cents := -1 |}
  end.

Record Subscription := {
  tier : SubscriptionTier;
  is_active : bool;
  minutes_used_this_period : Q
}.

Record BillingRecord := {
  bill_user_id : string;
  bill_session_id : option string;
  billing_type : BillingType;
  amount_cents : Z;
  (* [description] is formatted from the two values below:
     "Claude Code session: {minutes:.1f} min — {task[:50]}" *)
  description_minutes : Q;
  description_task : string
}.

Record Repository := {
  repo_user_id : string;
  clone_url : string;
  default_branch : string;
  language : option string
}.

(** ** Values decoded by [json.loads]

    [PFloat] is a finite [float], [PNaN] and [PInf] are the three that are
    not. A [dict] keeps insertion order and has no duplicate key. *)

#[local] Unset Elimination Schemes.
Inductive pyval :=
| PNone
| PBool (b : bool)
| PInt (n : Z)
| PFloat (q : Q)
| PNaN
| PInf (negative : bool)
| PStr (s : string)
| PList (items : list pyval)
| PDict (fields : list (string * pyval)).
#[local] Set Elimination Schemes.

Module Dict.

(** [d[k] = v]: replaces the value of an existing key in place, else
    appends. *)
Fixpoint set (k : string) (v : pyval) (d : list (string * pyval)) : list (string * pyval) :=
  match d with
  | [] => [(k, v)]
  | (k', v') :: rest =>
      if String.eqb k k' then (k, v) :: rest else (k', v') :: set k v rest
  end.

(** [d.get(k)] *)
Fixpoint get (k : string) (d : list (string * pyval)) : option pyval :=
  match d with
  | [] => None
  | (k', v) :: rest => if String.eqb k k' then Some v else get k rest
  end.

(** [d.get(k, default)] *)
Definition get_default (k : string) (default : pyval) (d : list (string * pyval)) : pyval :=
  match get k d with Some v => v | None => default end.

End Dict.

(** [type(v).__name__] *)
Definition type_name (v : pyval) : string :=
  match v with
  | PNone => "NoneType"
  | PBool _ => "bool"
  | PInt _ => "int"
  | PFloat _ | PNaN | PInf _ => "float"
  | PStr _ => "str"
  | PList _ => "list"
  | PDict _ => "dict"
  end.

(** Truth value of a Python object ([if v], [v or w]). *)
Definition truthy (v : pyval) : bool :=
  match v with
  | PNone => false
  | PBool b => b
  | PInt n => negb (n =? 0)%Z
  | PFloat q => negb (Qeq_bool q 0)
  | PNaN | PInf _ => true
  | PStr s => Py.nonempty s
  | PList l => match l with [] => false | _ => true end
  | PDict d => match d with [] => false | _ => true end
  end.

(** [v or w] *)
Definition py_or (v w : pyval) : pyval := if truthy v then v else w.

(** [v == "literal"] *)
Definition is_str (v : pyval) (literal : string) : bool :=
  match v with
  | PStr s => String.eqb s literal
  | _ => false
  end.

(** An event row. [content] is what the caller passed: a [str] on every
    path but the decoder's error branch, which forwards a decoded value. *)
Record SessionEvent := {
  ev_session_id : string;
  event_type : EventType;
  content : pyval;
  sequence : Z
}.

(** ** The session record *)

Record DevSession := {
  id : string;
  user_id : string;
  repository_id : string;
  status : SessionStatus;
  branch : string;
  task_description : string;
  execution_mode : string;
  container_id : option string;
  container_image : option string;
  started_at : option Q;
  ended_at : option Q;
  duration_seconds : option Q;
  cost_cents : Z;
  tokens_used : pyval;
  commit_sha : option string;
  commit_message : option string;
  files_changed : option Z;
  error_message : option string
}.

(** Attribute assignments [session.f = v]. *)
Definition set_status (v : SessionStatus) (s : DevSession) : DevSession :=
  {| id := id s; user_id := user_id s; repository_id := repository_id s;
     status := v; branch := branch s; task_description := task_description s;
     execution_mode := execution_mode s; container_id := container_id s;
     container_image := container_image s; started_at := started_at s;
     ended_at := ended_at s; duration_seconds := duration_seconds s;
     cost_cents := cost_cents s; tokens_used := tokens_used s;
     commit_sha := commit_sha s; commit_message := commit_message s;
     files_changed := files_changed s; error_message := error_message s |}.
Definition set_container (cid img : option string) (s : DevSession) : DevSession :=
  {| id := id s; user_id := user_id s; repository_id := repository_id s;
     status := status s; branch := branch s; task_description := task_description s;
     execution_mode := execution_mode s; container_id := cid;
     container_image := img; started_at := started_at s; ended_at := ended_at s;
     duration_seconds := duration_seconds s; cost_cents := cost_cents s;
     tokens_used := tokens_used s; commit_sha := commit_sha s;
     commit_message := commit_message s; files_changed := files_changed s;
     error_message := error_message s |}.
Definition set_started_at (v : option Q) (s : DevSession) : DevSession :=
  {| id := id s; user_id := user_id s; repository_id := repository_id s;
     status := status s; branch := branch s; task_description := task_description s;
     execution_mode := execution_mode s; container_id := container_id s;
     container_image := container_image s; started_at := v; ended_at := ended_at s;
     duration_seconds := duration_seconds s; cost_cents := cost_cents s;
     tokens_used := tokens_used s; commit_sha := commit_sha s;
     commit_message := commit_message s; files_changed := files_changed s;
     error_message := error_message s |}.
Definition set_ended_at (v : option Q) (s : DevSession) : DevSession :=
  {| id := id s; user_id := user_id s; repository_id := repository_id s;
     status := status s; branch := branch s; task_description := task_description s;
     execution_mode := execution_mode s; container_id := container_id s;
     container_image := container_image s; started_at := started_at s;
     ended_at := v; duration_seconds := duration_seconds s;
     cost_cents := cost_cents s; tokens_used := tokens_used s;
     commit_sha := commit_sha s; commit_message := commit_message s;
     files_changed := files_changed s; error_message := error_message s |}.
Definition set_duration_seconds (v : option Q) (s : DevSession) : DevSession :=
  {| id := id s; user_id := user_id s; repository_id := repository_id s;
     status := status s; branch := branch s; task_description := task_description s;
     execution_mode := execution_mode s; container_id := container_id s;
     container_image := container_image s; started_at := started_at s;
     ended_at := ended_at s; duration_seconds := v; cost_cents := cost_cents s;
     tokens_used := tokens_used s; commit_sha := commit_sha s;
     commit_message := commit_message s; files_changed := files_changed s;
     error_message := error_message s |}.
Definition set_cost_cents (v : Z) (s : DevSession) : DevSession :=
  {| id := id s; user_id := user_id s; repository_id := repository_id s;
     status := status s; branch := branch s; task_description := task_description s;
     execution_mode := execution_mode s; container_id := container_id s;
     container_image := container_image s; started_at := started_at s;
     ended_at := ended_at s; duration_seconds := duration_seconds s;
     cost_cents := v; tokens_used := tokens_used s; commit_sha := commit_sha s;
     commit_message := commit_message s; files_changed := files_changed s;
     error_message := error_message s |}.
Definition set_tokens_used (v : pyval) (s : DevSession) : DevSession :=
  {| id := id s; user_id := user_id s; repository_id := repository_id s;
     status := status s; branch := branch s; task_description := task_description s;
     execution_mode := execution_mode s; container_id := container_id s;
     container_image := container_image s; started_at := started_at s;
     ended_at := ended_at s; duration_seconds := duration_seconds s;
     cost_cents := cost_cents s; tokens_used := v; commit_sha := commit_sha s;
     commit_message := commit_message s; files_changed := files_changed s;
     error_message := error_message s |}.
Definition set_commit (sha msg : option string) (files : option Z) (s : DevSession) : DevSession :=
  {| id := id s; user_id := user_id s; repository_id := repository_id s;
     status := status s; branch := branch s; task_description := task_description s;
     execution_mode := execution_mode s; container_id := container_id s;
     container_image := container_image s; started_at := started_at s;
     ended_at := ended_at s; duration_seconds := duration_seconds s;
     cost_cents := cost_cents s; tokens_used := tokens_used s; commit_sha := sha;
     commit_message := msg; files_changed := files;
     error_message := error_message s |}.
Definition set_error_message (v : option string) (s : DevSession) : DevSession :=
  {| id := id s; user_id := user_id s; repository_id := repository_id s;
     status := status s; branch := branch s; task_description := task_description s;
     execution_mode := execution_mode s; container_id := container_id s;
     container_image := container_image s; started_at := started_at s;
     ended_at := ended_at s; duration_seconds := duration_seconds s;
     cost_cents := cost_cents s; tokens_used := tokens_used s;
     commit_sha := commit_sha s; commit_message := commit_message s;
     files_changed := files_changed s; error_message := v |}.

(** ** The database and the settings *)

Record DB := {
  db_sessions : gmap string DevSession;
  db_events : list SessionEvent;
  db_billing : list BillingRecord;
  db_subscriptions : gmap string Subscription;
  db_repositories : gmap string Repository
}.

Definition with_sessions (v : gmap string DevSession) (db : DB) : DB :=
  {| db_sessions := v; db_events := db_events db; db_billing := db_billing db;
     db_subscriptions := db_subscriptions db; db_repositories := db_repositories db |}.
Definition with_events (v : list SessionEvent) (db : DB) : DB :=
  {| db_sessions := db_sessions db; db_events := v; db_billing := db_billing db;
     db_subscriptions := db_subscriptions db; db_repositories := db_repositories db |}.
Definition with_billing (v : list BillingRecord) (db : DB) : DB :=
  {| db_sessions := db_sessions db; db_events := db_events db; db_billing := v;
     db_subscriptions := db_subscriptions db; db_repositories := db_repositories db |}.
Definition with_subscriptions (v : gmap string Subscription) (db : DB) : DB :=
  {| db_sessions := db_sessions db; db_events := db_events db; db_billing := db_billing db;
     db_subscriptions := v; db_repositories := db_repositories db |}.

(** [await db.flush()] with [session] attached: its row takes the object's
    current attributes. *)
Definition flush (session : DevSession) (db : DB) : DB :=
  with_sessions (<[id session := session]> (db_sessions db)) db.

(** ** What the columns take

    The database is PostgreSQL, reached through asyncpg. A [Text] column
    takes a [str] that can be encoded (no surrogate) and holds no NUL, a
    [String(n)] column one of [n] characters at most, an [Integer] column
    an [int] of 32 bits. The flush of a row with any other value raises. *)

Module Column.

Definition NUL : string := String (ascii_of_nat 0) EmptyString.

(** The number of characters: the bytes that do not continue one. *)
Fixpoint characters (s : string) : nat :=
  match s with
  | EmptyString => O
  | String c rest =>
      if Utf8.continuation c then characters rest else S (characters rest)
  end.

Definition Text (s : string) : bool :=
  Utf8.well_formed s && negb (Py.contains NUL s).

Definition String (n : nat) (s : string) : bool :=
  Text s && (characters s <=? n)%nat.

Definition Integer (n : Z) : bool := (- 2 ^ 31 <=? n) && (n <? 2 ^ 31).




End Column.





(** [RATE_PER_MINUTE] is the number as it is written in the configuration;
    the [float] the program holds is the binary64 number nearest to it. *)
Record Settings := {
  ANTHROPIC_API_KEY : string;
  CLAUDE_CODE_MODEL : string;
  CLAUDE_CODE_MAX_TURNS : Z;
  RATE_PER_MINUTE : Q
}.

(** config/settings.py, with an API key configured. *)
Definition settings : Settings := {|
  ANTHROPIC_API_KEY := "sk-configured";
  CLAUDE_CODE_MODEL := "";
  CLAUDE_CODE_MAX_TURNS := 0;
  RATE_PER_MINUTE := 1 # 100
|}.

(** ** Session service: events and admission (services/session_service.py) *)

(** [SessionService._add_event]: one more row, appended. *)
Definition _add_event (db : DB) (session_id : string) (evt : EventType)
    (text : pyval) (seq : Z) : DB :=
  with_events
    (db_events db ++
     [{| ev_session_id := session_id; event_type := evt; content := text; sequence := seq |}])
    db.

(** [ORDER BY sequence]: rows with the same sequence number come in the
    order the sort leaves them (the database leaves that order open). *)
Definition seq_le (a b : SessionEvent) : Prop := (sequence a <= sequence b)%Z.

Global Instance seq_le_dec : RelDecision seq_le.
Proof. intros a b. unfold seq_le. apply _. Defined.

Global Instance seq_le_transitive : Transitive seq_le.
Proof. intros a b c. unfold seq_le. lia. Qed.

Global Instance seq_le_total : Total seq_le.
Proof. intros a b. unfold seq_le. lia. Qed.

Definition order_by_sequence (l : list SessionEvent) : list SessionEvent :=
  merge_sort seq_le l.

Definition events_of (db : DB) (session_id : string) : list SessionEvent :=
  List.filter (fun e => String.eqb (ev_session_id e) session_id) (db_events db).

(** [SessionService.get_session_events] *)
Definition get_session_events (db : DB) (session_id : string) : list SessionEvent :=
  order_by_sequence (events_of db session_id).

(** The result dictionary of the admission check. *)
Inductive TierCheck :=
| Allowed
| Denied (reason : string).

Definition counts_as_active (st : SessionStatus) : bool :=
  match st with
  | RUNNING | AGENT_WORKING | PROVISIONING => true
  | _ => false
  end.

(** The rows selected by the concurrency query. *)
Definition active_sessions (db : DB) (uid : string) : list DevSession :=
  List.filter (fun s => String.eqb (user_id s) uid && counts_as_active (status s))
    (map_to_list (db_sessions db)).*2.

Section Admission.

(** The tier table is read-only reference data; the check is stated over
    any table, and [TIER_LIMITS] is the one the module defines. *)
Variable limits_of : SubscriptionTier -> TierLimits.

Definition minutes_reason (limits : TierLimits) : string :=
  "Monthly limit of " ++ Py.str_of_int (minutes_per_month limits)
    ++ " minutes reached. Please upgrade your plan.".

Definition concurrency_reason (limits : TierLimits) : string :=
  "Max concurrent sessions (" ++ Py.str_of_int (max_concurrent_sessions limits)
    ++ ") reached.".

(** [SessionService._check_tier_limits] *)
Definition _check_tier_limits (db : DB) (uid : string) : TierCheck :=
  let subscription := db_subscriptions db !! uid in
  let tier := match subscription with Some sub => tier sub | None => FREE end in
  let limits := limits_of tier in
  let minutes_used :=
    match subscription with Some sub => minutes_used_this_period sub | None => 0%Q end in
  if (0 <? minutes_per_month limits)%Z
     && Qle_bool (inject_Z (minutes_per_month limits)) minutes_used
  then Denied (minutes_reason limits)
  else
    let active := active_sessions db uid in
    if (0 <? max_concurrent_sessions limits)%Z
       && (max_concurrent_sessions limits <=? Z.of_nat (length active))%Z
    then Denied (concurrency_reason limits)
    else Allowed.

(** [SessionService.create_session]; [new_id] is the generated primary
    key. *)
Definition create_session (cfg : Settings) (db : DB) (uid new_id : string)
    (repo_id task : string) (branch_arg : option string) (mode : string)
    : Result (DB * DevSession) :=
  match db_repositories db !! repo_id with
  | None => Raise "Repository not found"
  | Some repo =>
      if negb (String.eqb (repo_user_id repo) uid) then Raise "Repository not found"
      else if negb (Py.nonempty (ANTHROPIC_API_KEY cfg)) then
        Raise "ANTHROPIC_API_KEY not configured on server. Claude Code requires it."
      else if negb (String.eqb mode "claude" || String.eqb mode "cdm") then
        Raise "execution_mode must be 'claude' or 'cdm'"
      else
        match _check_tier_limits db uid with
        | Denied reason => Raise reason
        | Allowed =>
            let session := {|
              id := new_id; user_id := uid; repository_id := repo_id;
              status := PENDING;
              branch := match branch_arg with
                        | Some b => if Py.nonempty b then b else default_branch repo
                        | None => default_branch repo
                        end;
              task_description := task; execution_mode := mode;
              container_id := None; container_image := None;
              started_at := None; ended_at := None; duration_seconds := None;
              cost_cents := 0; tokens_used := PInt 0;
              commit_sha := None; commit_message := None; files_changed := None;
              error_message := None |} in
            let db := flush session db in
            let db := _add_event db new_id STATUS_CHANGE (PStr "Session created") 0 in
            Ok (db, session)
        end
  end.

End Admission.

(** ** [json.loads]

    The decoder of the standard library, as [json.decoder] and
    [json.scanner] define it: objects, arrays, strict strings, numbers, the
    constants [null], [true], [false], [NaN], [Infinity], [-Infinity], and
    nothing but whitespace after the value. A code point written [\uXXXX]
    is stored as its UTF-8 bytes.

    Besides [JSONDecodeError] the decoder raises [RecursionError], when the
    arrays and objects are nested deeper than the interpreter allows, and
    [ValueError], when an integer has more digits than
    [sys.get_int_max_str_digits()]: [depth] and [max_digits] are these two
    limits. *)

Module Json.

Definition dquote : ascii := ascii_of_nat 34.
Definition backslash : ascii := ascii_of_nat 92.

(** [WHITESPACE]: space, tab, newline, carriage return. *)
Definition is_ws (c : ascii) : bool :=
  let n := nat_of_ascii c in
  (n =? 32)%nat || (n =? 9)%nat || (n =? 10)%nat || (n =? 13)%nat.

Fixpoint skip_ws (s : string) : string :=
  match s with
  | String c rest => if is_ws c then skip_ws rest else s
  | EmptyString => s
  end.

Definition digit_val (c : ascii) : option Z :=
  let n := nat_of_ascii c in
  if (48 <=? n)%nat && (n <=? 57)%nat then Some (Z.of_nat n - 48) else None.

Definition hex_val (c : ascii) : option Z :=
  let n := nat_of_ascii c in
  if (48 <=? n)%nat && (n <=? 57)%nat then Some (Z.of_nat n - 48)
  else if (65 <=? n)%nat && (n <=? 70)%nat then Some (Z.of_nat n - 55)
  else if (97 <=? n)%nat && (n <=? 102)%nat then Some (Z.of_nat n - 87)
  else None.

(** The run of decimal digits [s] starts with: their value read after
    [acc], how many there are, and what follows. *)
Fixpoint digits (acc : Z) (count : nat) (s : string) : Z * nat * string :=
  match s with
  | String c rest =>
      match digit_val c with
      | Some d => digits (10 * acc + d) (S count) rest
      | None => (acc, count, s)
      end
  | EmptyString => (acc, count, s)
  end.

Definition byte (n : Z) : ascii := ascii_of_nat (Z.to_nat n).

(** UTF-8 bytes of a code point. *)
Definition utf8 (cp : Z) : string :=
  if cp <? 128 then String (byte cp) EmptyString
  else if cp <? 2048 then
    String (byte (192 + cp / 64)) (String (byte (128 + cp mod 64)) EmptyString)
  else if cp <? 65536 then
    String (byte (224 + cp / 4096))
      (String (byte (128 + (cp / 64) mod 64))
         (String (byte (128 + cp mod 64)) EmptyString))
  else
    String (byte (240 + cp / 262144))
      (String (byte (128 + (cp / 4096) mod 64))
         (String (byte (128 + (cp / 64) mod 64))
            (String (byte (128 + cp mod 64)) EmptyString))).

(** Four hexadecimal digits. *)
Definition hex4 (a b c d : ascii) : option Z :=
  match hex_val a, hex_val b, hex_val c, hex_val d with
  | Some x, Some y, Some z, Some w => Some (((x * 16 + y) * 16 + z) * 16 + w)
  | _, _, _, _ => None
  end.

Definition simple_escape (c : ascii) : option ascii :=
  let n := nat_of_ascii c in
  if (n =? 34)%nat then Some dquote
  else if (n =? 92)%nat then Some backslash
  else if (n =? 47)%nat then Some "/"%char
  else if (n =? 98)%nat then Some (ascii_of_nat 8)
  else if (n =? 102)%nat then Some (ascii_of_nat 12)
  else if (n =? 110)%nat then Some (ascii_of_nat 10)
  else if (n =? 114)%nat then Some (ascii_of_nat 13)
  else if (n =? 116)%nat then Some (ascii_of_nat 9)
  else None.

Definition prepend (p : string) (r : option (string * string)) : option (string * string) :=
  match r with
  | Some (body, rest) => Some (p ++ body, rest)
  | None => None
  end.

(** [py_scanstring] in strict mode, from just after the opening quote:
    the decoded string and what follows the closing quote. *)
Fixpoint scanstring (s : string) : option (string * string) :=
  match s with
  | EmptyString => None
  | String c rest =>
      if Ascii.eqb c dquote then Some (EmptyString, rest)
      else if Ascii.eqb c backslash then
        match rest with
        | EmptyString => None
        | String e rest1 =>
            if Ascii.eqb e "u"%char then
              match rest1 with
              | String h1 (String h2 (String h3 (String h4 rest2))) =>
                  match hex4 h1 h2 h3 h4 with
                  | None => None
                  | Some hi =>
                      let single := prepend (utf8 hi) (scanstring rest2) in
                      if (55296 <=? hi) && (hi <=? 56319) then
                        match rest2 with
                        | String b (String u (String l1 (String l2 (String l3 (String l4 rest3))))) =>
                            if Ascii.eqb b backslash && Ascii.eqb u "u"%char then
                              match hex4 l1 l2 l3 l4 with
                              | Some lo =>
                                  if (56320 <=? lo) && (lo <=? 57343) then
                                    prepend
                                      (utf8 (65536 + (hi - 55296) * 1024 + (lo - 56320)))
                                      (scanstring rest3)
                                  else single
                              | None => single
                              end
                            else single
                        | _ => single
                        end
                      else single
                  end
              | _ => None
              end
            else
              match simple_escape e with
              | Some ch => prepend (String ch EmptyString) (scanstring rest1)
              | None => None
              end
        end
      else if (nat_of_ascii c <? 32)%nat then None
      else prepend (String c EmptyString) (scanstring rest)
  end.

(** [10 ^ e] scaling of an integer mantissa. *)
Definition scale10 (m e : Z) : Q :=
  if 0 <=? e then inject_Z (m * 10 ^ e) else (m # Z.to_pos (10 ^ (- e)))%Q.

(** [s] without its first character when that is [c]. *)
Definition strip_char (c : ascii) (s : string) : option string :=
  match s with
  | String c' rest => if Ascii.eqb c' c then Some rest else None
  | EmptyString => None
  end.

(** What a scanner ends with: a value and what follows it,
    [JSONDecodeError], or an exception of another class. *)
Inductive Scan : Type :=
| Scanned (v : pyval) (rest : string)
| Invalid
| Failed (msg : string).

(** The parts of [NUMBER_RE], each matched at the start of what the one
    before left: the sign, *)
Definition number_sign (s : string) : bool * string :=
  match strip_char "-" s with
  | Some rest => (true, rest)
  | None => (false, s)
  end.

(** the integer part [0|[1-9]\d*] with the number of its digits, *)
Definition number_int (s : string) : option (Z * nat * string) :=
  match s with
  | String c rest =>
      match digit_val c with
      | Some d =>
          if d =? 0 then Some (0, 1%nat, rest)
          else Some (digits d 1 rest)
      | None => None
      end
  | EmptyString => None
  end.

(** the fraction [\.\d+]: the digits read after [int_v] and their number, *)
Definition number_frac (int_v : Z) (s : string) : Z * option nat * string :=
  match strip_char "." s with
  | Some rest =>
      let '(v, n, rest') := digits int_v 0 rest in
      if (n =? 0)%nat then (int_v, None, s) else (v, Some n, rest')
  | None => (int_v, None, s)
  end.

(** and the exponent [[eE][-+]?\d+]. *)
Definition number_exp (s : string) : option Z * string :=
  match s with
  | String e rest =>
      if Ascii.eqb e "e" || Ascii.eqb e "E" then
        let '(negative, rest1) :=
          match strip_char "-" rest, strip_char "+" rest with
          | Some r, _ => (true, r)
          | None, Some r => (false, r)
          | None, None => (false, rest)
          end in
        let '(v, n, rest2) := digits 0 0 rest1 in
        if (n =? 0)%nat then (None, s)
        else (Some (if negative then - v else v), rest2)
      else (None, s)
  | EmptyString => (None, s)
  end.

(** [float(literal)]: the binary64 number nearest to what the literal
    denotes, an infinity when that is out of range. *)
Definition float_literal (negative : bool) (q : Q) : pyval :=
  let x := Float.round q in
  if Float.finite x then PFloat x else PInf negative.

(** [int(literal)] refuses a literal of more than 640 digits when that is
    more than the limit, if there is one. *)
Definition too_many_digits (max_digits n : nat) : bool :=
  (640 <? n)%nat && (0 <? max_digits)%nat && (max_digits <? n)%nat.

Definition digits_message (max_digits n : nat) : string :=
  "Exceeds the limit (" ++ Py.str_of_int (Z.of_nat max_digits)
  ++ " digits) for integer string conversion: value has "
  ++ Py.str_of_int (Z.of_nat n)
  ++ " digits; use sys.set_int_max_str_digits() to increase the limit".

(** [NUMBER_RE] matched at the start of [s]: an [int] when there is neither
    fraction nor exponent, a [float] otherwise. *)
Definition match_number (max_digits : nat) (s : string) : Scan :=
  let '(negative, s1) := number_sign s in
  match number_int s1 with
  | None => Invalid
  | Some (int_v, int_digits, s2) =>
      let '(mant, nfrac, s3) := number_frac int_v s2 in
      let '(expo, s4) := number_exp s3 in
      let signed := if negative then - mant else mant in
      match nfrac, expo with
      | None, None =>
          if too_many_digits max_digits int_digits
          then Failed (digits_message max_digits int_digits)
          else Scanned (PInt signed) s4
      | _, _ =>
          let shift :=
            match expo with Some e => e | None => 0 end
            - match nfrac with Some n => Z.of_nat n | None => 0 end in
          Scanned (float_literal negative (scale10 signed shift)) s4
      end
  end.

Definition strip_prefix (p s : string) : option string :=
  if String.prefix p s
  then Some (String.substring (String.length p) (String.length s - String.length p) s)
  else None.

(** The constants [scan_once] recognises by their spelling. *)
Definition match_constant (s : string) : option (pyval * string) :=
  match strip_prefix "null" s, strip_prefix "true" s, strip_prefix "false" s with
  | Some r, _, _ => Some (PNone, r)
  | _, Some r, _ => Some (PBool true, r)
  | _, _, Some r => Some (PBool false, r)
  | None, None, None => None
  end.

Definition match_special_float (s : string) : option (pyval * string) :=
  match strip_prefix "NaN" s, strip_prefix "Infinity" s, strip_prefix "-Infinity" s with
  | Some r, _, _ => Some (PNaN, r)
  | _, Some r, _ => Some (PInf false, r)
  | _, _, Some r => Some (PInf true, r)
  | None, None, None => None
  end.

(** A value that is neither a string, an object nor an array. *)
Definition scan_plain (max_digits : nat) (s : string) : Scan :=
  match match_constant s with
  | Some (v, rest) => Scanned v rest
  | None =>
      match match_number max_digits s with
      | Invalid =>
          match match_special_float s with
          | Some (v, rest) => Scanned v rest
          | None => Invalid
          end
      | res => res
      end
  end.

Definition recursion_message (what : string) : string :=
  "maximum recursion depth exceeded while decoding a JSON " ++ what
  ++ " from a unicode string".

Section Scanner.

Variable max_digits : nat.

(** [scan_once], [JSONObject] and [JSONArray]. [depth] is the number of
    arrays and objects that can still be opened. [fuel] bounds the
    recursion; [loads] supplies enough of it for every input. *)
Fixpoint scan_once (fuel : nat) (depth : nat) (s : string) : Scan :=
  match fuel with
  | O => Invalid
  | S fuel =>
      match strip_char dquote s, strip_char "{" s, strip_char "[" s with
      | Some rest, _, _ =>
          match scanstring rest with
          | Some (str, r) => Scanned (PStr str) r
          | None => Invalid
          end
      | None, Some rest, _ =>
          match depth with
          | O => Failed (recursion_message "object")
          | S depth =>
              match strip_char "}" (skip_ws rest) with
              | Some r => Scanned (PDict []) r
              | None => object_items fuel depth [] (skip_ws rest)
              end
          end
      | None, None, Some rest =>
          match depth with
          | O => Failed (recursion_message "array")
          | S depth =>
              match strip_char "]" (skip_ws rest) with
              | Some r => Scanned (PList []) r
              | None => array_items fuel depth [] (skip_ws rest)
              end
          end
      | None, None, None => scan_plain max_digits s
      end
  end

(** From a property name on: ["key" : value] then [}] or [, "key" ...]. *)
with object_items (fuel : nat) (depth : nat) (acc : list (string * pyval)) (s : string)
    : Scan :=
  match fuel with
  | O => Invalid
  | S fuel =>
      match strip_char dquote s with
      | None => Invalid
      | Some rest =>
          match scanstring rest with
          | None => Invalid
          | Some (key, r1) =>
              match strip_char ":" (skip_ws r1) with
              | None => Invalid
              | Some r2 =>
                  match scan_once fuel depth (skip_ws r2) with
                  | Scanned v r3 =>
                      let acc := Dict.set key v acc in
                      match strip_char "}" (skip_ws r3), strip_char "," (skip_ws r3) with
                      | Some r4, _ => Scanned (PDict acc) r4
                      | None, Some r4 => object_items fuel depth acc (skip_ws r4)
                      | None, None => Invalid
                      end
                  | stop => stop
                  end
              end
          end
      end
  end

(** From a value on: [value] then [[]]] or [, value ...]. *)
with array_items (fuel : nat) (depth : nat) (acc : list pyval) (s : string) : Scan :=
  match fuel with
  | O => Invalid
  | S fuel =>
      match scan_once fuel depth s with
      | Scanned v r1 =>
          match strip_char "]" (skip_ws r1), strip_char "," (skip_ws r1) with
          | Some r2, _ => Scanned (PList (acc ++ [v])) r2
          | None, Some r2 => array_items fuel depth (acc ++ [v]) (skip_ws r2)
          | None, None => Invalid
          end
      | stop => stop
      end
  end.

End Scanner.

(** What [json.loads] ends with. *)
Inductive Loaded : Type :=
| Decoded (v : pyval)
| JSONDecodeError
| Raises (msg : string).

(** [json.loads(s)] *)
Definition loads (depth max_digits : nat) (s : string) : Loaded :=
  match scan_once max_digits (2 * String.length s + 2) depth (skip_ws s) with
  | Scanned v rest =>
      match skip_ws rest with
      | EmptyString => Decoded v
      | _ => JSONDecodeError
      end
  | Invalid => JSONDecodeError
  | Failed msg => Raises msg
  end.

End Json.

(** ** The interpreter

    Three library functions are not modelled: every result below holds
    whatever they return. The two limits of the interpreter that the
    decoder meets are parameters too. *)
Class PyBuiltins := {
  (** [repr(v)] *)
  py_repr : pyval -> string;
  (** [json.dumps(v, default=str)] *)
  json_dumps : pyval -> string;
  (** [f"{float(v):.4f}"], raising when [float(v)] does *)
  format_4f : pyval -> Result string;
  (** the arrays and objects that [json.loads] can open inside the first
      one before the recursion limit is met *)
  json_depth : nat;
  (** [sys.get_int_max_str_digits()]: 0 when there is no limit *)
  max_str_digits : nat
}.

Section Builtins.

Context {rt : PyBuiltins}.

(** [str(v)] *)
Definition py_str (v : pyval) : string :=
  match v with
  | PStr s => s
  | PInt n => Py.str_of_int n
  | PBool true => "True"
  | PBool false => "False"
  | PNone => "None"
  | _ => py_repr v
  end.

(** [f"{v}"] for the sum of two token counts: an [int] of more digits than
    the limit is not printed. *)
Definition py_format (v : pyval) : Result string :=
  match v with
  | PInt n =>
      if Json.too_many_digits max_str_digits (String.length (Py.str_of_int (Z.abs n)))
      then Raise ("Exceeds the limit (" ++ Py.str_of_int (Z.of_nat max_str_digits)
                  ++ " digits) for integer string conversion; "
                  ++ "use sys.set_int_max_str_digits() to increase the limit")
      else Ok (Py.str_of_int n)
  | _ => Ok (py_str v)
  end.

(** The run of digits an [int] literal holds after its sign, single
    underscores between them: its value, the number of the digits and what
    follows. [None] when two underscores meet or one ends the run. *)
Fixpoint int_run (acc : Z) (count : nat) (s : string) : option (Z * nat * string) :=
  match s with
  | EmptyString => Some (acc, count, s)
  | String c rest =>
      match Json.digit_val c with
      | Some d => int_run (10 * acc + d) (S count) rest
      | None =>
          if Ascii.eqb c "_"%char then
            match rest with
            | String c' _ =>
                match Json.digit_val c' with
                | Some _ => int_run acc count rest
                | None => None
                end
            | EmptyString => None
            end
          else Some (acc, count, s)
      end
  end.

(** [int(s)] for a [str] in base 10: white space around, a sign, digits.
    The digits of other scripts, which [int] reads too, are not. *)
Definition py_int (s : string) : Result Z :=
  let invalid := Raise ("invalid literal for int() with base 10: " ++ py_repr (PStr s)) in
  let '(negative, body) :=
    match Py.rstrip_of Py.is_c_space (Py.lstrip_of Py.is_c_space s) with
    | String "-"%char r => (true, r)
    | String "+"%char r => (false, r)
    | body => (false, body)
    end in
  match body with
  | String c _ =>
      match Json.digit_val c, int_run 0 0 body with
      | Some _, Some (v, n, rest) =>
          if Json.too_many_digits max_str_digits n
          then Raise (Json.digits_message max_str_digits n)
          else
            match rest with
            | EmptyString => Ok (if negative then - v else v)
            | _ => invalid
            end
      | _, _ => invalid
      end
  | EmptyString => invalid
  end.

(** [a + b]: numbers add ([bool] counting as [int]), strings and lists
    concatenate, anything else is a [TypeError]. *)
Definition as_number (v : pyval) : option pyval :=
  match v with
  | PBool b => Some (PInt (if b then 1 else 0))
  | PInt _ | PFloat _ | PNaN | PInf _ => Some v
  | _ => None
  end.

(** [float(n)] for the [int] that meets a [float]. *)
Definition as_float (v : pyval) : Result pyval :=
  match v with
  | PInt n =>
      let x := Float.round (inject_Z n) in
      if Float.finite x then Ok (PFloat x)
      else Raise "int too large to convert to float"
  | _ => Ok v
  end.

Definition add_floats (a b : pyval) : pyval :=
  match a, b with
  | PFloat x, PFloat y =>
      let sum := Float.add x y in
      if Float.finite sum then PFloat sum else PInf (negb (Qle_bool 0 sum))
  | PNaN, _ | _, PNaN => PNaN
  | PInf s, PInf s' => if Bool.eqb s s' then PInf s else PNaN
  | PInf s, _ | _, PInf s => PInf s
  | _, _ => PNone
  end.

Definition add_numbers (a b : pyval) : Result pyval :=
  match a, b with
  | PInt x, PInt y => Ok (PInt (x + y))
  | _, _ =>
      match as_float a, as_float b with
      | Ok x, Ok y => Ok (add_floats x y)
      | Raise m, _ | _, Raise m => Raise m
      end
  end.

Definition py_add (a b : pyval) : Result pyval :=
  match as_number a, as_number b with
  | Some x, Some y => add_numbers x y
  | _, _ =>
      match a, b with
      | PStr x, PStr y => Ok (PStr (x ++ y))
      | PList x, PList y => Ok (PList (x ++ y)%list)
      | PStr _, _ =>
          Raise ("can only concatenate str (not " ++ String Json.dquote (type_name b)
                 ++ String Json.dquote ") to str")
      | PList _, _ =>
          Raise ("can only concatenate list (not " ++ String Json.dquote (type_name b)
                 ++ String Json.dquote ") to list")
      | _, _ =>
          Raise ("unsupported operand type(s) for +: '" ++ type_name a ++ "' and '"
                 ++ type_name b ++ "'")
      end
  end.

(** [sep.join(parts)] on arbitrary objects: a [TypeError] at the first
    part that is not a [str]. *)
Fixpoint join_parts (i : Z) (parts : list pyval) : Result (list string) :=
  match parts with
  | [] => Ok []
  | PStr s :: rest =>
      match join_parts (i + 1) rest with
      | Ok l => Ok (s :: l)
      | Raise m => Raise m
      end
  | v :: _ =>
      Raise ("sequence item " ++ Py.str_of_int i ++ ": expected str instance, "
             ++ type_name v ++ " found")
  end.

Definition py_join (sep : string) (parts : list pyval) : Result string :=
  match join_parts 0 parts with
  | Ok l => Ok (Py.join sep l)
  | Raise m => Raise m
  end.

End Builtins.

(** ** Container service (services/container_service.py) *)

(** What [exec_command] returns. *)
Record ExecResult := {
  exit_code : Z;
  output : string
}.

(** What the Docker daemon does with one streamed exec: the chunks of
    bytes it delivers, then how the exec ends. *)
Inductive ExitInfo :=
| NoExitCode            (* the inspect result has no "ExitCode" key *)
| ExitCodeNone          (* the key is there and holds None *)
| ExitCode (n : Z).

Inductive Ending :=
| Inspected (info : ExitInfo)      (* the stream ended and was inspected *)
| RaisedInStream (msg : string)    (* create, start or an iteration raised *)
| RaisedAtInspect (msg : string).  (* the stream ended, inspect raised *)

Record DockerExec := {
  chunks : list string;
  ending : Ending
}.

(** The container as the services see it: the result of each blocking
    command and the behaviour of each streamed one. *)
Record Container := {
  exec_command : string -> Result ExecResult;
  exec_stream : list string -> DockerExec
}.

Definition nl : string := String Py.newline EmptyString.

(** [chunk.decode("utf-8", errors="replace")] for each chunk of the
    stream: every chunk is decoded by itself. *)
Definition texts (d : DockerExec) : list string := map Utf8.decode (chunks d).

(** The inner loop of [_run_streaming]:
    [while "\n" in buffer: line, buffer = buffer.split("\n", 1); put(line)].
    The complete lines and the remaining buffer. *)
Definition drain (buffer : string) : list string * string :=
  let parts := Py.split Py.newline buffer in
  (List.removelast parts, List.last parts EmptyString).

(** [for chunk in stream: buffer += text; (inner loop)] *)
Fixpoint feed (buffer : string) (stream : list string) : list string * string :=
  match stream with
  | [] => ([], buffer)
  | text :: rest =>
      let '(lines, buffer) := drain (buffer ++ text) in
      let '(more, final) := feed buffer rest in
      ((lines ++ more)%list, final)
  end.

Definition exit_code_text (info : ExitInfo) : string :=
  match info with
  | NoExitCode => "-1"
  | ExitCodeNone => "None"
  | ExitCode n => Py.str_of_int n
  end.

Definition EXIT_CODE_PREFIX : string := "__EXIT_CODE__:".
Definition EXEC_ERROR_PREFIX : string := "__EXEC_ERROR__:".

(** The lines of the process's output that are put on the queue when the
    stream is read to its end: the complete lines, then what is left in the
    buffer if it is not empty. *)
Definition output_lines (stream : list string) : list string :=
  let '(lines, buffer) := feed EmptyString stream in
  (lines ++ (if Py.nonempty buffer then [buffer] else []))%list.

(** [ContainerService.exec_streaming]: the items the generator yields, in
    order (the queue is first-in first-out; [None] ends the generator). *)
Definition exec_streaming (d : DockerExec) : list string :=
  let sentinel :=
    match ending d with
    | Inspected info => EXIT_CODE_PREFIX ++ exit_code_text info
    | RaisedInStream msg | RaisedAtInspect msg => EXEC_ERROR_PREFIX ++ msg
    end in
  match ending d with
  | RaisedInStream _ => (fst (feed EmptyString (texts d)) ++ [sentinel])%list
  | _ => (output_lines (texts d) ++ [sentinel])%list
  end.

(** What [git_commit_and_push] returns. *)
Record PushResult := {
  push_commit_sha : string;
  diff_stat : string;
  push_output : string;
  push_files_changed : Z
}.

Definition quoted (s : string) : string :=
  String Json.dquote (s ++ String Json.dquote EmptyString).

(** [len([l for l in out.strip().split("\n") if l.strip() and "|" in l])] *)
Definition count_changed (out : string) : Z :=
  Z.of_nat (length (List.filter
    (fun l => Py.nonempty (Py.strip l) && Py.contains "|" l)
    (Py.split Py.newline (Py.strip out)))).

(** [ContainerService.git_commit_and_push] *)
Definition git_commit_and_push (c : Container) (commit_msg branch_name : string)
    : Result PushResult :=
  match exec_command c "git add -A" with
  | Raise m => Raise m
  | Ok add_result =>
  if negb (exit_code add_result =? 0) then
    Raise ("Git add failed: " ++ output add_result)
  else
  match exec_command c "git diff --cached --stat" with
  | Raise m => Raise m
  | Ok diff_result =>
  let changed := count_changed (output diff_result) in
  match exec_command c ("git commit -m " ++ quoted commit_msg) with
  | Raise m => Raise m
  | Ok commit_result =>
  if negb (exit_code commit_result =? 0)
     && negb (Py.contains "nothing to commit" (output commit_result)) then
    Raise ("Git commit failed: " ++ output commit_result)
  else
  match exec_command c ("git push origin " ++ branch_name) with
  | Raise m => Raise m
  | Ok push_result =>
  if negb (exit_code push_result =? 0) then
    Raise ("Git push failed: " ++ output push_result)
  else
  match exec_command c "git rev-parse HEAD" with
  | Raise m => Raise m
  | Ok sha_result =>
      Ok {| push_commit_sha := Py.strip (output sha_result);
            diff_stat := output diff_result;
            push_output := output push_result;
            push_files_changed := changed |}
  end end end end end.

(** ** Agent service (services/agent_service.py) *)

(** One call [on_event(event_type_str, content)]. *)
Definition AgentEvent : Type := string * pyval.

(** The dictionary [_stream_command] returns; [tool_uses] is absent from
    the two error results. *)
Record RunResult := {
  success : bool;
  summary : string;
  res_tokens_used : pyval;
  res_exit_code : Z;
  tool_uses : option Z
}.

(** The local variables of [_stream_command]. *)
Record StreamState := {
  st_exit_code : Z;
  total_input_tokens : pyval;
  total_output_tokens : pyval;
  result_text : string;
  num_tool_uses : Z
}.

Definition initial_state : StreamState := {|
  st_exit_code := 0;
  total_input_tokens := PInt 0;
  total_output_tokens := PInt 0;
  result_text := "";
  num_tool_uses := 0
|}.

(** What one iteration of the [async for] does. *)
Inductive Step :=
| Next (st : StreamState) (evs : list AgentEvent)     (* falls through or [continue] *)
| Return (res : RunResult) (evs : list AgentEvent)    (* [return] from the loop *)
| Raised (msg : string) (st : StreamState) (evs : list AgentEvent).

Section AgentService.

Context {rt : PyBuiltins}.

(** [AgentService._parse_stream_line]. The annotation promises a [dict];
    [json.loads] returns whatever value the line denotes. *)
Definition _parse_stream_line (line : string) : Result (option pyval) :=
  let line := Py.strip line in
  if negb (Py.nonempty line) then Ok None
  else
    match Json.loads (S json_depth) max_str_digits line with
    | Json.Decoded PNone => Ok None
    | Json.Decoded v => Ok (Some v)
    | Json.JSONDecodeError =>
        if Py.nonempty line && negb (Py.startswith "{" line)
        then Ok (Some (PDict [("type", PStr "assistant"); ("content", PStr line)]))
        else Ok None
    | Json.Raises msg => Raise msg
    end.

(** [isinstance(block, dict) and block.get("type") == "text"] and
    [isinstance(block, str)]: what the block adds to [parts]. *)
Definition text_of_block (block : pyval) : list pyval :=
  match block with
  | PDict d =>
      if is_str (Dict.get_default "type" PNone d) "text"
      then [Dict.get_default "text" (PStr "") d] else []
  | PStr _ => [block]
  | _ => []
  end.

Definition message_or_text (parsed : list (string * pyval)) : string :=
  match Dict.get "message" parsed with
  | Some v => py_str v
  | None =>
      match Dict.get "text" parsed with
      | Some v => py_str v
      | None => ""
      end
  end.

(** [AgentService._extract_text] *)
Definition _extract_text (parsed : list (string * pyval)) : Result string :=
  match Dict.get "content" parsed with
  | Some (PStr s) => Ok s
  | Some (PList blocks) => py_join nl (flat_map text_of_block blocks)
  | _ => Ok (message_or_text parsed)
  end.

Definition tool_input_prefix (key : string) : string :=
  if String.eqb key "file_path" then "File: "
  else if String.eqb key "path" then "Path: "
  else if String.eqb key "pattern" then "Search: "
  else "".

(** [for key in (...): if key in tool_input: return ...] *)
Fixpoint first_present (keys : list string) (d : list (string * pyval)) : option string :=
  match keys with
  | [] => None
  | key :: rest =>
      match Dict.get key d with
      | Some v => Some (Py.take 200 (tool_input_prefix key ++ py_str v))
      | None => first_present rest d
      end
  end.

(** [AgentService._summarize_tool_input] *)
Definition _summarize_tool_input (parsed : list (string * pyval)) : string :=
  let tool_input :=
    Dict.get_default "input" (Dict.get_default "tool_input" (PDict []) parsed) parsed in
  match tool_input with
  | PStr s => Py.take 200 s
  | PDict d =>
      match first_present ["command"; "file_path"; "path"; "pattern"] d with
      | Some text => text
      | None => Py.take 200 (json_dumps tool_input)
      end
  | _ => Py.take 200 (py_str tool_input)
  end.

Definition output_of_block (b : pyval) : pyval :=
  match b with
  | PDict d => Dict.get_default "text" (Dict.get_default "content" (PStr (py_str b)) d) d
  | _ => PStr (py_str b)
  end.

(** [AgentService._extract_tool_output] *)
Definition _extract_tool_output (parsed : list (string * pyval)) : Result string :=
  let out := Dict.get_default "output" (Dict.get_default "content" (PStr "") parsed) parsed in
  match out with
  | PStr s => Ok s
  | PList blocks => py_join nl (map output_of_block blocks)
  | _ => Ok (py_str out)
  end.

(** The events a call [await on_event(...)] guarded by [if on_event]
    adds. *)
Definition emit (on_event : bool) (kind : string) (text : pyval) : list AgentEvent :=
  if on_event then [(kind, text)] else [].

Definition with_result_text (v : string) (st : StreamState) : StreamState :=
  {| st_exit_code := st_exit_code st; total_input_tokens := total_input_tokens st;
     total_output_tokens := total_output_tokens st; result_text := v;
     num_tool_uses := num_tool_uses st |}.
Definition with_exit_code (v : Z) (st : StreamState) : StreamState :=
  {| st_exit_code := v; total_input_tokens := total_input_tokens st;
     total_output_tokens := total_output_tokens st; result_text := result_text st;
     num_tool_uses := num_tool_uses st |}.
Definition with_tokens (i o : pyval) (st : StreamState) : StreamState :=
  {| st_exit_code := st_exit_code st; total_input_tokens := i;
     total_output_tokens := o; result_text := result_text st;
     num_tool_uses := num_tool_uses st |}.
Definition count_tool_use (st : StreamState) : StreamState :=
  {| st_exit_code := st_exit_code st; total_input_tokens := total_input_tokens st;
     total_output_tokens := total_output_tokens st; result_text := result_text st;
     num_tool_uses := num_tool_uses st + 1 |}.

(** [x or result_text] for a [str] [x]. *)
Definition or_text (x fallback : string) : string :=
  if Py.nonempty x then x else fallback.

(** The [result] branch after the three assignments, with the values just
    assigned to [total_input_tokens] and [total_output_tokens]: the stats
    message. *)
Definition stats_events (on_event : bool) (parsed : list (string * pyval))
    (input_tokens output_tokens : pyval) : Result (list AgentEvent) :=
  if negb on_event then Ok []
  else
    let cost :=
      py_or (Dict.get_default "cost_usd" PNone parsed)
            (Dict.get_default "cost" (PInt 0) parsed) in
    let cost_part :=
      if truthy cost then
        match format_4f cost with
        | Ok text => Ok ["Cost: $" ++ text]
        | Raise m => Raise m
        end
      else Ok [] in
    match cost_part with
    | Raise m => Raise m
    | Ok parts1 =>
        let tokens_part :=
          if truthy (py_or input_tokens output_tokens) then
            match py_add input_tokens output_tokens with
            | Ok total =>
                match py_format total with
                | Ok text => Ok ["Tokens: " ++ text]
                | Raise m => Raise m
                end
            | Raise m => Raise m
            end
          else Ok [] in
        match tokens_part with
        | Raise m => Raise m
        | Ok parts2 =>
            let parts := (parts1 ++ parts2)%list in
            match parts with
            | [] => Ok []
            | _ => Ok [("agent_message", PStr ("Stats: " ++ Py.join ", " parts))]
            end
        end
    end.

(** The body of the loop for a decoded object. *)
Definition handle_message (on_event : bool) (parsed : list (string * pyval))
    (st : StreamState) : Step :=
  let msg_type := Dict.get_default "type" (PStr "") parsed in
  if is_str msg_type "assistant" then
    match _extract_text parsed with
    | Raise m => Raised m st []
    | Ok text =>
        Next (with_result_text (or_text text (result_text st)) st)
             (if Py.nonempty text then emit on_event "agent_message" (PStr text) else [])
    end
  else if is_str msg_type "tool_use" then
    let st := count_tool_use st in
    let tool_name :=
      Dict.get_default "tool" (Dict.get_default "name" (PStr "unknown") parsed) parsed in
    let tool_input_summary := _summarize_tool_input parsed in
    Next st (emit on_event "agent_action"
               (PStr ("[" ++ py_str tool_name ++ "] " ++ tool_input_summary)))
  else if is_str msg_type "tool_result" then
    match _extract_tool_output parsed with
    | Raise m => Raised m st []
    | Ok out =>
        Next st (if Py.nonempty out
                 then emit on_event "command_output" (PStr (Py.take 800 out)) else [])
    end
  else if is_str msg_type "result" then
    match _extract_text parsed with
    | Raise m => Raised m st []
    | Ok text =>
        let st := with_result_text (or_text text (result_text st)) st in
        let input_tokens := Dict.get_default "input_tokens" (PInt 0) parsed in
        let output_tokens := Dict.get_default "output_tokens" (PInt 0) parsed in
        let st := with_tokens input_tokens output_tokens st in
        match stats_events on_event parsed input_tokens output_tokens with
        | Raise m => Raised m st []
        | Ok evs => Next st evs
        end
    end
  else if is_str msg_type "error" then
    Next st (emit on_event "error"
               (Dict.get_default "error"
                  (Dict.get_default "message" (PStr (py_str (PDict parsed))) parsed)
                  parsed))
  else
    let raw := Dict.get_default "content" (Dict.get_default "message" (PStr "") parsed) parsed in
    Next st (if truthy raw
             then emit on_event "agent_message" (PStr (Py.take 500 (py_str raw))) else []).

(** The body of the loop for one line. *)
Definition handle_line (on_event : bool) (line : string) (st : StreamState) : Step :=
  if Py.startswith EXIT_CODE_PREFIX line then
    match Py.split_once ":" line with
    | Some (_, text) =>
        match py_int text with
        | Ok n => Next (with_exit_code n st) []
        | Raise m => Raised m st []
        end
    | None => Raised "list index out of range" st []
    end
  else if Py.startswith EXEC_ERROR_PREFIX line then
    match Py.split_once ":" line with
    | Some (_, error_msg) =>
        Return {| success := false; summary := "Execution error: " ++ error_msg;
                  res_tokens_used := PInt 0; res_exit_code := -1; tool_uses := None |}
               (emit on_event "error" (PStr ("Execution error: " ++ error_msg)))
    | None => Raised "list index out of range" st []
    end
  else
    match _parse_stream_line line with
    | Raise msg => Raised msg st []
    | Ok None => Next st []
    | Ok (Some (PDict parsed)) => handle_message on_event parsed st
    | Ok (Some v) => Raised ("'" ++ type_name v ++ "' object has no attribute 'get'") st []
    end.

(** The [async for] over the yielded lines. *)
Fixpoint stream_loop (on_event : bool) (lines : list string) (st : StreamState) : Step :=
  match lines with
  | [] => Next st []
  | line :: rest =>
      match handle_line on_event line st with
      | Next st' evs =>
          match stream_loop on_event rest st' with
          | Next st'' evs' => Next st'' (evs ++ evs')
          | Return res evs' => Return res (evs ++ evs')
          | Raised m st'' evs' => Raised m st'' (evs ++ evs')
          end
      | stop => stop
      end
  end.

(** [AgentService._stream_command] over the lines [exec_streaming]
    yields: the events passed to [on_event], and the returned dictionary
    or the exception that leaves the function. *)
Definition _stream_command (on_event : bool) (lines : list string)
    : list AgentEvent * Result RunResult :=
  match stream_loop on_event lines initial_state with
  | Return res evs => (evs, Ok res)
  | Raised msg st evs =>
      let evs := (evs ++ emit on_event "error" (PStr ("Agent error: " ++ msg)))%list in
      match py_add (total_input_tokens st) (total_output_tokens st) with
      | Raise m => (evs, Raise m)
      | Ok total =>
          (evs, Ok {| success := false; summary := msg; res_tokens_used := total;
                      res_exit_code := -1; tool_uses := None |})
      end
  | Next st evs =>
      let ok := (st_exit_code st =? 0) in
      let status :=
        if ok then "completed successfully"
        else "exited with code " ++ Py.str_of_int (st_exit_code st) in
      let evs :=
        (evs ++ emit on_event "agent_message"
           (PStr ("Agent " ++ status ++ ". Tool calls: "
                  ++ Py.str_of_int (num_tool_uses st))))%list in
      match py_add (total_input_tokens st) (total_output_tokens st) with
      | Raise m => (evs, Raise m)
      | Ok total =>
          (evs, Ok {| success := ok;
                      summary :=
                        if Py.nonempty (result_text st) then Py.take 500 (result_text st)
                        else if ok then "Task completed" else "Task failed";
                      res_tokens_used := total;
                      res_exit_code := st_exit_code st;
                      tool_uses := Some (num_tool_uses st) |})
      end
  end.

End AgentService.

Section AgentRun.

Context {rt : PyBuiltins}.
Variable cfg : Settings.

Definition SYSTEM_PROMPT : string :=
  "You are working inside an AdelBot dev container. "
  ++ "The repository is cloned at /workspace. "
  ++ "Complete the task thoroughly: read the codebase, make changes, "
  ++ "install dependencies if needed, run tests if they exist, "
  ++ "and make sure everything works.".

(** [AgentService._build_claude_command] *)
Definition _build_claude_command (task : string) : list string :=
  (["claude"; "-p"; "--output-format"; "stream-json"; "--verbose";
    "--dangerously-skip-permissions"]
   ++ (if 0 <? CLAUDE_CODE_MAX_TURNS cfg
       then ["--max-turns"; Py.str_of_int (CLAUDE_CODE_MAX_TURNS cfg)] else [])
   ++ (if Py.nonempty (CLAUDE_CODE_MODEL cfg)
       then ["--model"; CLAUDE_CODE_MODEL cfg] else [])
   ++ ["--system-prompt"; SYSTEM_PROMPT]
   ++ [task])%list.

(** [AgentService._build_cdm_command] *)
Definition _build_cdm_command (task : string) : list string :=
  ["cdm"; "start"; "--name"; Py.take 80 task; "--description"; task;
   "--priority"; "high"; "--mode"; "claude-cli"; "--non-interactive"].

Definition command_line (cmd : list string) : pyval :=
  PStr ("$ " ++ Py.join " " cmd).

(** [AgentService._run_claude_code] *)
Definition _run_claude_code (c : Container) (on_event : bool) (task : string)
    : list AgentEvent * Result RunResult :=
  let cmd := _build_claude_command task in
  let before :=
    (emit on_event "agent_message" (PStr "Launching Claude Code agent...")
     ++ emit on_event "agent_action" (command_line cmd))%list in
  let '(evs, res) := _stream_command on_event (exec_streaming (exec_stream c cmd)) in
  ((before ++ evs)%list, res).

Definition CDM_INSTALL : string :=
  "cd /opt/cdm 2>/dev/null && npm link 2>/dev/null || "
  ++ "(git clone --depth 1 https://github.com/MoAdelArar/claude-dev-manager.git /opt/cdm && "
  ++ "cd /opt/cdm && npm install && npm run build && npm link)".

(** The part of [_run_cdm_pipeline] from [cdm init] on. *)
Definition cdm_start (c : Container) (on_event : bool) (task : string)
    (before : list AgentEvent) : list AgentEvent * Result RunResult :=
  match exec_command c "cdm init --non-interactive" with
  | Raise m => (before, Raise m)
  | Ok init_result =>
      let cmd := _build_cdm_command task in
      let before :=
        (before
         ++ (if exit_code init_result =? 0
             then emit on_event "agent_action" (PStr "[CDM] Project initialized") else [])
         ++ emit on_event "agent_action" (command_line cmd))%list in
      let '(evs, res) := _stream_command on_event (exec_streaming (exec_stream c cmd)) in
      ((before ++ evs)%list, res)
  end.

(** [AgentService._run_cdm_pipeline]; [_check_cdm_available] is the
    [which cdm] probe. *)
Definition _run_cdm_pipeline (c : Container) (on_event : bool) (task : string)
    : list AgentEvent * Result RunResult :=
  let before := emit on_event "agent_message" (PStr "Launching CDM 18-agent pipeline...") in
  match exec_command c "which cdm" with
  | Raise m => (before, Raise m)
  | Ok probe =>
      if exit_code probe =? 0 then cdm_start c on_event task before
      else
        let before :=
          (before ++ emit on_event "agent_message"
                       (PStr "CDM not found, installing from GitHub..."))%list in
        match exec_command c CDM_INSTALL with
        | Raise m => (before, Raise m)
        | Ok install_result =>
            if negb (exit_code install_result =? 0) then
              let before :=
                (before
                 ++ emit on_event "error"
                      (PStr ("CDM install failed: " ++ Py.take 300 (output install_result)))
                 ++ emit on_event "agent_message"
                      (PStr "Falling back to Claude Code quick mode..."))%list in
              let '(evs, res) := _run_claude_code c on_event task in
              ((before ++ evs)%list, res)
            else cdm_start c on_event task before
        end
  end.

(** [AgentService.run_task] *)
Definition run_task (c : Container) (on_event : bool) (task mode : string)
    : list AgentEvent * Result RunResult :=
  if String.eqb mode "cdm" then _run_cdm_pipeline c on_event task
  else _run_claude_code c on_event task.

End AgentRun.

(** ** Session service: the life cycle (services/session_service.py) *)

(** What [create_dev_container] returns. *)
Record ContainerInfo := {
  info_container_id : string;
  info_container_name : string;
  info_image : string
}.

(** What an operation leaves behind: the tables, the session object, and
    the exception that left it, if one did. *)
Record Effect := {
  out_db : DB;
  out_session : DevSession;
  out_raised : option string
}.

(** [duration_minutes * settings.RATE_PER_MINUTE * 100]: two products, each
    rounded. *)
Definition cost_product (rate duration_minutes : Q) : Q :=
  Float.mul (Float.mul duration_minutes (Float.round rate)) 100.

(** [int(duration_minutes * settings.RATE_PER_MINUTE * 100)] *)
Definition session_cost (rate duration_minutes : Q) : Z :=
  int_of_float (cost_product rate duration_minutes).

(** [if session.duration_seconds and session.duration_seconds > 0] *)
Definition positive_duration (s : DevSession) : option Q :=
  match duration_seconds s with
  | Some d => if negb (Qeq_bool d 0) && negb (Qle_bool d 0) then Some d else None
  | None => None
  end.

(** [delta.total_seconds()] for a difference of [delta] seconds between
    two [datetime]: the microseconds divided by 10^6, rounded once. *)
Definition timedelta_seconds (delta : Q) : Q := Float.round delta.

(** [session.ended_at = now; if session.started_at: duration = ...] *)
Definition stamp_end (now : Q) (s : DevSession) : DevSession :=
  let s := set_ended_at (Some now) s in
  match started_at s with
  | Some t0 => set_duration_seconds (Some (timedelta_seconds (now - t0))) s
  | None => s
  end.

Definition event_type_map (kind : string) : EventType :=
  if String.eqb kind "agent_message" then AGENT_MESSAGE
  else if String.eqb kind "agent_action" then AGENT_ACTION
  else if String.eqb kind "file_change" then FILE_CHANGE
  else if String.eqb kind "command_output" then COMMAND_OUTPUT
  else if String.eqb kind "error" then ERROR
  else AGENT_MESSAGE.

(** [track_event] applied to each call of the agent, in order: the rows
    added and the counter afterwards. *)
Fixpoint track_events (db : DB) (session_id : string) (counter : Z)
    (evs : list AgentEvent) : DB * Z :=
  match evs with
  | [] => (db, counter)
  | (kind, text) :: rest =>
      track_events (_add_event db session_id (event_type_map kind) text counter)
        session_id (counter + 1) rest
  end.

Definition commit_message_of (s : DevSession) : string :=
  "[AdelBot/Claude Code] " ++ Py.take 80 (task_description s).

Section Lifecycle.

Context {rt : PyBuiltins}.
Variable cfg : Settings.

(** [SessionService.start_session]; [created] is what
    [create_dev_container] did. *)
Definition start_session (created : Result ContainerInfo) (now : Q)
    (db : DB) (session : DevSession) : Effect :=
  match db_repositories db !! repository_id session with
  | None => {| out_db := db; out_session := session;
               out_raised := Some "No row was found when one was required" |}
  | Some repo =>
      let session := set_started_at (Some now) (set_status PROVISIONING session) in
      let db := flush session db in
      let db := _add_event db (id session) STATUS_CHANGE
                  (PStr "Provisioning container with Claude Code...") 1 in
      match created with
      | Ok info =>
          let session :=
            set_status RUNNING
              (set_container (Some (info_container_id info)) (Some (info_image info))
                 session) in
          let db := flush session db in
          let mode_label :=
            if String.eqb (execution_mode session) "cdm" then "CDM Pipeline"
            else "Claude Code" in
          let db := _add_event db (id session) STATUS_CHANGE
                      (PStr ("Container ready: " ++ info_container_name info ++ " | "
                             ++ mode_label)) 2 in
          {| out_db := db; out_session := session; out_raised := None |}
      | Raise e =>
          let session := set_error_message (Some e) (set_status FAILED session) in
          {| out_db := flush session db; out_session := session; out_raised := Some e |}
      end
  end.

(** The [try] block of [run_agent] once the agent has returned [result]:
    the session, the tables, and the exception the block ends with. *)
Definition after_agent (c : Container) (result : RunResult) (counter : Z)
    (db : DB) (session : DevSession) : DB * DevSession * option string :=
  let session := set_tokens_used (res_tokens_used result) session in
  if success result then
    let session := set_status PUSHING session in
    let db := flush session db in
    let db := _add_event db (id session) STATUS_CHANGE
                (PStr "Committing and pushing changes to GitHub...") counter in
    let counter := counter + 1 in
    match git_commit_and_push c (commit_message_of session) (branch session) with
    | Ok push_result =>
        let session :=
          set_status COMPLETED
            (set_commit (Some (push_commit_sha push_result))
               (Some (commit_message_of session))
               (Some (push_files_changed push_result)) session) in
        let db := _add_event db (id session) GIT_OPERATION
                    (PStr ("Pushed to " ++ branch session ++ ": "
                           ++ Py.take 7 (push_commit_sha push_result) ++ " ("
                           ++ Py.str_of_int (push_files_changed push_result)
                           ++ " files changed)")) counter in
        (db, session, None)
    | Raise push_err =>
        if Py.contains "nothing to commit" (Py.lower push_err) then
          let session := set_status COMPLETED session in
          let db := _add_event db (id session) GIT_OPERATION
                      (PStr "No changes to commit — task may have been analysis-only")
                      counter in
          (db, session, None)
        else (db, session, Some push_err)
    end
  else
    (db, set_error_message (Some (summary result)) (set_status FAILED session), None).

(** [SessionService.run_agent], called without an outer [on_event]. *)
Definition run_agent (c : Container) (now : Q) (db : DB) (session : DevSession)
    : Effect :=
  match container_id session with
  | None | Some EmptyString =>
      {| out_db := db; out_session := session;
         out_raised := Some "Session has no container" |}
  | Some _ =>
      let session := set_status AGENT_WORKING session in
      let db := flush session db in
      let db := _add_event db (id session) STATUS_CHANGE
                  (PStr "Claude Code agent started") 5 in
      let '(evs, outcome) :=
        run_task cfg c true (task_description session) (execution_mode session) in
      let '(db, counter) := track_events db (id session) 10 evs in
      let '(db, session, raised) :=
        match outcome with
        | Ok result => after_agent c result counter db session
        | Raise e => (db, session, Some e)
        end in
      let session :=
        match raised with
        | Some e => set_error_message (Some e) (set_status FAILED session)
        | None => session
        end in
      let session := stamp_end now session in
      {| out_db := flush session db; out_session := session; out_raised := None |}
  end.

(** [SessionService.finalize_session]. Destroying the container touches
    neither the session nor the tables, and its failure is only logged. *)
Definition finalize_session (now : Q) (db : DB) (session : DevSession)
    : DB * DevSession :=
  let '(db, session) :=
    match positive_duration session with
    | Some d =>
        let duration_minutes := Float.div d 60 in
        let cost := session_cost (RATE_PER_MINUTE cfg) duration_minutes in
        let session := set_cost_cents cost session in
        let billing := {|
          bill_user_id := user_id session;
          bill_session_id := Some (id session);
          billing_type := SESSION_CHARGE;
          amount_cents := cost;
          description_minutes := duration_minutes;
          description_task := Py.take 50 (task_description session) |} in
        let db := with_billing (db_billing db ++ [billing]) db in
        let db :=
          match db_subscriptions db !! user_id session with
          | Some sub =>
              with_subscriptions
                (<[user_id session :=
                   {| tier := tier sub; is_active := is_active sub;
                      minutes_used_this_period :=
                        Float.add (minutes_used_this_period sub) duration_minutes |}]>
                 (db_subscriptions db)) db
          | None => db
          end in
        (db, session)
    | None => (db, session)
    end in
  let session :=
    match ended_at session with
    | Some _ => session
    | None => set_ended_at (Some now) session
    end in
  (flush session db, session).

(** [SessionService.cancel_session] *)
Definition cancel_session (now : Q) (db : DB) (session : DevSession)
    : DB * DevSession :=
  let session := stamp_end now (set_status CANCELLED session) in
  let db := flush session db in
  finalize_session now db session.

End Lifecycle.

(** ** The background pipeline (api/routes/sessions.py) and the live feed
    (api/routes/websocket.py) *)

Section Pipeline.

Context {rt : PyBuiltins}.
Variable cfg : Settings.

(** The [except Exception as e] handler of [_run_session_pipeline]. *)
Definition pipeline_failed (e : string) (now : Q) (db : DB) (session_id : string) : DB :=
  match db_sessions db !! session_id with
  | Some session =>
      let session := set_error_message (Some e) (set_status FAILED session) in
      fst (finalize_session cfg now (flush session db) session)
  | None => db
  end.

(** [_run_session_pipeline]: [t0], [t1] and [t2] are the clock readings of
    the three stages. *)
Definition _run_session_pipeline (created : Result ContainerInfo) (c : Container)
    (t0 t1 t2 : Q) (db : DB) (session_id : string) : DB :=
  match db_sessions db !! session_id with
  | None => pipeline_failed "No row was found when one was required" t2 db session_id
  | Some session =>
      let started := start_session created t0 db session in
      match out_raised started with
      | Some e => pipeline_failed e t2 (out_db started) session_id
      | None =>
          let ran := run_agent cfg c t1 (out_db started) (out_session started) in
          match out_raised ran with
          | Some e => pipeline_failed e t2 (out_db ran) session_id
          | None => fst (finalize_session cfg t2 (out_db ran) (out_session ran))
          end
      end
  end.

End Pipeline.

(** One round of the loop of [session_websocket]: the rows selected with
    [sequence > last_sequence], in the order they are sent, and the cursor
    afterwards. *)
Definition poll (db : DB) (session_id : string) (last_sequence : Z)
    : list SessionEvent * Z :=
  let new_events :=
    order_by_sequence
      (List.filter (fun e => (last_sequence <? sequence e)%Z) (events_of db session_id)) in
  (new_events, fold_left (fun _ e => sequence e) new_events last_sequence).

(** The statuses on which the loop sends [session_ended] and stops. *)
Definition feed_ends (db : DB) (session_id : string) : bool :=
  match db_sessions db !! session_id with
  | Some session =>
      match status session with
      | COMPLETED | FAILED | CANCELLED => true
      | _ => false
      end
  | None => false
  end.

(** The rounds of the loop, one for each state of the database it finds:
    what each round sends. *)
Fixpoint feed_rounds (session_id : string) (last_sequence : Z) (states : list DB)
    : list (list SessionEvent) :=
  match states with
  | [] => []
  | db :: later =>
      let '(new_events, last_sequence) := poll db session_id last_sequence in
      new_events ::
      (if feed_ends db session_id then [] else feed_rounds session_id last_sequence later)
  end.

(** [session_websocket] once the connection is accepted: the cursor starts
    at 0, and nothing the client sends changes it. *)
Definition session_websocket (session_id : string) (states : list DB)
    : list (list SessionEvent) :=
  feed_rounds session_id 0 states.
(** * Further components

    The rest of the code that the properties at the end are about: the
    image table and the sweep of the container service, the owner's query of
    the session service and the request handlers built on it, the billing
    service, and the registry of live connections with the endpoint that
    uses it. *)

(** ** Container service: images and expired containers
    (services/container_service.py) *)

Section Images.

(** [settings.CONTAINER_IMAGE_PREFIX] *)
Variable CONTAINER_IMAGE_PREFIX : string.

(** [ContainerService._select_image]. [str.lower] takes a character
    outside ASCII to characters outside ASCII, but for the Kelvin sign,
    which it takes to [k], and the dotted capital I, which it takes to [i]
    and a combining dot. The keys of the table are ASCII and hold no [k],
    so the key [Py.lower] finds is the key [str.lower] finds. *)
Definition _select_image (language : option string) : string :=
  let key := Py.lower (match language with Some l => l | None => "" end) in
  if String.eqb key "python" then CONTAINER_IMAGE_PREFIX ++ "-python:latest"
  else if String.eqb key "javascript" then CONTAINER_IMAGE_PREFIX ++ "-node:latest"
  else if String.eqb key "typescript" then CONTAINER_IMAGE_PREFIX ++ "-node:latest"
  else if String.eqb key "java" then CONTAINER_IMAGE_PREFIX ++ "-java:latest"
  else if String.eqb key "go" then CONTAINER_IMAGE_PREFIX ++ "-go:latest"
  else if String.eqb key "rust" then CONTAINER_IMAGE_PREFIX ++ "-rust:latest"
  else if String.eqb key "ruby" then CONTAINER_IMAGE_PREFIX ++ "-ruby:latest"
  else CONTAINER_IMAGE_PREFIX ++ "-universal:latest".

End Images.

(** A container as the sweep finds it: its name, its
    [adelbot.created_at] label if it has one, and what [stop] and [remove]
    raise on it, if they do. *)
Record DockerContainer := {
  container_name : string;
  created_at_label : option string;
  stop_raises : option string;
  remove_raises : option string
}.

(** The calls the sweep makes on the daemon. *)
Inductive DockerCall :=
| Stop (name : string)
| Remove (name : string).

Section Sweep.

(** [settings.CONTAINER_MAX_LIFETIME_HOURS] *)
Variable CONTAINER_MAX_LIFETIME_HOURS : Z.

(** [(now - datetime.fromisoformat(s)).total_seconds()] for the [now] of
    the sweep, or the exception that parsing or subtracting raises. *)
Variable seconds_alive : string -> Result Q.

(** The body of the loop of [_cleanup_expired_sync]: the calls made and
    what is added to [cleaned]. An exception is logged and the loop goes
    on. *)
Definition sweep_container (container : DockerContainer) : list DockerCall * Z :=
  match created_at_label container with
  | None | Some EmptyString => ([], 0)
  | Some created_str =>
      match seconds_alive created_str with
      | Raise _ => ([], 0)
      | Ok seconds =>
          let hours_alive := (seconds / 3600)%Q in
          if negb (Qle_bool hours_alive (inject_Z CONTAINER_MAX_LIFETIME_HOURS)) then
            match stop_raises container with
            | Some _ => ([Stop (container_name container)], 0)
            | None =>
                match remove_raises container with
                | Some _ =>
                    ([Stop (container_name container); Remove (container_name container)], 0)
                | None =>
                    ([Stop (container_name container); Remove (container_name container)], 1)
                end
            end
          else ([], 0)
      end
  end.

(** [ContainerService._cleanup_expired_sync] over the containers the
    daemon lists: the calls made, in order, and the number returned. *)
Fixpoint _cleanup_expired_sync (containers : list DockerContainer) : list DockerCall * Z :=
  match containers with
  | [] => ([], 0)
  | container :: rest =>
      let '(calls, cleaned) := sweep_container container in
      let '(later, more) := _cleanup_expired_sync rest in
      ((calls ++ later)%list, cleaned + more)
  end.

End Sweep.

(** ** Session service: the owner's query (services/session_service.py) *)

(** [SessionService.get_session]: the row with that primary key, when it
    belongs to the user. *)
Definition get_session (db : DB) (session_id uid : string) : option DevSession :=
  match db_sessions db !! session_id with
  | Some session => if String.eqb (user_id session) uid then Some session else None
  | None => None
  end.

(** ** Request handlers (api/routes/sessions.py)

    A handler answers with a body, raises [HTTPException], or lets another
    exception escape. The database session comes from [get_db]
    (config/database.py), which commits when the handler returns and rolls
    back when it raises: the tables a handler leaves are those it wrote when
    it answers, and those it found otherwise. *)

Inductive Http (A : Type) : Type :=
| Respond (body : A)
| HTTPException (status_code : Z) (detail : string)
| Unhandled (msg : string).
Arguments Respond {A} body.
Arguments HTTPException {A} status_code detail.
Arguments Unhandled {A} msg.

(** [[f(e) for e in l]] for an [f] that can raise. *)
Fixpoint validate_all {A B : Type} (f : A -> Result B) (l : list A) : Result (list B) :=
  match l with
  | [] => Ok []
  | a :: rest =>
      match f a with
      | Raise m => Raise m
      | Ok b =>
          match validate_all f rest with
          | Raise m => Raise m
          | Ok bs => Ok (b :: bs)
          end
      end
  end.

Section Handlers.

Variable cfg : Settings.

(** The response models and their validation, [model_validate], which
    raises when an attribute does not fit the schema. *)
Variable SessionResponse : Type.
Variable SessionEventResponse : Type.
Variable session_response : DevSession -> Result SessionResponse.
Variable event_response : SessionEvent -> Result SessionEventResponse.

(** [GET /sessions/{session_id}]: the handler [get_session]. *)
Definition get_session_endpoint (db : DB) (user session_id : string)
    : Http SessionResponse :=
  match get_session db session_id user with
  | None => HTTPException 404 "Session not found"
  | Some session =>
      match session_response session with
      | Ok body => Respond body
      | Raise m => Unhandled m
      end
  end.

(** [GET /sessions/{session_id}/events]: the handler
    [get_session_events]. *)
Definition get_session_events_endpoint (db : DB) (user session_id : string)
    : Http (list SessionEventResponse) :=
  match get_session db session_id user with
  | None => HTTPException 404 "Session not found"
  | Some _ =>
      match validate_all event_response (get_session_events db session_id) with
      | Ok body => Respond body
      | Raise m => Unhandled m
      end
  end.

(** [POST /sessions/{session_id}/cancel]: the handler [cancel_session],
    with the tables it leaves. *)
Definition cancel_session_endpoint (now : Q) (db : DB) (user session_id : string)
    : DB * Http SessionResponse :=
  match get_session db session_id user with
  | None => (db, HTTPException 404 "Session not found")
  | Some session =>
      let '(db', session) := cancel_session cfg now db session in
      match session_response session with
      | Ok body => (db', Respond body)
      | Raise m => (db, Unhandled m)
      end
  end.

End Handlers.

(** ** Billing service (services/billing_service.py)

    Of a subscription the embedding keeps the tier, the activity flag and
    the period counter; the Stripe identifier and the two period dates,
    which these functions also write or print, are not kept. *)

(** [BillingService.get_or_create_subscription]; the new row takes the
    column default 0.0 for its counter when it is flushed. *)
Definition get_or_create_subscription (db : DB) (uid : string) : DB * Subscription :=
  match db_subscriptions db !! uid with
  | Some sub => (db, sub)
  | None =>
      let sub := {| tier := FREE; is_active := true; minutes_used_this_period := 0 |} in
      (with_subscriptions (<[uid := sub]> (db_subscriptions db)) db, sub)
  end.

(** [BillingService.upgrade_subscription] *)
Definition upgrade_subscription (db : DB) (uid : string) (new_tier : SubscriptionTier)
    : DB * Subscription :=
  let '(db, sub) := get_or_create_subscription db uid in
  let sub := {| tier := new_tier; is_active := is_active sub;
                minutes_used_this_period := 0 |} in
  (with_subscriptions (<[uid := sub]> (db_subscriptions db)) db, sub).

(** [BillingService.reset_period_usage]: the rows with [is_active] have
    their counter set to 0; their number is returned. *)
Definition reset_period_usage (db : DB) : DB * Z :=
  let reset (sub : Subscription) :=
    if is_active sub
    then {| tier := tier sub; is_active := is_active sub; minutes_used_this_period := 0 |}
    else sub in
  (with_subscriptions (reset <$> db_subscriptions db) db,
   Z.of_nat (length (List.filter is_active (map_to_list (db_subscriptions db)).*2))).

(** [round(x, 1)]: the nearest tenth, the even one of two, as a [float]. *)
Definition py_round1 (x : Q) : Q :=
  Float.round (inject_Z (round_half_even (x * 10)) / 10).

Definition is_session_charge (t : BillingType) : bool :=
  match t with SESSION_CHARGE => true | _ => false end.

(** The three aggregates of [get_usage_summary], each with its [or 0]:
    [SUM] over no row is [None]. *)
Definition total_spent (db : DB) (uid : string) : Z :=
  fold_right Z.add 0
    (map amount_cents
       (List.filter
          (fun r => String.eqb (bill_user_id r) uid && is_session_charge (billing_type r))
          (db_billing db))).

Definition sessions_of (db : DB) (uid : string) : list DevSession :=
  List.filter (fun s => String.eqb (user_id s) uid) (map_to_list (db_sessions db)).*2.

(** [SUM(duration_seconds)]: the database adds the durations one by one,
    each sum rounded, in the order it reads the rows, which here is the
    order of the map; [None] over no row. *)
Definition total_seconds (db : DB) (uid : string) : option Q :=
  match flat_map (fun s => match duration_seconds s with Some d => [d] | None => [] end)
          (sessions_of db uid) with
  | [] => None
  | d :: rest => Some (fold_left Float.add rest d)
  end.

(** The dictionary [get_usage_summary] returns, without the two period
    dates. *)
Record UsageSummary := {
  usage_tier : SubscriptionTier;
  usage_is_active : bool;
  usage_minutes_used_this_period : Q;
  usage_minutes_limit : Z;
  usage_max_concurrent_sessions : Z;
  total_spent_cents : Z;
  total_sessions : Z;
  total_minutes : Q
}.

(** [BillingService.get_usage_summary] *)
Definition get_usage_summary (db : DB) (uid : string) : DB * UsageSummary :=
  let '(db, sub) := get_or_create_subscription db uid in
  let limits := TIER_LIMITS (tier sub) in
  let seconds := total_seconds db uid in
  (db,
   {| usage_tier := tier sub;
      usage_is_active := is_active sub;
      usage_minutes_used_this_period := py_round1 (minutes_used_this_period sub);
      usage_minutes_limit := minutes_per_month limits;
      usage_max_concurrent_sessions := max_concurrent_sessions limits;
      total_spent_cents := total_spent db uid;
      total_sessions := Z.of_nat (length (sessions_of db uid));
      total_minutes :=
        match seconds with
        | Some total =>
            if Qeq_bool total 0 then 0%Q else py_round1 (Float.div total 60)
        | None => 0%Q
        end |}).

(** ** The registry of live connections (api/routes/websocket.py)

    A [WebSocket] is an object compared by identity: a number stands for
    it. [active_connections] maps a session to the list of its sockets. *)

Module ConnectionManager.

(** [l.remove(x)]: without the first occurrence of [x]; [None] is the
    [ValueError] of a list that does not hold [x]. *)
Fixpoint remove (x : Z) (l : list Z) : option (list Z) :=
  match l with
  | [] => None
  | y :: rest =>
      if Z.eqb y x then Some rest
      else match remove x rest with
           | Some rest' => Some (y :: rest')
           | None => None
           end
  end.

(** [ConnectionManager.connect], once the socket is accepted. *)
Definition connect (active_connections : gmap string (list Z)) (session_id : string)
    (websocket : Z) : gmap string (list Z) :=
  let active_connections :=
    match active_connections !! session_id with
    | None => <[session_id := []]> active_connections
    | Some _ => active_connections
    end in
  alter (fun l => (l ++ [websocket])%list) session_id active_connections.

(** [ConnectionManager.disconnect] *)
Definition disconnect (active_connections : gmap string (list Z)) (session_id : string)
    (websocket : Z) : Result (gmap string (list Z)) :=
  match active_connections !! session_id with
  | None => Ok active_connections
  | Some l =>
      match remove websocket l with
      | None => Raise "list.remove(x): x not in list"
      | Some [] => Ok (delete session_id active_connections)
      | Some l' => Ok (<[session_id := l']> active_connections)
      end
  end.

(** The second loop of [broadcast]: [for ws in dead: l.remove(ws)]. *)
Fixpoint remove_all (dead : list Z) (l : list Z) : option (list Z) :=
  match dead with
  | [] => Some l
  | ws :: rest =>
      match remove ws l with
      | Some l' => remove_all rest l'
      | None => None
      end
  end.

(** [ConnectionManager.broadcast]; [send_json] tells the sockets that
    take the message from those on which sending raises. The registry
    afterwards and the sockets the message went to. *)
Definition broadcast (send_json : Z -> bool) (active_connections : gmap string (list Z))
    (session_id : string) : Result (gmap string (list Z) * list Z) :=
  match active_connections !! session_id with
  | None => Ok (active_connections, [])
  | Some l =>
      let dead := List.filter (fun ws => negb (send_json ws)) l in
      match remove_all dead l with
      | None => Raise "list.remove(x): x not in list"
      | Some l' => Ok (<[session_id := l']> active_connections, List.filter send_json l)
      end
  end.

End ConnectionManager.

(** How a connection to the live feed ends: closed before it was accepted,
    or accepted and sent the rounds of events. *)
Inductive WsOutcome :=
| Closed (code : Z) (reason : string)
| Streamed (rounds : list (list SessionEvent)).

Section Endpoint.

(** [decode_token] of the authentication middleware: the user a token was
    issued to, if it is valid. *)
Variable decode_token : string -> option string.

(** The whole of [session_websocket]: the checks before the connection is
    accepted, the registration, the rounds of the loop on the states of the
    database it finds, and the [finally] clause. [db] is the database when
    the connection is opened. The registry afterwards, or the exception
    [disconnect] raised, and the outcome. *)
Definition session_websocket_endpoint (manager : gmap string (list Z)) (websocket : Z)
    (token : option string) (db : DB) (session_id : string) (states : list DB)
    : Result (gmap string (list Z)) * WsOutcome :=
  match token with
  | None | Some EmptyString => (Ok manager, Closed 4001 "Missing token")
  | Some token =>
      match decode_token token with
      | None | Some EmptyString => (Ok manager, Closed 4001 "Invalid token")
      | Some uid =>
          match get_session db session_id uid with
          | None => (Ok manager, Closed 4004 "Session not found")
          | Some _ =>
              let manager := ConnectionManager.connect manager session_id websocket in
              let rounds := session_websocket session_id states in
              (ConnectionManager.disconnect manager session_id websocket, Streamed rounds)
          end
      end
  end.

End Endpoint.

(** * Example data

    The concrete databases, sessions and containers the examples below are
    evaluated on. *)

(** A database holding one subscription and no session. *)
Definition db_with_subscription (uid : string) (sub : Subscription) : DB := {|
  db_sessions := ∅;
  db_events := [];
  db_billing := [];
  db_subscriptions := {[ uid := sub ]};
  db_repositories := ∅
|}.

Definition free_with (used : Q) : Subscription :=
  {| tier := FREE; is_active := true; minutes_used_this_period := used |}.

(** A table whose limits are all zero. *)
Definition zero_limits (t : SubscriptionTier) : TierLimits :=
  {| minutes_per_month := 0; max_concurrent_sessions := 0; price_cents := 0 |}.

Definition running_session (sid uid : string) : DevSession := {|
  id := sid; user_id := uid; repository_id := "r"; status := RUNNING;
  branch := "main"; task_description := "task"; execution_mode := "claude";
  container_id := Some "c"; container_image := None;
  started_at := Some 0%Q; ended_at := None; duration_seconds := None;
  cost_cents := 0; tokens_used := PInt 0;
  commit_sha := None; commit_message := None; files_changed := None;
  error_message := None |}.

(** A user far over any quota with two sessions running. *)
Definition busy_db : DB := {|
  db_sessions := {[ "s1" := running_session "s1" "u"; "s2" := running_session "s2" "u" ]};
  db_events := [];
  db_billing := [];
  db_subscriptions := {[ "u" := free_with 100000 ]};
  db_repositories := ∅
|}.

(** The two readings of the design's [ceil_or_round]: the product in
    cents rounded up ([math.ceil]), and rounded to the nearest cent, ties to
    even ([round]). *)
Definition spec_cost_ceil (rate minutes : Q) : Z :=
  Qceiling (cost_product rate minutes).

Definition spec_cost_round (rate minutes : Q) : Z :=
  round_half_even (cost_product rate minutes).

(** A session of user ["u"] that ran for [d] seconds and completed. *)
Definition finished_session (d : Q) : DevSession := {|
  id := "s"; user_id := "u"; repository_id := "r"; status := COMPLETED;
  branch := "main"; task_description := "add a README"; execution_mode := "claude";
  container_id := Some "c"; container_image := Some "adelbot-dev-universal:latest";
  started_at := Some 0%Q; ended_at := Some d; duration_seconds := Some d;
  cost_cents := 0; tokens_used := PInt 0;
  commit_sha := None; commit_message := None; files_changed := None;
  error_message := None |}.

(** The period counter of a user's subscription. *)
Definition minutes_used_by (db : DB) (uid : string) : Q :=
  match db_subscriptions db !! uid with
  | Some sub => minutes_used_this_period sub
  | None => 0
  end.

(** A session that was created and never started. *)
Definition pending_session : DevSession := {|
  id := "s"; user_id := "u"; repository_id := "r"; status := PENDING;
  branch := "main"; task_description := "add a README"; execution_mode := "claude";
  container_id := None; container_image := None;
  started_at := None; ended_at := None; duration_seconds := None;
  cost_cents := 0; tokens_used := PInt 0;
  commit_sha := None; commit_message := None; files_changed := None;
  error_message := None |}.

Definition a_repository : Repository :=
  {| repo_user_id := "u"; clone_url := "https://github.com/u/r.git";
     default_branch := "main"; language := None |}.

(** The database right after [create_session] stored [pending_session]. *)
Definition fresh_db : DB := {|
  db_sessions := {[ "s" := pending_session ]};
  db_events := [{| ev_session_id := "s"; event_type := STATUS_CHANGE;
                   content := PStr "Session created"; sequence := 0 |}];
  db_billing := [];
  db_subscriptions := {[ "u" := free_with 0 ]};
  db_repositories := {[ "r" := a_repository ]}
|}.

(** An interpreter to run examples on: an arbitrary choice of the three
    builtins, and limits near the defaults of CPython. *)
Definition some_builtins : PyBuiltins := {|
  py_repr := fun _ => "<repr>";
  json_dumps := fun _ => "<json>";
  format_4f := fun _ => Ok "0.0000";
  json_depth := 900;
  max_str_digits := 4300
|}.

(** The line [{"type":"assistant","content":"hello"}]. *)
Definition hello_line : string :=
  "{" ++ quoted "type" ++ ":" ++ quoted "assistant" ++ ","
      ++ quoted "content" ++ ":" ++ quoted "hello" ++ "}".

(** U+00A0 and U+3000, white space outside ASCII, as UTF-8. *)
Definition no_break_space : string :=
  String (ascii_of_nat 194) (String (ascii_of_nat 160) "").

Definition ideographic_space : string :=
  String (ascii_of_nat 227) (String (ascii_of_nat 128) (String (ascii_of_nat 128) "")).

(** [n] opening brackets, and [n] times the digit 1. *)
Fixpoint brackets (n : nat) : string :=
  match n with O => "" | S n => String "[" (brackets n) end.

Fixpoint ones (n : nat) : string :=
  match n with O => "" | S n => String "1" (ones n) end.

(** A container whose agent says hello and exits with 0, and whose work tree
    is clean afterwards: [git commit] exits with 1 and reports that there is
    nothing to commit, the push succeeds, and [HEAD] is commit [3f2a9c1]. *)
Definition clean_tree_container : Container := {|
  exec_command := fun cmd =>
    if Py.startswith "git commit" cmd then
      Ok {| exit_code := 1;
            output := "On branch main" ++ nl ++ "nothing to commit, working tree clean" ++ nl |}
    else if String.eqb cmd "git rev-parse HEAD" then
      Ok {| exit_code := 0; output := "3f2a9c1" ++ nl |}
    else if String.eqb cmd "git push origin main" then
      Ok {| exit_code := 0; output := "Everything up-to-date" ++ nl |}
    else Ok {| exit_code := 0; output := "" |};
  exec_stream := fun _ =>
    {| chunks := [hello_line ++ nl]; ending := Inspected (ExitCode 0) |}
|}.


(** The container a successful provisioning reports. *)
Definition a_container_info : ContainerInfo :=
  {| info_container_id := "c0ffee"; info_container_name := "adelbot-dev-s";
     info_image := "adelbot-dev-universal:latest" |}.

(** A line the loop of [_stream_command] gets past: handling it neither
    returns nor raises. *)
Definition passes `{rt : PyBuiltins} (on_event : bool) (line : string) : bool :=
  match handle_line on_event line initial_state with
  | Next _ _ => true
  | _ => false
  end.

(** The exit statuses of a POSIX process. *)
Definition exit_statuses : list Z := map Z.of_nat (seq 0 256).

Definition int_reads_back `{rt : PyBuiltins} (n : Z) : bool :=
  match py_int (Py.str_of_int n) with
  | Ok m => Z.eqb m n
  | Raise _ => false
  end.

(** A container in which every command succeeds silently. *)
Definition quiet_container : Container := {|
  exec_command := fun _ => Ok {| exit_code := 0; output := "" |};
  exec_stream := fun _ => {| chunks := []; ending := Inspected (ExitCode 0) |}
|}.

(** A registered user with a repository and no session yet. *)
Definition registered_db (used : Q) : DB := {|
  db_sessions := ∅;
  db_events := [];
  db_billing := [];
  db_subscriptions := {[ "u" := free_with used ]};
  db_repositories := {[ "r" := a_repository ]}
|}.

(** The cost computation of [finalize_session] on the floats of the
    machine: [int(duration_seconds / 60 * rate * 100)]. [None] where [int]
    raises (infinities and NaN). *)
Definition int_of_binary64 (x : float) : option Z :=
  match Prim2SF x with
  | S754_zero _ => Some 0
  | S754_finite negative m e =>
      let magnitude :=
        if (0 <=? e)%Z then Z.pos m * 2 ^ e else Z.pos m / 2 ^ (- e) in
      Some (if negative then - magnitude else magnitude)
  | S754_infinity _ | S754_nan => None
  end.

Definition cost_cents_binary64 (duration rate : float) : option Z :=
  int_of_binary64 (duration / 60 * rate * 100)%float.

(** The rational a float of the machine denotes. *)
Definition Q_of_binary64 (x : float) : option Q :=
  match Prim2SF x with
  | S754_zero _ => Some 0%Q
  | S754_finite negative m e =>
      let v := (inject_Z (Z.pos m) * 2 ^ e)%Q in
      Some (Qred (if negative then - v else v))
  | S754_infinity _ | S754_nan => None
  end.
(** Rows of the log of session ["s"], and a database that holds the
    session in a given status with a given log. *)
Definition a_row (evt : EventType) (text : string) (seq : Z) : SessionEvent :=
  {| ev_session_id := "s"; event_type := evt; content := PStr text; sequence := seq |}.

Definition first_events : list SessionEvent :=
  [a_row STATUS_CHANGE "Session created" 0;
   a_row STATUS_CHANGE "Provisioning container with Claude Code..." 1].

Definition later_events : list SessionEvent :=
  [a_row STATUS_CHANGE "Claude Code agent started" 5;
   a_row AGENT_MESSAGE "Launching Claude Code agent..." 10].

Definition all_events : list SessionEvent := (first_events ++ later_events)%list.

Definition feed_db (st : SessionStatus) (log : list SessionEvent) : DB := {|
  db_sessions := {[ "s" := set_status st pending_session ]};
  db_events := log;
  db_billing := [];
  db_subscriptions := ∅;
  db_repositories := ∅
|}.

(** * Vocabulary of the statements

    What the properties below are stated with. *)

(** The attributes an operation does not assign. *)
Definition same_identity (s s' : DevSession) : Prop :=
  id s' = id s /\ user_id s' = user_id s /\ task_description s' = task_description s.

Definition same_clock (s s' : DevSession) : Prop :=
  started_at s' = started_at s /\ ended_at s' = ended_at s
  /\ duration_seconds s' = duration_seconds s.

(** The rows that [track_events] appends. *)
Fixpoint tracked (sid : string) (counter : Z) (evs : list AgentEvent) : list SessionEvent :=
  match evs with
  | [] => []
  | (kind, text) :: rest =>
      {| ev_session_id := sid; event_type := event_type_map kind; content := text;
         sequence := counter |} :: tracked sid (counter + 1) rest
  end.

Definition for_session (sid : string) (l : list SessionEvent) : Prop :=
  Forall (fun e => ev_session_id e = sid) l.

Definition increasing (l : list SessionEvent) : Prop :=
  StronglySorted Z.lt (map sequence l).

(** What a stage appends to the log: rows of the one session, with
    sequence numbers that increase and lie in [allowed]. *)
Definition appends (allowed : Z -> Prop) (sid : string) (db db' : DB) : Prop :=
  exists news,
    db_events db' = (db_events db ++ news)%list
    /\ for_session sid news
    /\ increasing news
    /\ Forall allowed (map sequence news).

(** The sequence numbers a pipeline execution uses: 1 and 2 while
    provisioning, 5 when the agent starts, 10 and up afterwards. *)
Definition pipeline_numbers (n : Z) : Prop := (1 <= n <= 2) \/ (n = 5 \/ 10 <= n).

(** The events of the lines before, put in front of what the rest of the
    loop does. *)
Definition then_step (evs : list AgentEvent) (next : Step) : Step :=
  match next with
  | Next st evs' => Next st (evs ++ evs')
  | Return res evs' => Return res (evs ++ evs')
  | Raised m st evs' => Raised m st (evs ++ evs')
  end.

(** The dictionaries returned from inside the loop. *)
Definition failed_run (res : RunResult) : Prop :=
  success res = false /\ res_exit_code res = -1.

(** What a scanner leaves is no longer than what it was given. *)
Definition consumes (scan : string -> Json.Scan) : Prop :=
  forall s v rest,
    scan s = Json.Scanned v rest -> (String.length rest <= String.length s)%nat.
(** The calls of [on_event] one iteration of the loop makes, however it
    ends. *)
Definition step_events (s : Step) : list AgentEvent :=
  match s with
  | Next _ evs | Return _ evs | Raised _ _ evs => evs
  end.

(** A [command_output] event carries a [str] of at most 800 characters. *)
Definition output_is_cut (ev : AgentEvent) : Prop :=
  fst ev = "command_output" ->
  exists text, snd ev = PStr text /\ (String.length text <= 800)%nat.

(** For each line of a text, whether it holds a bar. *)
Definition bar_flags (s : string) : list bool :=
  map (Py.contains "|") (Py.split Py.newline s).

Definition count_true (l : list bool) : nat := length (List.filter (fun b => b) l).

(** The log of a session grows by appending, from [log] through the
    states of the database one after the other. *)
Fixpoint grows (sid : string) (log : list SessionEvent) (states : list DB) : Prop :=
  match states with
  | [] => True
  | db :: later =>
      (exists news, events_of db sid = (log ++ news)%list)
      /\ grows sid (events_of db sid) later
  end.

(** The registry holds a socket at most once, and no session without a
    socket. *)
Definition tidy (manager : gmap string (list Z)) (session_id : string) (websocket : Z) : Prop :=
  forall l, manager !! session_id = Some l -> l <> [] /\ ~ In websocket l.

(** * Properties

    The sections follow the components: the JSON decoder (its fuel is
    enough), admission control (C5, C10), finalization and billing (C9, C1),
    statuses and timestamps (C2, C6), the commit and push step (C3), the
    event log and the live feed (C4), streaming exec and the runner (C7),
    and the decoder on single lines (C8). A claim that fails on the code
    comes with the input it fails on and with the statement that holds
    instead. *)

(** ** The decoder consumes its input and has fuel enough *)

Lemma skip_ws_length (s : string) :
  (String.length (Json.skip_ws s) <= String.length s)%nat.
Proof.
  induction s as [|c s IH]; simpl; [lia|].
  destruct (Json.is_ws c); simpl; lia.
Qed.

Lemma substring_length (n m : nat) (s : string) :
  (String.length (String.substring n m s) <= String.length s)%nat.
Proof.
  revert n m. induction s as [|c s IH]; intros n m.
  - destruct n, m; simpl; lia.
  - destruct n as [|n]; destruct m as [|m]; simpl; try lia.
    + specialize (IH 0%nat m). lia.
    + specialize (IH n 0%nat). lia.
    + specialize (IH n (S m)). lia.
Qed.

Lemma strip_prefix_length (p s r : string) :
  Json.strip_prefix p s = Some r -> (String.length r <= String.length s)%nat.
Proof.
  unfold Json.strip_prefix. destruct (String.prefix p s); [|discriminate].
  intros [= <-]. apply substring_length.
Qed.

Lemma digits_length (acc : Z) (count : nat) (s : string) :
  (String.length (snd (Json.digits acc count s)) <= String.length s)%nat.
Proof.
  revert acc count. induction s as [|c s IH]; intros acc count; simpl; [lia|].
  destruct (Json.digit_val c); simpl; [|lia].
  specialize (IH (10 * acc + z) (S count)). lia.
Qed.

Lemma prepend_some (p : string) (r : option (string * string)) (body rest : string) :
  Json.prepend p r = Some (body, rest) -> exists b, r = Some (b, rest).
Proof.
  unfold Json.prepend. destruct r as [[b r']|]; [|discriminate].
  intros [= _ <-]. eauto.
Qed.

Lemma scanstring_length_bounded (n : nat) (s body rest : string) :
  (String.length s <= n)%nat ->
  Json.scanstring s = Some (body, rest) ->
  (String.length rest < String.length s)%nat.
Proof.
  revert s body rest. induction n as [|n IH]; intros s body rest Hn.
  - destruct s; [discriminate|simpl in Hn; lia].
  - destruct s as [|c s]; [discriminate|]. simpl in Hn. simpl Json.scanstring.
    intros H.
    repeat match type of H with
    | Some _ = Some _ => injection H as <- <-; simpl; lia
    | None = Some _ => discriminate H
    | Json.prepend _ (Json.scanstring ?r) = Some _ =>
        apply prepend_some in H; destruct H as (b & H);
        apply IH in H; simpl in *; lia
    | context [if ?b then _ else _] => destruct b
    | context [match ?x with _ => _ end] => destruct x; simpl in Hn
    end.
Qed.

Lemma scanstring_length (s body rest : string) :
  Json.scanstring s = Some (body, rest) ->
  (String.length rest < String.length s)%nat.
Proof. apply (scanstring_length_bounded (String.length s)). lia. Qed.

Lemma strip_char_length (c : ascii) (s rest : string) :
  Json.strip_char c s = Some rest -> String.length s = S (String.length rest).
Proof.
  destruct s as [|c' s]; simpl; [discriminate|].
  destruct (Ascii.eqb c' c); [|discriminate]. intros [= <-]. reflexivity.
Qed.

Lemma number_sign_length (s : string) :
  (String.length (snd (Json.number_sign s)) <= String.length s)%nat.
Proof.
  unfold Json.number_sign. destruct (Json.strip_char "-" s) as [r|] eqn:E; simpl; [|lia].
  apply strip_char_length in E. lia.
Qed.

Lemma number_int_length (s : string) (v : Z) (n : nat) (rest : string) :
  Json.number_int s = Some (v, n, rest) -> (String.length rest < String.length s)%nat.
Proof.
  unfold Json.number_int. destruct s as [|c s]; [discriminate|].
  destruct (Json.digit_val c) as [d|]; [|discriminate].
  destruct (d =? 0).
  - intros [= _ _ <-]. simpl. lia.
  - pose proof (digits_length d 1 s) as Hd.
    destruct (Json.digits d 1 s) as [[v' n'] r]. simpl in Hd.
    intros [= _ _ <-]. simpl. lia.
Qed.

Lemma number_frac_length (int_v : Z) (s : string) :
  (String.length (snd (Json.number_frac int_v s)) <= String.length s)%nat.
Proof.
  unfold Json.number_frac. destruct (Json.strip_char "." s) as [r|] eqn:E; simpl; [|lia].
  apply strip_char_length in E.
  pose proof (digits_length int_v 0 r) as Hd.
  destruct (Json.digits int_v 0 r) as [[v n] r']. simpl in Hd.
  destruct (n =? 0)%nat; simpl; lia.
Qed.

Lemma number_exp_length (s : string) :
  (String.length (snd (Json.number_exp s)) <= String.length s)%nat.
Proof.
  unfold Json.number_exp. destruct s as [|e rest]; simpl; [lia|].
  destruct (Ascii.eqb e "e" || Ascii.eqb e "E"); simpl; [|lia].
  assert (Hsign : forall neg r,
            match Json.strip_char "-" rest, Json.strip_char "+" rest with
            | Some r, _ => (true, r)
            | None, Some r => (false, r)
            | None, None => (false, rest)
            end = (neg, r) -> (String.length r <= String.length rest)%nat).
  { intros neg r. destruct (Json.strip_char "-" rest) as [r1|] eqn:E1.
    - intros [= _ <-]. apply strip_char_length in E1. lia.
    - destruct (Json.strip_char "+" rest) as [r2|] eqn:E2.
      + intros [= _ <-]. apply strip_char_length in E2. lia.
      + intros [= _ <-]. lia. }
  destruct (match Json.strip_char "-" rest, Json.strip_char "+" rest with
            | Some r, _ => (true, r)
            | None, Some r => (false, r)
            | None, None => (false, rest)
            end) as [neg r1] eqn:E.
  specialize (Hsign neg r1 eq_refl).
  pose proof (digits_length 0 0 r1) as Hd.
  destruct (Json.digits 0 0 r1) as [[v n] r2]. simpl in Hd.
  destruct (n =? 0)%nat; simpl; lia.
Qed.

Lemma match_number_length (max_digits : nat) (s : string) (v : pyval) (rest : string) :
  Json.match_number max_digits s = Json.Scanned v rest ->
  (String.length rest < String.length s)%nat.
Proof.
  unfold Json.match_number.
  pose proof (number_sign_length s) as H1.
  destruct (Json.number_sign s) as [negative s1]. simpl in H1.
  destruct (Json.number_int s1) as [[[int_v n] s2]|] eqn:E2; [|discriminate].
  apply number_int_length in E2.
  pose proof (number_frac_length int_v s2) as H3.
  destruct (Json.number_frac int_v s2) as [[mant nfrac] s3]. simpl in H3.
  pose proof (number_exp_length s3) as H4.
  destruct (Json.number_exp s3) as [expo s4]. simpl in H4.
  destruct nfrac, expo; try (intros [= _ <-]; lia).
  destruct (Json.too_many_digits max_digits n); [discriminate|].
  intros [= _ <-]. lia.
Qed.

Lemma match_constant_length (s : string) (v : pyval) (rest : string) :
  Json.match_constant s = Some (v, rest) ->
  (String.length rest <= String.length s)%nat.
Proof.
  unfold Json.match_constant.
  destruct (Json.strip_prefix "null" s) eqn:E1; [intros [= _ <-]; eapply strip_prefix_length; eauto|].
  destruct (Json.strip_prefix "true" s) eqn:E2; [intros [= _ <-]; eapply strip_prefix_length; eauto|].
  destruct (Json.strip_prefix "false" s) eqn:E3; [intros [= _ <-]; eapply strip_prefix_length; eauto|].
  discriminate.
Qed.

Lemma match_special_float_length (s : string) (v : pyval) (rest : string) :
  Json.match_special_float s = Some (v, rest) ->
  (String.length rest <= String.length s)%nat.
Proof.
  unfold Json.match_special_float.
  destruct (Json.strip_prefix "NaN" s) eqn:E1; [intros [= _ <-]; eapply strip_prefix_length; eauto|].
  destruct (Json.strip_prefix "Infinity" s) eqn:E2; [intros [= _ <-]; eapply strip_prefix_length; eauto|].
  destruct (Json.strip_prefix "-Infinity" s) eqn:E3; [intros [= _ <-]; eapply strip_prefix_length; eauto|].
  discriminate.
Qed.

Lemma scan_plain_length (max_digits : nat) : consumes (Json.scan_plain max_digits).
Proof.
  intros s v rest. unfold Json.scan_plain.
  destruct (Json.match_constant s) as [[v' r]|] eqn:Ec.
  { intros [= <- <-]. exact (match_constant_length _ _ _ Ec). }
  destruct (Json.match_number max_digits s) as [v' r| |msg] eqn:En.
  - intros [= <- <-]. apply match_number_length in En. lia.
  - destruct (Json.match_special_float s) as [[v' r]|] eqn:Ef; [|discriminate].
    intros [= <- <-]. exact (match_special_float_length _ _ _ Ef).
  - discriminate.
Qed.

Lemma scanners_consume (max_digits : nat) (fuel : nat) :
  (forall depth, consumes (Json.scan_once max_digits fuel depth))
  /\ (forall depth acc, consumes (Json.object_items max_digits fuel depth acc))
  /\ (forall depth acc, consumes (Json.array_items max_digits fuel depth acc)).
Proof.
  induction fuel as [|fuel (IHs & IHo & IHa)].
  { repeat split; intros; intros s v rest; discriminate. }
  split; [|split].
  - intros depth s v rest. simpl.
    destruct (Json.strip_char Json.dquote s) as [r0|] eqn:E0.
    { apply strip_char_length in E0.
      destruct (Json.scanstring r0) as [[str r]|] eqn:Es; [|discriminate].
      apply scanstring_length in Es. intros [= _ <-]. lia. }
    destruct (Json.strip_char "{" s) as [r0|] eqn:E1.
    { apply strip_char_length in E1. pose proof (skip_ws_length r0) as Hw.
      destruct depth as [|depth]; [discriminate|].
      destruct (Json.strip_char "}" (Json.skip_ws r0)) as [r|] eqn:E.
      - apply strip_char_length in E. intros [= _ <-]. lia.
      - intros H. apply IHo in H. lia. }
    destruct (Json.strip_char "[" s) as [r0|] eqn:E2.
    { apply strip_char_length in E2. pose proof (skip_ws_length r0) as Hw.
      destruct depth as [|depth]; [discriminate|].
      destruct (Json.strip_char "]" (Json.skip_ws r0)) as [r|] eqn:E.
      - apply strip_char_length in E. intros [= _ <-]. lia.
      - intros H. apply IHa in H. lia. }
    apply scan_plain_length.
  - intros depth acc s v rest. simpl.
    destruct (Json.strip_char Json.dquote s) as [r0|] eqn:E0; [|discriminate].
    apply strip_char_length in E0.
    destruct (Json.scanstring r0) as [[key r1]|] eqn:Es; [|discriminate].
    apply scanstring_length in Es. pose proof (skip_ws_length r1) as Hw1.
    destruct (Json.strip_char ":" (Json.skip_ws r1)) as [r2|] eqn:E2; [|discriminate].
    apply strip_char_length in E2. pose proof (skip_ws_length r2) as Hw2.
    destruct (Json.scan_once max_digits fuel depth (Json.skip_ws r2)) as [v1 r3| |msg] eqn:Ev;
      [|discriminate|discriminate].
    apply IHs in Ev. pose proof (skip_ws_length r3) as Hw3.
    destruct (Json.strip_char "}" (Json.skip_ws r3)) as [r4|] eqn:E4.
    { apply strip_char_length in E4. intros [= _ <-]. lia. }
    destruct (Json.strip_char "," (Json.skip_ws r3)) as [r4|] eqn:E5; [|discriminate].
    apply strip_char_length in E5. pose proof (skip_ws_length r4) as Hw4.
    intros H. apply IHo in H. lia.
  - intros depth acc s v rest. simpl.
    destruct (Json.scan_once max_digits fuel depth s) as [v1 r1| |msg] eqn:Ev;
      [|discriminate|discriminate].
    apply IHs in Ev. pose proof (skip_ws_length r1) as Hw1.
    destruct (Json.strip_char "]" (Json.skip_ws r1)) as [r2|] eqn:E2.
    { apply strip_char_length in E2. intros [= _ <-]. lia. }
    destruct (Json.strip_char "," (Json.skip_ws r1)) as [r2|] eqn:E3; [|discriminate].
    apply strip_char_length in E3. pose proof (skip_ws_length r2) as Hw2.
    intros H. apply IHa in H. lia.
Qed.

(** Fuel above twice the length of the input is never used up: more of it
    changes nothing. *)
Lemma scanners_have_fuel (max_digits : nat) (fuel : nat) :
  (forall depth s extra, (2 * String.length s < fuel)%nat ->
     Json.scan_once max_digits (fuel + extra) depth s = Json.scan_once max_digits fuel depth s)
  /\ (forall depth acc s extra, (2 * String.length s + 1 < fuel)%nat ->
     Json.object_items max_digits (fuel + extra) depth acc s
     = Json.object_items max_digits fuel depth acc s)
  /\ (forall depth acc s extra, (2 * String.length s + 1 < fuel)%nat ->
     Json.array_items max_digits (fuel + extra) depth acc s
     = Json.array_items max_digits fuel depth acc s).
Proof.
  induction fuel as [|fuel (IHs & IHo & IHa)].
  { repeat split; intros; lia. }
  destruct (scanners_consume max_digits fuel) as (Hs & _ & _).
  split; [|split].
  - intros depth s extra Hlen. simpl.
    destruct (Json.strip_char Json.dquote s) as [r0|] eqn:E0; [reflexivity|].
    destruct (Json.strip_char "{" s) as [r0|] eqn:E1.
    { apply strip_char_length in E1. pose proof (skip_ws_length r0) as Hw.
      destruct depth as [|depth]; [reflexivity|].
      destruct (Json.strip_char "}" (Json.skip_ws r0)); [reflexivity|].
      apply IHo. lia. }
    destruct (Json.strip_char "[" s) as [r0|] eqn:E2; [|reflexivity].
    apply strip_char_length in E2. pose proof (skip_ws_length r0) as Hw.
    destruct depth as [|depth]; [reflexivity|].
    destruct (Json.strip_char "]" (Json.skip_ws r0)); [reflexivity|].
    apply IHa. lia.
  - intros depth acc s extra Hlen. simpl.
    destruct (Json.strip_char Json.dquote s) as [r0|] eqn:E0; [|reflexivity].
    apply strip_char_length in E0.
    destruct (Json.scanstring r0) as [[key r1]|] eqn:Es; [|reflexivity].
    apply scanstring_length in Es. pose proof (skip_ws_length r1) as Hw1.
    destruct (Json.strip_char ":" (Json.skip_ws r1)) as [r2|] eqn:E2; [|reflexivity].
    apply strip_char_length in E2. pose proof (skip_ws_length r2) as Hw2.
    rewrite IHs by lia.
    destruct (Json.scan_once max_digits fuel depth (Json.skip_ws r2)) as [v1 r3| |msg] eqn:Ev;
      [|reflexivity|reflexivity].
    apply Hs in Ev. pose proof (skip_ws_length r3) as Hw3.
    destruct (Json.strip_char "}" (Json.skip_ws r3)) as [r4|] eqn:E4; [reflexivity|].
    destruct (Json.strip_char "," (Json.skip_ws r3)) as [r4|] eqn:E5; [|reflexivity].
    apply strip_char_length in E5. pose proof (skip_ws_length r4) as Hw4.
    apply IHo. lia.
  - intros depth acc s extra Hlen. simpl.
    rewrite IHs by lia.
    destruct (Json.scan_once max_digits fuel depth s) as [v1 r1| |msg] eqn:Ev;
      [|reflexivity|reflexivity].
    apply Hs in Ev. pose proof (skip_ws_length r1) as Hw1.
    destruct (Json.strip_char "]" (Json.skip_ws r1)) as [r2|] eqn:E2; [reflexivity|].
    destruct (Json.strip_char "," (Json.skip_ws r1)) as [r2|] eqn:E3; [|reflexivity].
    apply strip_char_length in E3. pose proof (skip_ws_length r2) as Hw2.
    apply IHa. lia.
Qed.

(** [Json.loads] never fails for want of fuel: whatever more it is given,
    the result is the same. *)
Lemma loads_has_fuel (max_digits depth : nat) (s : string) (extra : nat) :
  Json.scan_once max_digits (2 * String.length s + 2 + extra) depth (Json.skip_ws s)
  = Json.scan_once max_digits (2 * String.length s + 2) depth (Json.skip_ws s).
Proof.
  destruct (scanners_have_fuel max_digits (2 * String.length s + 2)) as (H & _).
  apply H. pose proof (skip_ws_length s). lia.
Qed.

(** ** Binary64 rounding *)

Lemma round_half_even_bounds (q : Q) :
  Qfloor q <= round_half_even q <= Qfloor q + 1.
Proof.
  unfold round_half_even. cbv zeta.
  destruct (q - inject_Z (Qfloor q) ?= 1 # 2)%Q; [destruct (Z.even _)| |]; lia.
Qed.

Lemma round_half_even_integer (n : Z) : round_half_even (inject_Z n) = n.
Proof.
  unfold round_half_even. cbv zeta. rewrite Qfloor_Z.
  assert (H : (inject_Z n - inject_Z n ?= 1 # 2)%Q = Lt).
  { apply (proj1 (Qlt_alt _ _)). generalize (inject_Z n). intros x. lra. }
  rewrite H. reflexivity.
Qed.

Lemma round_half_even_le (q q' : Q) :
  (q <= q')%Q -> round_half_even q <= round_half_even q'.
Proof.
  intros Hle.
  pose proof (Qfloor_resp_le q q' Hle) as Hf.
  pose proof (round_half_even_bounds q) as Hb.
  pose proof (round_half_even_bounds q') as Hb'.
  destruct (Z.eq_dec (Qfloor q) (Qfloor q')) as [E|NE]; [|lia].
  clear Hb Hb' Hf. unfold round_half_even. cbv zeta. rewrite <- E.
  destruct (q - inject_Z (Qfloor q) ?= 1 # 2)%Q eqn:C;
    destruct (q' - inject_Z (Qfloor q) ?= 1 # 2)%Q eqn:C';
    try (destruct (Z.even (Qfloor q))); try lia.
  all: repeat match goal with
       | H : (_ ?= _)%Q = Lt |- _ => apply (proj2 (Qlt_alt _ _)) in H
       | H : (_ ?= _)%Q = Gt |- _ => apply (proj2 (Qgt_alt _ _)) in H
       | H : (_ ?= _)%Q = Eq |- _ => apply (proj2 (Qeq_alt _ _)) in H
       end; exfalso; lra.
Qed.

Lemma pow2_pos (e : Z) : (0 < 2 ^ e)%Q.
Proof. apply Qpower_0_lt. reflexivity. Qed.

Lemma pow2_plus (a b : Z) : (2 ^ (a + b) == 2 ^ a * 2 ^ b)%Q.
Proof. apply Qpower_plus. discriminate. Qed.

Lemma pow2_le (a b : Z) : a <= b -> (2 ^ a <= 2 ^ b)%Q.
Proof. intros H. apply Qpower_le_compat_l; [exact H|discriminate]. Qed.

Lemma pow2_inject (n : Z) : 0 <= n -> (inject_Z (2 ^ n) == 2 ^ n)%Q.
Proof. intros H. apply (Zpower_Qpower 2 n H). Qed.

(** [ilog2 x] is the exponent of the power of two at or below [x]. *)
Lemma ilog2_spec (x : Q) :
  (0 < x)%Q -> (2 ^ Float.ilog2 x <= x)%Q /\ (x < 2 ^ (Float.ilog2 x + 1))%Q.
Proof.
  intros Hx. unfold Float.ilog2.
  destruct (Qle_bool 1 x) eqn:H1.
  - apply Qle_bool_iff in H1.
    assert (Hn : 1 <= Qfloor x).
    { change 1 with (Qfloor 1). apply Qfloor_resp_le. exact H1. }
    destruct (Z.log2_spec (Qfloor x)) as [Hlo Hhi]; [lia|].
    pose proof (Z.log2_nonneg (Qfloor x)) as Hk.
    split.
    + rewrite <- pow2_inject by exact Hk.
      apply Qle_trans with (inject_Z (Qfloor x)); [|apply Qfloor_le].
      rewrite <- Zle_Qle. exact Hlo.
    + rewrite <- pow2_inject by lia.
      apply Qlt_le_trans with (inject_Z (Qfloor x + 1)); [apply Qlt_floor|].
      rewrite <- Zle_Qle. rewrite Z.add_1_r. lia.
  - assert (Hlt : (x < 1)%Q).
    { apply Qnot_le_lt. intros H. apply Qle_bool_iff in H. congruence. }
    clear H1.
    assert (Hy : (1 < / x)%Q).
    { apply Qlt_shift_inv_l; [exact Hx|]. lra. }
    set (m := Qceiling (/ x)).
    assert (Hm : (/ x <= inject_Z m)%Q) by apply Qle_ceiling.
    assert (Hm' : (inject_Z (m - 1) < / x)%Q).
    { pose proof (Qceiling_lt (/ x)) as H. fold m in H. exact H. }
    assert (Hm1 : 1 < m).
    { rewrite Zlt_Qlt. eapply Qlt_le_trans; [exact Hy|exact Hm]. }
    destruct (Z.log2_up_spec m Hm1) as [Hlo Hhi].
    pose proof (Z.log2_up_pos m Hm1) as Hj.
    set (j := Z.log2_up m) in *.
    assert (Hx1 : (x * / x == 1)%Q) by (apply Qmult_inv_r; lra).
    split.
    + rewrite Qpower_opp.
      assert (Hle : (/ x <= 2 ^ j)%Q).
      { eapply Qle_trans; [exact Hm|]. rewrite <- pow2_inject by lia.
        rewrite <- Zle_Qle. exact Hhi. }
      apply Qle_shift_inv_r; [apply pow2_pos|].
      generalize dependent (2 ^ j)%Q. generalize dependent (/ x)%Q. intros. nra.
    + replace (- j + 1) with (- (j - 1)) by lia. rewrite Qpower_opp.
      assert (Hgt : (2 ^ (j - 1) < / x)%Q).
      { eapply Qle_lt_trans; [|exact Hm']. rewrite <- pow2_inject by lia.
        rewrite <- Zle_Qle. replace (j - 1) with (Z.pred j) by lia. lia. }
      apply Qlt_shift_inv_l; [apply pow2_pos|].
      generalize dependent (2 ^ (j - 1))%Q. generalize dependent (/ x)%Q. intros. nra.
Qed.

Lemma ilog2_le (x y : Q) :
  (0 < x)%Q -> (x <= y)%Q -> Float.ilog2 x <= Float.ilog2 y.
Proof.
  intros Hx Hle.
  destruct (ilog2_spec x Hx) as [Hlo _].
  destruct (ilog2_spec y) as [_ Hhi]; [lra|].
  destruct (Z_le_gt_dec (Float.ilog2 x) (Float.ilog2 y)) as [H|H]; [exact H|].
  exfalso.
  assert (Hp : (2 ^ (Float.ilog2 y + 1) <= 2 ^ Float.ilog2 x)%Q) by (apply pow2_le; lia).
  lra.
Qed.

Lemma Qabs_nonneg_eq (x : Q) : (0 <= x)%Q -> Qabs x = x.
Proof.
  destruct x as [n d]. unfold Qle, Qabs. simpl. intros H.
  rewrite Z.abs_eq by lia. reflexivity.
Qed.

Lemma round_positive (x : Q) :
  (0 < x)%Q ->
  (Float.round x == inject_Z (round_half_even (x / 2 ^ Float.exponent x)) * 2 ^ Float.exponent x)%Q
  /\ Float.exponent x = Z.max (Float.ilog2 x - 52) (-1074).
Proof.
  intros Hx. unfold Float.round, Float.exponent.
  rewrite (Qabs_nonneg_eq x) by lra.
  destruct (Qeq_bool x 0) eqn:E.
  - apply Qeq_bool_iff in E. lra.
  - cbv zeta. split; [apply Qred_correct|reflexivity].
Qed.

Lemma round_zero (x : Q) : (x == 0)%Q -> Float.round x = 0%Q.
Proof.
  intros H. unfold Float.round.
  destruct (Qeq_bool x 0) eqn:E; [reflexivity|].
  apply Qeq_bool_iff in H. congruence.
Qed.

Lemma div_pow2_le (x : Q) (k e : Z) :
  (x <= 2 ^ k)%Q -> (x / 2 ^ e <= 2 ^ (k - e))%Q.
Proof.
  intros H. apply Qle_shift_div_r; [apply pow2_pos|].
  rewrite <- pow2_plus. replace (k - e + e) with k by lia. exact H.
Qed.

Lemma div_pow2_ge (x : Q) (k e : Z) :
  (2 ^ k <= x)%Q -> (2 ^ (k - e) <= x / 2 ^ e)%Q.
Proof.
  intros H. apply Qle_shift_div_l; [apply pow2_pos|].
  rewrite <- pow2_plus. replace (k - e + e) with k by lia. exact H.
Qed.

(** A positive number at or below a power of two that is a multiple of its
    unit rounds to at most that power, and one at or above it rounds to at
    least that power. *)
Lemma round_below_pow2 (x : Q) (k : Z) :
  (0 < x)%Q -> (x <= 2 ^ k)%Q -> Float.exponent x <= k -> (Float.round x <= 2 ^ k)%Q.
Proof.
  intros Hx Hle He. destruct (round_positive x Hx) as [-> _].
  set (e := Float.exponent x) in *.
  assert (Hr : round_half_even (x / 2 ^ e) <= 2 ^ (k - e)).
  { rewrite <- (round_half_even_integer (2 ^ (k - e))).
    apply round_half_even_le. rewrite pow2_inject by lia. apply div_pow2_le. exact Hle. }
  rewrite Zle_Qle in Hr. rewrite pow2_inject in Hr by lia.
  assert (Hp : (2 ^ k == 2 ^ (k - e) * 2 ^ e)%Q).
  { rewrite <- pow2_plus. replace (k - e + e) with k by lia. reflexivity. }
  rewrite Hp. apply Qmult_le_compat_r; [exact Hr|]. apply Qlt_le_weak, pow2_pos.
Qed.

Lemma round_above_pow2 (x : Q) (k : Z) :
  (0 < x)%Q -> (2 ^ k <= x)%Q -> Float.exponent x <= k -> (2 ^ k <= Float.round x)%Q.
Proof.
  intros Hx Hle He. destruct (round_positive x Hx) as [-> _].
  set (e := Float.exponent x) in *.
  assert (Hr : 2 ^ (k - e) <= round_half_even (x / 2 ^ e)).
  { rewrite <- (round_half_even_integer (2 ^ (k - e))) at 1.
    apply round_half_even_le. rewrite pow2_inject by lia. apply div_pow2_ge. exact Hle. }
  rewrite Zle_Qle in Hr. rewrite pow2_inject in Hr by lia.
  assert (Hp : (2 ^ k == 2 ^ (k - e) * 2 ^ e)%Q).
  { rewrite <- pow2_plus. replace (k - e + e) with k by lia. reflexivity. }
  rewrite Hp. apply Qmult_le_compat_r; [exact Hr|]. apply Qlt_le_weak, pow2_pos.
Qed.

Lemma round_nonneg (x : Q) : (0 <= x)%Q -> (0 <= Float.round x)%Q.
Proof.
  intros Hx. destruct (Qeq_dec x 0) as [E|N].
  - rewrite (round_zero x E). apply Qle_refl.
  - assert (Hpos : (0 < x)%Q) by (apply Qle_lteq in Hx; destruct Hx as [H|H]; [exact H|]; exfalso; apply N; symmetry; exact H).
    destruct (round_positive x Hpos) as [-> _].
    apply Qmult_le_0_compat; [|apply Qlt_le_weak, pow2_pos].
    change 0%Q with (inject_Z 0). rewrite <- Zle_Qle.
    rewrite <- (round_half_even_integer 0). apply round_half_even_le.
    apply Qle_shift_div_l; [apply pow2_pos|].
    change (inject_Z 0) with 0%Q. rewrite Qmult_0_l. exact Hx.
Qed.

(** Rounding keeps the order. *)
Lemma round_le (x y : Q) :
  (0 <= x)%Q -> (x <= y)%Q -> (Float.round x <= Float.round y)%Q.
Proof.
  intros Hx Hle. destruct (Qeq_dec x 0) as [E|N].
  { rewrite (round_zero x E). apply round_nonneg. lra. }
  assert (Hpx : (0 < x)%Q) by (apply Qle_lteq in Hx; destruct Hx as [H|H]; [exact H|]; exfalso; apply N; symmetry; exact H).
  assert (Hpy : (0 < y)%Q) by lra.
  destruct (round_positive x Hpx) as [Rx Ex].
  destruct (round_positive y Hpy) as [Ry Ey].
  pose proof (ilog2_le x y Hpx Hle) as Hk.
  destruct (Z.eq_dec (Float.exponent x) (Float.exponent y)) as [Heq|Hne].
  - rewrite Rx, Ry, Heq. apply Qmult_le_compat_r; [|apply Qlt_le_weak, pow2_pos].
    rewrite <- Zle_Qle. apply round_half_even_le.
    apply Qmult_le_compat_r; [exact Hle|]. apply Qlt_le_weak, Qinv_lt_0_compat, pow2_pos.
  - assert (Hey : Float.exponent y = Float.ilog2 y - 52) by lia.
    assert (Hkx : Float.ilog2 x + 1 <= Float.ilog2 y) by lia.
    destruct (ilog2_spec x Hpx) as [_ Hxhi].
    destruct (ilog2_spec y Hpy) as [Hylo _].
    apply Qle_trans with (2 ^ Float.ilog2 y)%Q.
    + apply round_below_pow2; [exact Hpx| |lia].
      apply Qle_trans with (2 ^ (Float.ilog2 x + 1))%Q; [lra|]. apply pow2_le. exact Hkx.
    + apply round_above_pow2; [exact Hpy|exact Hylo|lia].
Qed.

(** What is at least a power of two within the normal range stays so. *)
Lemma round_ge_pow2 (x : Q) (k : Z) :
  -1074 <= k -> (2 ^ k <= x)%Q -> (2 ^ k <= Float.round x)%Q.
Proof.
  intros Hk Hle.
  assert (Hx : (0 < x)%Q) by (pose proof (pow2_pos k); lra).
  destruct (Z_le_gt_dec (Float.exponent x) k) as [He|He].
  - apply round_above_pow2; assumption.
  - destruct (round_positive x Hx) as [_ Ex].
    destruct (ilog2_spec x Hx) as [Hlo _].
    apply Qle_trans with (2 ^ Float.ilog2 x)%Q; [apply pow2_le; lia|].
    apply round_above_pow2; [exact Hx|exact Hlo|lia].
Qed.

(** ** Decoding bytes *)

Lemma append_empty_r (s : string) : s ++ "" = s.
Proof.
  induction s as [|c s IH]; [reflexivity|].
  change (String c (s ++ "") = String c s). rewrite IH. reflexivity.
Qed.

(** [String c s ++ t] is [String c (s ++ t)]. *)
Ltac push_append :=
  repeat match goal with
  | |- context [String ?c ?s ++ ?t] =>
      change (String c s ++ t) with (String c (s ++ t))
  end.

(** Bytes that are well formed decode to themselves, whatever follows
    them. *)
Lemma decode_app_bounded (n : nat) (a b : string) :
  (String.length a <= n)%nat -> Utf8.well_formed a = true ->
  Utf8.decode (a ++ b) = (a ++ Utf8.decode b)%string.
Proof.
  revert a. induction n as [|n IH]; intros a Hn Hwf.
  { destruct a; [reflexivity|simpl in Hn; lia]. }
  destruct a as [|b0 r0]; [reflexivity|].
  simpl in Hn. simpl in Hwf. push_append. simpl.
  destruct (nat_of_ascii b0 <? 128)%nat.
  { f_equal. apply IH; [lia|exact Hwf]. }
  destruct ((nat_of_ascii b0 <? 194)%nat || (244 <? nat_of_ascii b0)%nat); [discriminate|].
  destruct (nat_of_ascii b0 <? 224)%nat.
  { destruct r0 as [|b1 r1]; [discriminate|]. simpl in Hn. push_append. simpl.
    apply andb_true_iff in Hwf. destruct Hwf as [H1 H2]. rewrite H1.
    do 2 f_equal. apply IH; [lia|exact H2]. }
  destruct (nat_of_ascii b0 <? 240)%nat.
  { destruct r0 as [|b1 [|b2 r2]]; try discriminate. simpl in Hn. push_append. simpl.
    apply andb_true_iff in Hwf. destruct Hwf as [Hwf H3].
    apply andb_true_iff in Hwf. destruct Hwf as [H1 H2]. rewrite H1, H2.
    do 3 f_equal. apply IH; [lia|exact H3]. }
  destruct r0 as [|b1 [|b2 [|b3 r3]]]; try discriminate. simpl in Hn. push_append. simpl.
  apply andb_true_iff in Hwf. destruct Hwf as [Hwf H4].
  apply andb_true_iff in Hwf. destruct Hwf as [Hwf H3].
  apply andb_true_iff in Hwf. destruct Hwf as [H1 H2]. rewrite H1, H2, H3.
  do 4 f_equal. apply IH; [lia|exact H4].
Qed.

Lemma decode_app (a b : string) :
  Utf8.well_formed a = true -> Utf8.decode (a ++ b) = (a ++ Utf8.decode b)%string.
Proof. apply (decode_app_bounded (String.length a)). lia. Qed.

Lemma decode_well_formed (a : string) : Utf8.well_formed a = true -> Utf8.decode a = a.
Proof.
  intros H. rewrite <- (append_empty_r a) at 1. rewrite (decode_app a "" H).
  apply append_empty_r.
Qed.

(** Chunks that are well formed each are decoded to themselves. *)
Lemma decode_chunks (l : list string) :
  forallb Utf8.well_formed l = true -> map Utf8.decode l = l.
Proof.
  induction l as [|c l IH]; [reflexivity|]. simpl. intros H.
  apply andb_true_iff in H. destruct H as [H1 H2].
  rewrite (decode_well_formed c H1), (IH H2). reflexivity.
Qed.

(** ** Admission control *)

Lemma Qle_bool_false (x y : Q) : Qle_bool x y = false <-> (y < x)%Q.
Proof.
  split; intros H.
  - apply Qnot_le_lt. intros Hle. apply Qle_bool_iff in Hle. congruence.
  - destruct (Qle_bool x y) eqn:E; [|reflexivity].
    apply Qle_bool_iff in E. exfalso. exact (Qlt_not_le _ _ H E).
Qed.

Lemma finite_allowance_positive (t : SubscriptionTier) :
  minutes_per_month (TIER_LIMITS t) <> -1 -> 0 < minutes_per_month (TIER_LIMITS t).
Proof. destruct t; simpl; lia. Qed.

(** C5. For a subscribed user whose tier has a finite monthly allowance the
    admission check denies, with the quota message, exactly when the
    minutes used this period have reached the allowance; a tier whose
    allowance is the sentinel [-1] is always admitted. With an allowance
    of 60 minutes, 60 used minutes are denied and 59.9 are allowed, and
    [create_session] raises the denial or stores the pending session
    accordingly. *)
Theorem admission_quota (db : DB) (uid : string) (sub : Subscription) :
  db_subscriptions db !! uid = Some sub ->
  let limits := TIER_LIMITS (tier sub) in
  let allowance := minutes_per_month limits in
  (allowance <> -1 -> (inject_Z allowance <= minutes_used_this_period sub)%Q ->
     _check_tier_limits TIER_LIMITS db uid = Denied (minutes_reason limits))
  /\ (allowance <> -1 -> (minutes_used_this_period sub < inject_Z allowance)%Q ->
     _check_tier_limits TIER_LIMITS db uid <> Denied (minutes_reason limits))
  /\ (allowance = -1 -> _check_tier_limits TIER_LIMITS db uid = Allowed)
  /\ _check_tier_limits TIER_LIMITS (db_with_subscription "u" (free_with 60)) "u"
     = Denied "Monthly limit of 60 minutes reached. Please upgrade your plan."
  /\ _check_tier_limits TIER_LIMITS (db_with_subscription "u" (free_with (599 # 10))) "u"
     = Allowed
  /\ create_session TIER_LIMITS settings (registered_db 60) "u" "s" "r"
       "add a README" None "claude"
     = Raise "Monthly limit of 60 minutes reached. Please upgrade your plan."
  /\ (exists created,
        create_session TIER_LIMITS settings (registered_db (599 # 10)) "u" "s" "r"
          "add a README" None "claude" = Ok created
        /\ status (snd created) = PENDING).
Proof.
  intros Hsub limits allowance.
  split; [|split; [|split; [|split; [|split; [|split]]]]].
  - intros Hfin Hle. unfold _check_tier_limits. rewrite Hsub. fold limits. fold allowance.
    apply finite_allowance_positive in Hfin. fold limits in Hfin. fold allowance in Hfin.
    apply Z.ltb_lt in Hfin. rewrite Hfin.
    apply Qle_bool_iff in Hle. rewrite Hle. reflexivity.
  - intros Hfin Hlt. unfold _check_tier_limits. rewrite Hsub. fold limits. fold allowance.
    apply Qle_bool_false in Hlt. rewrite Hlt, andb_false_r.
    destruct (_ && _); [|discriminate].
    intros Heq. injection Heq as Heq. revert Heq. subst limits.
    destruct (tier sub); vm_compute; discriminate.
  - intros Hinf. unfold _check_tier_limits. rewrite Hsub. subst allowance limits.
    destruct (tier sub); simpl in Hinf; try discriminate. reflexivity.
  - vm_compute. reflexivity.
  - vm_compute. reflexivity.
  - vm_compute. reflexivity.
  - eexists. split; [vm_compute; reflexivity|reflexivity].
Qed.

Lemma admission_quota_witness :
  _check_tier_limits TIER_LIMITS (db_with_subscription "u" (free_with 60)) "u"
  = Denied (minutes_reason (TIER_LIMITS FREE)).
Proof.
  refine (proj1 (admission_quota (db_with_subscription "u" (free_with 60)) "u"
                   (free_with 60) _) _ _).
  - vm_compute. reflexivity.
  - simpl. discriminate.
  - simpl. unfold Qle. simpl. lia.
Defined.

Lemma reasons_differ (l l' : TierLimits) : minutes_reason l <> concurrency_reason l'.
Proof. unfold minutes_reason, concurrency_reason. simpl. discriminate. Qed.

(** C10. Each of the two limits is enforced only when it is strictly
    positive: a denial names the limit that caused it, and that limit is
    positive and reached; a limit of zero or below never denies, so a table
    of zero limits admits a user over every quota with sessions running. *)
Theorem limits_enforced_only_when_positive
    (limits_of : SubscriptionTier -> TierLimits) (db : DB) (uid : string) :
  let subscription := db_subscriptions db !! uid in
  let limits :=
    limits_of (match subscription with Some sub => tier sub | None => FREE end) in
  let used :=
    match subscription with Some sub => minutes_used_this_period sub | None => 0%Q end in
  let running := Z.of_nat (length (active_sessions db uid)) in
  (forall reason, _check_tier_limits limits_of db uid = Denied reason ->
     (reason = minutes_reason limits /\ 0 < minutes_per_month limits
      /\ (inject_Z (minutes_per_month limits) <= used)%Q)
     \/ (reason = concurrency_reason limits /\ 0 < max_concurrent_sessions limits
         /\ max_concurrent_sessions limits <= running))
  /\ (minutes_per_month limits <= 0 ->
      _check_tier_limits limits_of db uid <> Denied (minutes_reason limits))
  /\ (max_concurrent_sessions limits <= 0 ->
      _check_tier_limits limits_of db uid <> Denied (concurrency_reason limits))
  /\ (minutes_per_month limits <= 0 -> max_concurrent_sessions limits <= 0 ->
      _check_tier_limits limits_of db uid = Allowed)
  /\ length (active_sessions busy_db "u") = 2%nat
  /\ _check_tier_limits zero_limits busy_db "u" = Allowed
  /\ _check_tier_limits TIER_LIMITS busy_db "u"
     = Denied "Monthly limit of 60 minutes reached. Please upgrade your plan.".
Proof.
  intros subscription limits used running.
  assert (Hcases : forall reason, _check_tier_limits limits_of db uid = Denied reason ->
     (reason = minutes_reason limits /\ 0 < minutes_per_month limits
      /\ (inject_Z (minutes_per_month limits) <= used)%Q)
     \/ (reason = concurrency_reason limits /\ 0 < max_concurrent_sessions limits
         /\ max_concurrent_sessions limits <= running)).
  { intros reason. unfold _check_tier_limits.
    fold subscription. fold limits. fold used. fold running.
    destruct (0 <? minutes_per_month limits) eqn:Hm; simpl.
    - destruct (Qle_bool _ used) eqn:Hq.
      + intros [= <-]. left. apply Z.ltb_lt in Hm. apply Qle_bool_iff in Hq. auto.
      + destruct (0 <? max_concurrent_sessions limits) eqn:Hc; simpl; [|discriminate].
        destruct (_ <=? running) eqn:Hr; [|discriminate].
        intros [= <-]. right. apply Z.ltb_lt in Hc. apply Z.leb_le in Hr. auto.
    - destruct (0 <? max_concurrent_sessions limits) eqn:Hc; simpl; [|discriminate].
      destruct (_ <=? running) eqn:Hr; [|discriminate].
      intros [= <-]. right. apply Z.ltb_lt in Hc. apply Z.leb_le in Hr. auto. }
  split; [exact Hcases|].
  split; [|split; [|split; [|split; [|split]]]].
  - intros Hm Hd. destruct (Hcases _ Hd) as [(_ & Hpos & _)|(Hr & _)]; [lia|].
    exact (reasons_differ _ _ Hr).
  - intros Hc Hd. destruct (Hcases _ Hd) as [(Hr & _)|(_ & Hpos & _)]; [|lia].
    symmetry in Hr. exact (reasons_differ _ _ Hr).
  - intros Hm Hc. destruct (_check_tier_limits limits_of db uid) as [|reason] eqn:E;
      [reflexivity|].
    destruct (Hcases _ eq_refl) as [(_ & Hpos & _)|(_ & Hpos & _)]; lia.
  - vm_compute. reflexivity.
  - vm_compute. reflexivity.
  - vm_compute. reflexivity.
Qed.

Lemma limits_enforced_only_when_positive_witness :
  _check_tier_limits zero_limits busy_db "u" = Allowed.
Proof.
  refine (proj1 (proj2 (proj2 (proj2
    (limits_enforced_only_when_positive zero_limits busy_db "u")))) _ _).
  - vm_compute. discriminate.
  - vm_compute. discriminate.
Defined.

(** [create_session] for a registered user under quota stores the pending
    session and its first event, numbered 0. *)
Example create_session_fresh :
  create_session TIER_LIMITS settings (registered_db 0) "u" "s" "r"
    "add a README" None "claude"
  = Ok (fresh_db, pending_session).
Proof. vm_compute. reflexivity. Qed.

(** ** Finalization and billing *)

Lemma positive_duration_some (s : DevSession) (d : Q) :
  duration_seconds s = Some d -> (0 < d)%Q -> positive_duration s = Some d.
Proof.
  intros Hd Hpos. unfold positive_duration. rewrite Hd.
  assert (Hle : Qle_bool d 0 = false) by (apply Qle_bool_false; exact Hpos).
  assert (Heq : Qeq_bool d 0 = false).
  { destruct (Qeq_bool d 0) eqn:E; [|reflexivity].
    apply Qeq_bool_iff in E. rewrite E in Hpos. exfalso. exact (Qlt_irrefl _ Hpos). }
  rewrite Hle, Heq. reflexivity.
Qed.

Lemma int_of_float_floor (x : Q) : (0 <= x)%Q -> int_of_float x = Qfloor x.
Proof.
  intros Hx. destruct x as [n p]. unfold int_of_float, Qfloor. simpl.
  apply Z.quot_div_nonneg; [|lia].
  unfold Qle in Hx. simpl in Hx. lia.
Qed.

(** What one finalization of a session with a positive duration does. *)
Lemma finalize_positive (cfg : Settings) (now : Q) (db : DB) (s : DevSession) (d : Q) :
  positive_duration s = Some d ->
  let minutes := Float.div d 60 in
  let amount := session_cost (RATE_PER_MINUTE cfg) minutes in
  let charged := set_cost_cents amount s in
  let s' := match ended_at s with Some _ => charged | None => set_ended_at (Some now) charged end in
  let bill := {| bill_user_id := user_id s; bill_session_id := Some (id s);
                 billing_type := SESSION_CHARGE; amount_cents := amount;
                 description_minutes := minutes;
                 description_task := Py.take 50 (task_description s) |} in
  snd (finalize_session cfg now db s) = s'
  /\ db_billing (fst (finalize_session cfg now db s)) = (db_billing db ++ [bill])%list
  /\ db_events (fst (finalize_session cfg now db s)) = db_events db
  /\ db_subscriptions (fst (finalize_session cfg now db s))
     = match db_subscriptions db !! user_id s with
       | Some sub =>
           <[user_id s := {| tier := tier sub; is_active := is_active sub;
                             minutes_used_this_period :=
                               Float.add (minutes_used_this_period sub) minutes |}]>
             (db_subscriptions db)
       | None => db_subscriptions db
       end.
Proof.
  intros Hd. unfold finalize_session. rewrite Hd. simpl.
  destruct (db_subscriptions db !! user_id s) eqn:Hsub;
    destruct (ended_at s); simpl; rewrite ?Hsub; auto.
Qed.

(** A finalization without a positive duration charges nothing. *)
Lemma finalize_not_positive (cfg : Settings) (now : Q) (db : DB) (s : DevSession) :
  positive_duration s = None ->
  db_billing (fst (finalize_session cfg now db s)) = db_billing db
  /\ db_events (fst (finalize_session cfg now db s)) = db_events db
  /\ db_subscriptions (fst (finalize_session cfg now db s)) = db_subscriptions db.
Proof.
  intros Hd. unfold finalize_session. rewrite Hd. destruct (ended_at s); auto.
Qed.

(** The product that is cut to the cost is not negative when the rate is
    not. *)
Lemma cost_product_nonneg (rate minutes : Q) :
  (0 <= rate)%Q -> (0 <= minutes)%Q -> (0 <= cost_product rate minutes)%Q.
Proof.
  intros Hr Hm. unfold cost_product, Float.mul.
  apply round_nonneg. apply Qmult_le_0_compat; [|discriminate].
  apply round_nonneg. apply Qmult_le_0_compat; [exact Hm|].
  apply round_nonneg. exact Hr.
Qed.

Lemma duration_minutes_nonneg (d : Q) : (0 < d)%Q -> (0 <= Float.div d 60)%Q.
Proof.
  intros Hd. unfold Float.div. apply round_nonneg.
  apply Qle_shift_div_l; [reflexivity|]. rewrite Qmult_0_l. apply Qlt_le_weak. exact Hd.
Qed.

(** C9 (as the code has it). Finalizing a session whose recorded duration
    [d] is positive stores the cost [int(d / 60 * rate * 100)], where the
    quotient and the two products are those of binary64, each rounded, and
    [int] cuts the last product toward zero: for a rate that is not
    negative the cost is the floor of that product. The amount is taken to
    fit the [Integer] column it is stored in. One billing record with that
    amount is appended and the earlier records are left as they were; and
    [d / 60] is added, in binary64, to the period counter of the owner's
    subscription when the owner has one (no counter changes otherwise, and
    no other user's ever does). *)
Theorem finalize_cost_is_truncated
    (cfg : Settings) (now : Q) (db : DB) (s : DevSession) (d : Q) :
  duration_seconds s = Some d -> (0 < d)%Q ->
  let minutes := Float.div d 60 in
  let product := Float.mul (Float.mul minutes (Float.round (RATE_PER_MINUTE cfg))) 100 in
  let amount := int_of_float product in
  Column.Integer amount = true ->
  let db' := fst (finalize_session cfg now db s) in
  let s' := snd (finalize_session cfg now db s) in
  cost_cents s' = amount
  /\ db_billing db'
     = (db_billing db ++
        [{| bill_user_id := user_id s; bill_session_id := Some (id s);
            billing_type := SESSION_CHARGE; amount_cents := amount;
            description_minutes := minutes;
            description_task := Py.take 50 (task_description s) |}])%list
  /\ (forall sub, db_subscriptions db !! user_id s = Some sub ->
        db_subscriptions db' !! user_id s
        = Some {| tier := tier sub; is_active := is_active sub;
                  minutes_used_this_period :=
                    Float.add (minutes_used_this_period sub) minutes |})
  /\ (db_subscriptions db !! user_id s = None ->
        db_subscriptions db' = db_subscriptions db)
  /\ (forall uid, uid <> user_id s ->
        db_subscriptions db' !! uid = db_subscriptions db !! uid)
  /\ ((0 <= RATE_PER_MINUTE cfg)%Q ->
        amount = Qfloor product
        /\ (inject_Z amount <= product)%Q
        /\ (product < inject_Z (amount + 1))%Q).
Proof.
  intros Hd Hpos minutes product amount _ db' s'.
  pose proof (positive_duration_some s d Hd Hpos) as Hp.
  destruct (finalize_positive cfg now db s d Hp) as (Hs & Hb & _ & Hsubs).
  change (session_cost (RATE_PER_MINUTE cfg) (Float.div d 60)) with amount in Hs, Hb.
  fold minutes in Hs, Hb, Hsubs. fold s' in Hs. fold db' in Hb, Hsubs.
  split; [|split; [|split; [|split; [|split]]]].
  - rewrite Hs. destruct (ended_at s); reflexivity.
  - exact Hb.
  - intros sub Hsub. rewrite Hsubs, Hsub. apply lookup_insert_eq.
  - intros Hsub. rewrite Hsubs, Hsub. reflexivity.
  - intros uid Hne. rewrite Hsubs.
    destruct (db_subscriptions db !! user_id s); [|reflexivity].
    apply lookup_insert_ne. congruence.
  - intros Hrate.
    assert (Hx : (0 <= product)%Q).
    { apply (cost_product_nonneg (RATE_PER_MINUTE cfg) minutes Hrate).
      apply duration_minutes_nonneg. exact Hpos. }
    unfold amount at 1. rewrite (int_of_float_floor _ Hx). split; [reflexivity|].
    unfold amount. rewrite (int_of_float_floor _ Hx).
    split; [apply Qfloor_le | apply Qlt_floor].
Qed.

Lemma finalize_cost_is_truncated_witness :
  cost_cents (snd (finalize_session settings 200
                     (db_with_subscription "u" (free_with 0)) (finished_session 180))) = 3.
Proof.
  pose proof (finalize_cost_is_truncated settings 200
                (db_with_subscription "u" (free_with 0)) (finished_session 180) 180
                eq_refl eq_refl eq_refl) as H.
  cbv zeta in H. destruct H as (Hcost & _). rewrite Hcost. vm_compute. reflexivity.
Defined.

(** C9 fails as stated: 59 seconds at the configured rate of one cent per
    minute cost 0 cents, where rounding up and rounding to the nearest cent
    both give 1; and 1740 seconds, 29 minutes, cost 28 cents, because the
    product of binary64 is just below 29, where both give 29. *)
Lemma finalize_cost_not_ceil_or_round :
  cost_cents (snd (finalize_session settings 100
                     (db_with_subscription "u" (free_with 0)) (finished_session 59))) = 0
  /\ spec_cost_ceil (RATE_PER_MINUTE settings) (Float.div 59 60) = 1
  /\ spec_cost_round (RATE_PER_MINUTE settings) (Float.div 59 60) = 1
  /\ cost_cents (snd (finalize_session settings 2000
                        (db_with_subscription "u" (free_with 0)) (finished_session 1740))) = 28
  /\ spec_cost_ceil (RATE_PER_MINUTE settings) (Float.div 1740 60) = 29
  /\ spec_cost_round (RATE_PER_MINUTE settings) (Float.div 1740 60) = 29.
Proof. vm_compute. repeat split. Qed.

(** *** The stages before finalization leave the ledger alone *)

Lemma track_events_tables (db : DB) (sid : string) (counter : Z) (evs : list AgentEvent) :
  db_billing (fst (track_events db sid counter evs)) = db_billing db
  /\ db_subscriptions (fst (track_events db sid counter evs)) = db_subscriptions db
  /\ snd (track_events db sid counter evs) = counter + Z.of_nat (length evs).
Proof.
  revert db counter. induction evs as [|[kind text] evs IH]; intros db counter; simpl.
  - repeat split; lia.
  - destruct (IH (_add_event db sid (event_type_map kind) text counter) (counter + 1))
      as (Hb & Hs & Hc).
    rewrite Hb, Hs, Hc. repeat split; lia.
Qed.

Lemma after_agent_tables (c : Container) (result : RunResult) (counter : Z)
    (db : DB) (s : DevSession) :
  db_billing (fst (fst (after_agent c result counter db s))) = db_billing db
  /\ db_subscriptions (fst (fst (after_agent c result counter db s))) = db_subscriptions db.
Proof.
  unfold after_agent. destruct (success result); [|split; reflexivity].
  destruct (git_commit_and_push _ _ _) as [push|err]; [split; reflexivity|].
  destruct (Py.contains _ _); split; reflexivity.
Qed.

Lemma run_agent_tables `{rt : PyBuiltins} (cfg : Settings) (c : Container) (now : Q)
    (db : DB) (s : DevSession) :
  db_billing (out_db (run_agent cfg c now db s)) = db_billing db
  /\ db_subscriptions (out_db (run_agent cfg c now db s)) = db_subscriptions db.
Proof.
  unfold run_agent.
  destruct (container_id s) as [[|ch cid]|]; try (split; reflexivity).
  destruct (run_task _ _ _ _ _) as [evs outcome].
  match goal with |- context [track_events ?d ?i ?n evs] =>
    pose proof (track_events_tables d i n evs) as (Hb & Hs & _);
    destruct (track_events d i n evs) as [db1 counter] end.
  simpl in Hb, Hs.
  destruct outcome as [result|e].
  - pose proof (after_agent_tables c result counter db1 (set_status AGENT_WORKING s))
      as (Hb' & Hs').
    destruct (after_agent _ _ _ _ _) as [[db2 s2] raised]. simpl in Hb', Hs'.
    simpl. rewrite Hb', Hs', Hb, Hs. split; reflexivity.
  - simpl. rewrite Hb, Hs. split; reflexivity.
Qed.

Lemma start_session_tables (created : Result ContainerInfo) (now : Q)
    (db : DB) (s : DevSession) :
  db_billing (out_db (start_session created now db s)) = db_billing db
  /\ db_subscriptions (out_db (start_session created now db s)) = db_subscriptions db.
Proof.
  unfold start_session. destruct (db_repositories db !! repository_id s);
    [|split; reflexivity].
  destruct created; split; reflexivity.
Qed.

Lemma finalize_billing_length (cfg : Settings) (now : Q) (db : DB) (s : DevSession) :
  (length (db_billing (fst (finalize_session cfg now db s))) <= length (db_billing db) + 1)%nat.
Proof.
  destruct (positive_duration s) as [d|] eqn:Hd.
  - destruct (finalize_positive cfg now db s d Hd) as (_ & Hb & _).
    rewrite Hb, length_app. simpl. lia.
  - destruct (finalize_not_positive cfg now db s Hd) as (Hb & _). rewrite Hb. lia.
Qed.

Lemma pipeline_failed_billing_length (cfg : Settings) (e : string) (now : Q)
    (db : DB) (sid : string) :
  (length (db_billing (pipeline_failed cfg e now db sid)) <= length (db_billing db) + 1)%nat.
Proof.
  unfold pipeline_failed. destruct (db_sessions db !! sid) as [s|]; [|lia].
  match goal with |- context [finalize_session cfg now ?d ?x] =>
    pose proof (finalize_billing_length cfg now d x) as H end.
  simpl in H. exact H.
Qed.

(** One execution of the pipeline charges at most once. *)
Lemma pipeline_charges_at_most_once `{rt : PyBuiltins} (cfg : Settings)
    (created : Result ContainerInfo) (c : Container) (t0 t1 t2 : Q)
    (db : DB) (sid : string) :
  (length (db_billing (_run_session_pipeline cfg created c t0 t1 t2 db sid))
   <= length (db_billing db) + 1)%nat.
Proof.
  unfold _run_session_pipeline.
  destruct (db_sessions db !! sid) as [s|];
    [|apply pipeline_failed_billing_length].
  destruct (start_session_tables created t0 db s) as (Hb0 & _).
  destruct (out_raised (start_session created t0 db s)).
  { rewrite <- Hb0. apply pipeline_failed_billing_length. }
  destruct (run_agent_tables cfg c t1 (out_db (start_session created t0 db s))
              (out_session (start_session created t0 db s))) as (Hb1 & _).
  destruct (out_raised (run_agent _ _ _ _ _)).
  { rewrite <- Hb0, <- Hb1. apply pipeline_failed_billing_length. }
  rewrite <- Hb0, <- Hb1. apply finalize_billing_length.
Qed.

(** C1 (as the code has it). [finalize_session] has no guard: every call on
    a session with a positive duration appends one more billing record and
    adds the minutes once more, so two calls leave two records and add the
    minutes twice. What holds is the structural guarantee: one call charges
    once, and an execution of the pipeline appends at most one record. *)
Theorem finalize_charges_on_every_call
    (cfg : Settings) (now now' : Q) (db : DB) (s : DevSession) (d : Q) :
  duration_seconds s = Some d -> (0 < d)%Q ->
  let minutes := Float.div d 60 in
  let once := finalize_session cfg now db s in
  let twice := finalize_session cfg now' (fst once) (snd once) in
  length (db_billing (fst once)) = (length (db_billing db) + 1)%nat
  /\ length (db_billing (fst twice)) = (length (db_billing db) + 2)%nat
  /\ (forall sub, db_subscriptions db !! user_id s = Some sub ->
        (exists sub1, db_subscriptions (fst once) !! user_id s = Some sub1
           /\ minutes_used_this_period sub1
              = Float.add (minutes_used_this_period sub) minutes)
        /\ (exists sub2, db_subscriptions (fst twice) !! user_id s = Some sub2
           /\ minutes_used_this_period sub2
              = Float.add (Float.add (minutes_used_this_period sub) minutes) minutes))
  /\ (forall (rt : PyBuiltins) created c t0 t1 t2 sid,
        (length (db_billing (_run_session_pipeline cfg created c t0 t1 t2 db sid))
         <= length (db_billing db) + 1)%nat).
Proof.
  intros Hd Hpos minutes once twice.
  pose proof (positive_duration_some s d Hd Hpos) as Hp.
  destruct (finalize_positive cfg now db s d Hp) as (Hs1 & Hb1 & _ & Hsub1).
  fold once in Hs1, Hb1, Hsub1. cbv zeta in Hs1, Hb1, Hsub1.
  assert (Hd1 : duration_seconds (snd once) = Some d).
  { rewrite Hs1. destruct (ended_at s); exact Hd. }
  assert (Hu1 : user_id (snd once) = user_id s).
  { rewrite Hs1. destruct (ended_at s); reflexivity. }
  pose proof (positive_duration_some (snd once) d Hd1 Hpos) as Hp1.
  destruct (finalize_positive cfg now' (fst once) (snd once) d Hp1) as (_ & Hb2 & _ & Hsub2).
  fold twice in Hb2, Hsub2. cbv zeta in Hb2, Hsub2.
  split; [|split; [|split]].
  - rewrite Hb1, length_app. reflexivity.
  - rewrite Hb2, Hb1, !length_app. simpl. lia.
  - intros sub Hsub. rewrite Hsub in Hsub1.
    assert (H1 : db_subscriptions (fst once) !! user_id s
                 = Some {| tier := tier sub; is_active := is_active sub;
                           minutes_used_this_period :=
                             Float.add (minutes_used_this_period sub) (Float.div d 60) |}).
    { rewrite Hsub1. apply lookup_insert_eq. }
    split.
    + eexists. split; [exact H1|reflexivity].
    + rewrite Hu1, H1 in Hsub2. eexists. split.
      * rewrite Hsub2. apply lookup_insert_eq.
      * reflexivity.
  - intros rt created c t0 t1 t2 sid. apply pipeline_charges_at_most_once.
Qed.

Lemma finalize_charges_on_every_call_witness :
  length (db_billing (fst (finalize_session settings 130
            (db_with_subscription "u" (free_with 0)) (finished_session 120)))) = 1%nat.
Proof.
  exact (proj1 (finalize_charges_on_every_call settings 130 140
                  (db_with_subscription "u" (free_with 0)) (finished_session 120) 120
                  eq_refl eq_refl)).
Defined.

(** C1 fails as stated: finalizing twice a session that ran 120 seconds
    leaves two billing records and a period counter of 4 minutes, not one
    record and 2 minutes. *)
Lemma finalize_twice_charges_twice :
  let db := db_with_subscription "u" (free_with 0) in
  let once := finalize_session settings 130 db (finished_session 120) in
  let twice := finalize_session settings 140 (fst once) (snd once) in
  length (db_billing (fst once)) = 1%nat
  /\ length (db_billing (fst twice)) = 2%nat
  /\ (minutes_used_by (fst once) "u" == 2)%Q
  /\ (minutes_used_by (fst twice) "u" == 4)%Q.
Proof. cbv zeta. repeat split. Qed.

(** The rounding of the embedding is the rounding of the machine: on the
    durations used above, and on 1740 seconds, the cost computed on the
    floats of the machine is the cost computed here, and the product is the
    same number. *)
Example cost_cents_in_binary64 :
  cost_cents_binary64 59 (1 / 100) = Some 0
  /\ session_cost (RATE_PER_MINUTE settings) (Float.div 59 60) = 0
  /\ cost_cents_binary64 120 (1 / 100) = Some 2
  /\ session_cost (RATE_PER_MINUTE settings) (Float.div 120 60) = 2
  /\ cost_cents_binary64 180.5 (1 / 100) = Some 3
  /\ session_cost (RATE_PER_MINUTE settings) (Float.div (361 # 2) 60) = 3
  /\ cost_cents_binary64 1740 (1 / 100) = Some 28
  /\ session_cost (RATE_PER_MINUTE settings) (Float.div 1740 60) = 28
  /\ Q_of_binary64 (1740 / 60 * (1 / 100) * 100)%float
     = Some (cost_product (RATE_PER_MINUTE settings) (Float.div 1740 60))
  /\ Q_of_binary64 (1 / 10)%float = Some (Float.round (1 # 10)).
Proof. vm_compute. repeat split. Qed.

(** ** Life cycle: statuses and timestamps *)

Lemma after_agent_session (c : Container) (result : RunResult) (counter : Z)
    (db : DB) (s : DevSession) :
  let s' := snd (fst (after_agent c result counter db s)) in
  let raised := snd (after_agent c result counter db s) in
  same_identity s s' /\ same_clock s s'
  /\ (raised = None -> status s' = COMPLETED \/ status s' = FAILED).
Proof.
  unfold after_agent, same_identity, same_clock.
  destruct (success result); simpl; [|tauto].
  destruct (git_commit_and_push _ _ _) as [push|err]; simpl; [tauto|].
  destruct (Py.contains _ _); simpl; [tauto|].
  repeat split; discriminate.
Qed.

Lemma stamp_end_fields (now : Q) (s : DevSession) :
  status (stamp_end now s) = status s
  /\ ended_at (stamp_end now s) = Some now
  /\ duration_seconds (stamp_end now s)
     = match started_at s with
       | Some t0 => Some (timedelta_seconds (now - t0))
       | None => duration_seconds s
       end
  /\ started_at (stamp_end now s) = started_at s
  /\ same_identity s (stamp_end now s).
Proof.
  unfold stamp_end, same_identity.
  change (started_at (set_ended_at (Some now) s)) with (started_at s).
  destruct (started_at s) eqn:E; repeat split; try reflexivity; exact E.
Qed.

(** [run_agent] either refuses a session without a container, or ends by
    stamping a session it has brought to [COMPLETED] or [FAILED]. *)
Lemma run_agent_cases `{rt : PyBuiltins} (cfg : Settings) (c : Container) (now : Q)
    (db : DB) (s : DevSession) :
  (out_raised (run_agent cfg c now db s) = Some "Session has no container"
   /\ out_session (run_agent cfg c now db s) = s
   /\ out_db (run_agent cfg c now db s) = db
   /\ (container_id s = None \/ container_id s = Some ""))
  \/ (exists s1,
       out_raised (run_agent cfg c now db s) = None
       /\ out_session (run_agent cfg c now db s) = stamp_end now s1
       /\ (status s1 = COMPLETED \/ status s1 = FAILED)
       /\ same_identity s s1 /\ same_clock s s1
       /\ (exists cid, container_id s = Some cid /\ cid <> "")).
Proof.
  unfold run_agent.
  destruct (container_id s) as [[|ch cid]|] eqn:Hc; [left; tauto| |left; tauto].
  right.
  destruct (run_task _ _ _ _ _) as [evs outcome].
  destruct (track_events _ _ _ _) as [db1 counter].
  destruct outcome as [result|e].
  - pose proof (after_agent_session c result counter db1 (set_status AGENT_WORKING s))
      as (Hi & Hk & Hst).
    destruct (after_agent _ _ _ _ _) as [[db2 s2] raised]. simpl in Hi, Hk, Hst.
    destruct raised as [e|].
    + eexists. split; [reflexivity|]. split; [reflexivity|]. simpl.
      split; [tauto|]. split; [exact Hi|]. split; [exact Hk|].
      eexists. split; [reflexivity|discriminate].
    + eexists. split; [reflexivity|]. split; [reflexivity|].
      split; [auto|]. split; [exact Hi|]. split; [exact Hk|].
      eexists. split; [reflexivity|discriminate].
  - eexists. split; [reflexivity|]. split; [reflexivity|]. simpl.
    split; [tauto|]. unfold same_identity, same_clock. simpl.
    split; [tauto|]. split; [tauto|].
    eexists. split; [reflexivity|discriminate].
Qed.

Lemma finalize_session_fields (cfg : Settings) (now : Q) (db : DB) (s : DevSession) :
  let s' := snd (finalize_session cfg now db s) in
  status s' = status s
  /\ ended_at s' = match ended_at s with Some t => Some t | None => Some now end
  /\ duration_seconds s' = duration_seconds s
  /\ started_at s' = started_at s
  /\ same_identity s s'.
Proof.
  unfold finalize_session, same_identity.
  destruct (positive_duration s); destruct (ended_at s) eqn:He; simpl; rewrite ?He; tauto.
Qed.

(** C2 (as the code has it). [run_agent] and [cancel_session] each end in a
    terminal status with [ended_at] set to the current time, and set the
    duration in the same step exactly when [started_at] is set (the duration
    is left as it was otherwise); both assign [ended_at] whether or not it
    was set before. [finalize_session] sets [ended_at] only when it is not
    set yet, and never touches the duration or the status. A provisioning
    that fails leaves the session [FAILED] with [ended_at] as it was. *)
Theorem ended_at_and_duration
    (rt : PyBuiltins) (cfg : Settings) (c : Container) (now : Q) (db : DB) (s : DevSession) :
  let stamped (s' : DevSession) :=
    terminal (status s') = true
    /\ ended_at s' = Some now
    /\ duration_seconds s'
       = match started_at s with
         | Some t0 => Some (timedelta_seconds (now - t0))
         | None => duration_seconds s
         end in
  (out_raised (run_agent cfg c now db s) = None ->
     stamped (out_session (run_agent cfg c now db s)))
  /\ stamped (snd (cancel_session cfg now db s))
  /\ (let s' := snd (finalize_session cfg now db s) in
      ended_at s' = match ended_at s with Some t => Some t | None => Some now end
      /\ duration_seconds s' = duration_seconds s
      /\ status s' = status s)
  /\ (forall e repo, db_repositories db !! repository_id s = Some repo ->
      let failed := start_session (Raise e) now db s in
      out_raised failed = Some e
      /\ status (out_session failed) = FAILED
      /\ ended_at (out_session failed) = ended_at s).
Proof.
  intros stamped. unfold stamped. split; [|split; [|split]].
  4: { intros e repo Hrepo. unfold start_session. rewrite Hrepo. repeat split. }
  - intros Hok.
    destruct (run_agent_cases cfg c now db s) as [(Hr & _)|(s1 & _ & Hs & Hst & _ & Hk & _)];
      [congruence|].
    rewrite Hs. destruct (stamp_end_fields now s1) as (H1 & H2 & H3 & _).
    destruct Hk as (Hk1 & _ & Hk3). rewrite H1, H2, H3, Hk1, Hk3.
    split; [destruct Hst as [-> | ->]; reflexivity|]. split; reflexivity.
  - unfold cancel_session.
    destruct (finalize_session_fields cfg now
                (flush (stamp_end now (set_status CANCELLED s)) db)
                (stamp_end now (set_status CANCELLED s))) as (H1 & H2 & H3 & _).
    cbv zeta in H1, H2, H3. rewrite H1, H2, H3.
    destruct (stamp_end_fields now (set_status CANCELLED s)) as (G1 & G2 & G3 & _).
    rewrite G1, G2, G3. simpl. repeat split.
  - destruct (finalize_session_fields cfg now db s) as (H1 & H2 & H3 & _). tauto.
Qed.

Lemma ended_at_and_duration_witness :
  terminal (status (out_session (run_agent (rt := some_builtins) settings quiet_container
                                   60 fresh_db (running_session "s" "u")))) = true.
Proof.
  refine (proj1 (proj1 (ended_at_and_duration some_builtins settings quiet_container 60
                          fresh_db (running_session "s" "u")) _)).
  vm_compute. reflexivity.
Defined.

(** C2 fails as stated. Cancelling a session that never started sets
    [ended_at] and no duration; cancelling a session that completed at time
    120 overwrites its [ended_at]; a failed provisioning leaves the session
    [FAILED] with no [ended_at]; and the pipeline then finalizes it with an
    [ended_at] and still no duration. *)
Lemma ended_at_without_duration_or_overwritten :
  (let s := snd (cancel_session settings 5 fresh_db pending_session) in
   status s = CANCELLED /\ ended_at s = Some 5%Q /\ duration_seconds s = None)
  /\ (let s := snd (cancel_session settings 500 fresh_db (finished_session 120)) in
      ended_at (finished_session 120) = Some 120%Q /\ ended_at s = Some 500%Q)
  /\ (let e := start_session (Raise "clone failed") 1 fresh_db pending_session in
      status (out_session e) = FAILED /\ ended_at (out_session e) = None
      /\ out_raised e = Some "clone failed")
  /\ (forall rt : PyBuiltins,
        let db := _run_session_pipeline settings (Raise "clone failed") quiet_container
                    1 2 3 fresh_db "s" in
        option_map status (db_sessions db !! "s") = Some FAILED
        /\ option_map ended_at (db_sessions db !! "s") = Some (Some 3%Q)
        /\ option_map duration_seconds (db_sessions db !! "s") = Some None).
Proof.
  split; [vm_compute; repeat split|]. split; [vm_compute; repeat split|].
  split; [vm_compute; repeat split|]. intros rt. vm_compute. repeat split.
Qed.

(** C6 (as the code has it). No operation looks at the status it replaces:
    [cancel_session] moves a session to [CANCELLED] from every status, the
    terminal ones included, and [run_agent] ends in [COMPLETED] or [FAILED]
    from every status. Only [finalize_session] keeps the status it finds,
    so finalization never moves a session out of a terminal status. *)
Theorem terminal_status_is_not_protected
    (rt : PyBuiltins) (cfg : Settings) (c : Container) (now : Q) (db : DB) (s : DevSession) :
  status (snd (cancel_session cfg now db s)) = CANCELLED
  /\ status (snd (finalize_session cfg now db s)) = status s
  /\ (out_raised (run_agent cfg c now db s) = None ->
      status (out_session (run_agent cfg c now db s)) = COMPLETED
      \/ status (out_session (run_agent cfg c now db s)) = FAILED).
Proof.
  split; [|split].
  - unfold cancel_session.
    destruct (finalize_session_fields cfg now
                (flush (stamp_end now (set_status CANCELLED s)) db)
                (stamp_end now (set_status CANCELLED s))) as (H1 & _).
    cbv zeta in H1. rewrite H1.
    destruct (stamp_end_fields now (set_status CANCELLED s)) as (G1 & _).
    rewrite G1. reflexivity.
  - destruct (finalize_session_fields cfg now db s) as (H1 & _). exact H1.
  - intros Hok.
    destruct (run_agent_cases cfg c now db s) as [(Hr & _)|(s1 & _ & Hs & Hst & _)];
      [congruence|].
    rewrite Hs. destruct (stamp_end_fields now s1) as (H1 & _). rewrite H1. exact Hst.
Qed.

Lemma terminal_status_is_not_protected_witness :
  status (out_session (run_agent (rt := some_builtins) settings quiet_container
                         60 fresh_db (running_session "s" "u"))) = COMPLETED
  \/ status (out_session (run_agent (rt := some_builtins) settings quiet_container
                            60 fresh_db (running_session "s" "u"))) = FAILED.
Proof.
  refine (proj2 (proj2 (terminal_status_is_not_protected some_builtins settings
                          quiet_container 60 fresh_db (running_session "s" "u"))) _).
  vm_compute. reflexivity.
Defined.

(** C6 fails as stated: a cancellation request on a session that has
    completed turns it into a cancelled one. *)
Lemma cancel_leaves_terminal_status :
  status (finished_session 120) = COMPLETED
  /\ terminal (status (finished_session 120)) = true
  /\ status (snd (cancel_session settings 500 fresh_db (finished_session 120))) = CANCELLED.
Proof. vm_compute. repeat split. Qed.

(** ** Integration: the commit and push step *)






(** ** The event log *)

Lemma track_events_log (db : DB) (sid : string) (counter : Z) (evs : list AgentEvent) :
  db_events (fst (track_events db sid counter evs))
  = (db_events db ++ tracked sid counter evs)%list.
Proof.
  revert db counter. induction evs as [|[kind text] evs IH]; intros db counter; simpl.
  - rewrite app_nil_r. reflexivity.
  - rewrite IH. simpl. rewrite <- app_assoc. reflexivity.
Qed.

Lemma tracked_for_session (sid : string) (counter : Z) (evs : list AgentEvent) :
  for_session sid (tracked sid counter evs).
Proof.
  revert counter. induction evs as [|[kind text] evs IH]; intros counter; simpl.
  - constructor.
  - constructor; [reflexivity|apply IH].
Qed.

Lemma tracked_bounds (sid : string) (counter : Z) (evs : list AgentEvent) :
  Forall (fun n => counter <= n < counter + Z.of_nat (length evs))
    (map sequence (tracked sid counter evs)).
Proof.
  revert counter. induction evs as [|[kind text] evs IH]; intros counter; simpl.
  - constructor.
  - constructor; [simpl; lia|].
    eapply List.Forall_impl; [|apply IH]. simpl. intros n Hn. lia.
Qed.

Lemma tracked_increasing (sid : string) (counter : Z) (evs : list AgentEvent) :
  increasing (tracked sid counter evs).
Proof.
  unfold increasing. revert counter.
  induction evs as [|[kind text] evs IH]; intros counter; simpl.
  - constructor.
  - constructor; [apply IH|].
    eapply List.Forall_impl; [|apply tracked_bounds]. simpl. intros n Hn. lia.
Qed.

Lemma appends_nothing (allowed : Z -> Prop) (sid : string) (db db' : DB) :
  db_events db' = db_events db -> appends allowed sid db db'.
Proof.
  intros H. exists []. rewrite app_nil_r.
  repeat split; try constructor. exact H.
Qed.

Lemma start_session_appends (created : Result ContainerInfo) (now : Q)
    (db : DB) (s : DevSession) :
  appends (fun n => 1 <= n <= 2) (id s) db (out_db (start_session created now db s)).
Proof.
  unfold start_session.
  destruct (db_repositories db !! repository_id s); [|apply appends_nothing; reflexivity].
  destruct created as [info|e].
  - eexists [_; _]. simpl. rewrite <- app_assoc. split; [reflexivity|].
    split; [repeat constructor|].
    split; [unfold increasing; simpl; repeat constructor; lia|].
    repeat constructor; simpl; lia.
  - eexists [_]. simpl. split; [reflexivity|].
    split; [repeat constructor|].
    split; [unfold increasing; simpl; repeat constructor|].
    repeat constructor; simpl; lia.
Qed.

(** The rows [after_agent] appends carry the counter and its successor. *)
Lemma after_agent_appends (c : Container) (result : RunResult) (counter : Z)
    (db : DB) (s : DevSession) :
  appends (fun n => counter <= n) (id s) db (fst (fst (after_agent c result counter db s))).
Proof.
  unfold after_agent. destruct (success result); [|apply appends_nothing; reflexivity].
  destruct (git_commit_and_push _ _ _) as [push|err].
  - eexists [_; _]. simpl. rewrite <- app_assoc. split; [reflexivity|].
    split; [repeat constructor|].
    split; [unfold increasing; simpl; repeat constructor; lia|].
    repeat constructor; simpl; lia.
  - destruct (Py.contains _ _).
    + eexists [_; _]. simpl. rewrite <- app_assoc. split; [reflexivity|].
      split; [repeat constructor|].
      split; [unfold increasing; simpl; repeat constructor; lia|].
      repeat constructor; simpl; lia.
    + eexists [_]. simpl. split; [reflexivity|].
      split; [repeat constructor|].
      split; [unfold increasing; simpl; repeat constructor|].
      repeat constructor; simpl; lia.
Qed.

Lemma increasing_app (l1 l2 : list SessionEvent) (bound : Z) :
  increasing l1 -> increasing l2 ->
  Forall (fun n => n < bound) (map sequence l1) ->
  Forall (fun n => bound <= n) (map sequence l2) ->
  increasing (l1 ++ l2).
Proof.
  unfold increasing. intros H1 H2 Hlt Hge. rewrite map_app.
  apply StronglySorted_app_2; [|assumption|assumption].
  intros x1 x2 Hx1 Hx2.
  rewrite Forall_forall in Hlt, Hge.
  specialize (Hlt x1 Hx1). specialize (Hge x2 Hx2). simpl in *. lia.
Qed.

Lemma run_agent_appends `{rt : PyBuiltins} (cfg : Settings) (c : Container) (now : Q)
    (db : DB) (s : DevSession) :
  appends (fun n => n = 5 \/ 10 <= n) (id s) db (out_db (run_agent cfg c now db s)).
Proof.
  unfold run_agent.
  destruct (container_id s) as [[|ch cid]|]; try (apply appends_nothing; reflexivity).
  destruct (run_task _ _ _ _ _) as [evs outcome].
  match goal with |- context [track_events ?d ?i ?n evs] =>
    pose proof (track_events_log d i n evs) as Hlog;
    pose proof (track_events_tables d i n evs) as (_ & _ & Hcount);
    destruct (track_events d i n evs) as [db1 counter] end.
  simpl in Hlog, Hcount.
  set (first := {| ev_session_id := id s; event_type := STATUS_CHANGE;
                   content := PStr "Claude Code agent started"; sequence := 5 |}) in *.
  assert (Hhead : increasing (first :: tracked (id s) 10 evs)
                  /\ Forall (fun n => n < counter) (map sequence (first :: tracked (id s) 10 evs))
                  /\ Forall (fun n => n = 5 \/ 10 <= n)
                       (map sequence (first :: tracked (id s) 10 evs))).
  { pose proof (tracked_bounds (id s) 10 evs) as Hb.
    split; [|split].
    - unfold increasing. simpl. constructor; [apply tracked_increasing|].
      eapply List.Forall_impl; [|exact Hb]. simpl. intros n Hn. lia.
    - simpl. constructor; [lia|].
      eapply List.Forall_impl; [|exact Hb]. simpl. intros n Hn. lia.
    - simpl. constructor; [auto|].
      eapply List.Forall_impl; [|exact Hb]. simpl. intros n Hn. lia. }
  destruct Hhead as (Hinc & Hlt & Hallowed).
  assert (Hsid : for_session (id s) (first :: tracked (id s) 10 evs)).
  { constructor; [reflexivity|apply tracked_for_session]. }
  destruct outcome as [result|e].
  - pose proof (after_agent_appends c result counter db1 (set_status AGENT_WORKING s))
      as (news & Hev & Hfor & Hinc' & Hge).
    destruct (after_agent _ _ _ _ _) as [[db2 s2] raised]. simpl in Hev, Hfor.
    exists ((first :: tracked (id s) 10 evs) ++ news)%list.
    simpl out_db. simpl db_events at 1. rewrite Hev, Hlog. simpl db_events.
    split; [rewrite <- !app_assoc; reflexivity|].
    split; [apply Forall_app; split; assumption|].
    split; [apply (increasing_app _ _ counter); assumption|].
    rewrite map_app. apply Forall_app. split; [assumption|].
    eapply List.Forall_impl; [|exact Hge]. simpl. intros n Hn. right.
    rewrite Forall_forall in Hlt. lia.
  - exists (first :: tracked (id s) 10 evs).
    simpl out_db. simpl db_events at 1. rewrite Hlog. simpl db_events.
    split; [rewrite <- !app_assoc; reflexivity|]. auto.
Qed.

Lemma appends_weaken (A B : Z -> Prop) (sid : string) (db db' : DB) :
  (forall n, A n -> B n) -> appends A sid db db' -> appends B sid db db'.
Proof.
  intros HAB (news & Hev & Hfor & Hinc & Hall). exists news.
  repeat split; try assumption. eapply List.Forall_impl; [|exact Hall]. exact HAB.
Qed.

Lemma appends_same_log (A : Z -> Prop) (sid : string) (db db1 db2 : DB) :
  db_events db2 = db_events db1 -> appends A sid db db1 -> appends A sid db db2.
Proof.
  intros Heq (news & Hev & H). exists news. rewrite Heq. split; assumption.
Qed.

Lemma appends_then (A B : Z -> Prop) (bound : Z) (sid : string) (db db1 db2 : DB) :
  (forall n, A n -> n < bound) -> (forall n, B n -> bound <= n) ->
  appends A sid db db1 -> appends B sid db1 db2 ->
  appends (fun n => A n \/ B n) sid db db2.
Proof.
  intros HA HB (n1 & He1 & Hf1 & Hi1 & Ha1) (n2 & He2 & Hf2 & Hi2 & Ha2).
  exists (n1 ++ n2)%list. rewrite He2, He1, <- app_assoc.
  split; [reflexivity|]. split; [apply Forall_app; split; assumption|].
  split.
  - apply (increasing_app _ _ bound); try assumption.
    + eapply List.Forall_impl; [|exact Ha1]. exact HA.
    + eapply List.Forall_impl; [|exact Ha2]. exact HB.
  - rewrite map_app. apply Forall_app. split.
    + eapply List.Forall_impl; [|exact Ha1]. auto.
    + eapply List.Forall_impl; [|exact Ha2]. auto.
Qed.

Lemma pipeline_failed_log (cfg : Settings) (e : string) (now : Q) (db : DB) (sid : string) :
  db_events (pipeline_failed cfg e now db sid) = db_events db.
Proof.
  unfold pipeline_failed. destruct (db_sessions db !! sid) as [s|]; [|reflexivity].
  match goal with |- context [finalize_session cfg now ?d ?x] =>
    destruct (positive_duration x) as [dur|] eqn:Hd;
    [ destruct (finalize_positive cfg now d x dur Hd) as (_ & _ & He & _)
    | destruct (finalize_not_positive cfg now d x Hd) as (_ & He & _) ] end;
    rewrite He; reflexivity.
Qed.

Lemma finalize_log (cfg : Settings) (now : Q) (db : DB) (s : DevSession) :
  db_events (fst (finalize_session cfg now db s)) = db_events db.
Proof.
  destruct (positive_duration s) as [dur|] eqn:Hd.
  - destruct (finalize_positive cfg now db s dur Hd) as (_ & _ & He & _). exact He.
  - destruct (finalize_not_positive cfg now db s Hd) as (_ & He & _). exact He.
Qed.

Lemma start_session_id (created : Result ContainerInfo) (now : Q) (db : DB) (s : DevSession) :
  id (out_session (start_session created now db s)) = id s.
Proof.
  unfold start_session. destruct (db_repositories db !! repository_id s); [|reflexivity].
  destruct created; reflexivity.
Qed.

Lemma pipeline_appends `{rt : PyBuiltins} (cfg : Settings)
    (created : Result ContainerInfo) (c : Container) (t0 t1 t2 : Q)
    (db : DB) (sid : string) :
  exists x,
    appends pipeline_numbers x db (_run_session_pipeline cfg created c t0 t1 t2 db sid).
Proof.
  unfold _run_session_pipeline. destruct (db_sessions db !! sid) as [s|].
  2: { exists sid. apply appends_nothing. apply pipeline_failed_log. }
  exists (id s).
  pose proof (start_session_appends created t0 db s) as H1.
  pose proof (run_agent_appends cfg c t1 (out_db (start_session created t0 db s))
                (out_session (start_session created t0 db s))) as H2.
  rewrite start_session_id in H2.
  assert (H12 : appends pipeline_numbers (id s) db
                  (out_db (run_agent cfg c t1 (out_db (start_session created t0 db s))
                             (out_session (start_session created t0 db s))))).
  { apply (appends_then (fun n => 1 <= n <= 2) (fun n => n = 5 \/ 10 <= n) 5
             (id s) db (out_db (start_session created t0 db s))); try assumption.
    - intros n Hn. lia.
    - intros n Hn. lia. }
  destruct (out_raised (start_session created t0 db s)).
  { eapply appends_same_log; [apply pipeline_failed_log|].
    eapply appends_weaken; [|exact H1]. unfold pipeline_numbers. auto. }
  destruct (out_raised (run_agent _ _ _ _ _)).
  { eapply appends_same_log; [apply pipeline_failed_log|]. exact H12. }
  eapply appends_same_log; [apply finalize_log|]. exact H12.
Qed.

Lemma filter_for_session (sid x : string) (news : list SessionEvent) :
  for_session x news ->
  List.filter (fun e => String.eqb (ev_session_id e) sid) news
  = if String.eqb x sid then news else [].
Proof.
  induction 1 as [|e news He _ IH]; simpl.
  - destruct (String.eqb x sid); reflexivity.
  - rewrite He, IH. destruct (String.eqb x sid); reflexivity.
Qed.

Lemma events_of_appends (A : Z -> Prop) (x sid : string) (db db' : DB) :
  appends A x db db' ->
  exists news, events_of db' sid = (events_of db sid ++ news)%list
               /\ increasing news /\ Forall A (map sequence news).
Proof.
  intros (news & Hev & Hfor & Hinc & Hall). unfold events_of.
  rewrite Hev, List.filter_app, (filter_for_session sid x news Hfor).
  destruct (String.eqb x sid).
  - exists news. auto.
  - exists []. repeat split; constructor.
Qed.

(** *** The live feed *)

Lemma increasing_filter (f : SessionEvent -> bool) (l : list SessionEvent) :
  increasing l -> increasing (List.filter f l).
Proof.
  unfold increasing. induction l as [|e l IH]; simpl; intros H; [constructor|].
  apply StronglySorted_inv in H. destruct H as [Hl He].
  destruct (f e); simpl; [|apply IH; exact Hl].
  constructor; [apply IH; exact Hl|].
  rewrite List.Forall_forall in *. intros n Hn. apply He.
  apply in_map_iff in Hn. destruct Hn as (e' & <- & Hin).
  apply List.filter_In in Hin. apply in_map. tauto.
Qed.

Lemma increasing_injective (l : list SessionEvent) (a b : SessionEvent) :
  increasing l -> In a l -> In b l -> sequence a = sequence b -> a = b.
Proof.
  unfold increasing. induction l as [|e l IH]; simpl; intros H Ha Hb Heq; [tauto|].
  apply StronglySorted_inv in H. destruct H as [Hl He].
  rewrite List.Forall_forall in He.
  destruct Ha as [<-|Ha], Hb as [<-|Hb]; auto.
  - specialize (He (sequence b) (in_map _ _ _ Hb)). lia.
  - specialize (He (sequence a) (in_map _ _ _ Ha)). lia.
Qed.

Lemma increasing_sorted (l : list SessionEvent) : increasing l -> Sorted seq_le l.
Proof.
  unfold increasing. induction l as [|e l IH]; simpl; intros H; [constructor|].
  apply StronglySorted_inv in H. destruct H as [Hl He].
  constructor; [apply IH; exact Hl|].
  destruct l as [|e' l]; constructor.
  inversion He; subst. unfold seq_le. lia.
Qed.

(** Sorting a log whose sequence numbers increase changes nothing. *)
Lemma order_by_sequence_increasing (l : list SessionEvent) :
  increasing l -> order_by_sequence l = l.
Proof.
  intros Hinc. unfold order_by_sequence.
  apply (Sorted_unique_strong seq_le).
  - intros a b Ha Hb Hab Hba.
    apply (increasing_injective l); [exact Hinc| | |unfold seq_le in *; lia].
    + apply list_elem_of_In. rewrite <- (merge_sort_Permutation seq_le l). exact Ha.
    + apply list_elem_of_In. exact Hb.
  - apply Sorted_merge_sort. apply _.
  - apply increasing_sorted. exact Hinc.
  - apply merge_sort_Permutation.
Qed.

(** A round of the feed on any log: the rows with a greater sequence
    number, no other, ordered by sequence number. *)
Lemma poll_selects (db : DB) (sid : string) (cursor : Z) :
  Sorted seq_le (fst (poll db sid cursor))
  /\ (forall e, In e (fst (poll db sid cursor))
                <-> In e (events_of db sid) /\ cursor < sequence e).
Proof.
  unfold poll, order_by_sequence. simpl. split.
  - apply Sorted_merge_sort. apply _.
  - intros e. rewrite <- !list_elem_of_In, (merge_sort_Permutation seq_le).
    rewrite !list_elem_of_In, List.filter_In, Z.ltb_lt. reflexivity.
Qed.

Lemma increasing_NoDup (l : list SessionEvent) : increasing l -> List.NoDup (map sequence l).
Proof.
  unfold increasing. generalize (map sequence l). clear l.
  induction l as [|n l IH]; intros H; [constructor|].
  apply StronglySorted_inv in H. destruct H as [Hl Hn].
  constructor; [|apply IH; exact Hl].
  intros Hin. rewrite List.Forall_forall in Hn. specialize (Hn n Hin). lia.
Qed.

(** C4 (as the code has it). Take a session whose log holds only what
    [create_session] wrote (sequence numbers below 1, increasing). After an
    execution of the pipeline the sequence numbers of its rows are strictly
    increasing in the order they were written, hence unique, but not
    contiguous: they are taken from 0, 1, 2, 5 and 10 onwards, never from
    3, 4 or 6 to 9. A round of the live feed with cursor [N] sends exactly
    the rows with a sequence number above [N], in increasing order. The
    cursor of a connection starts at 0 whatever the consumer has seen: a
    consumer that connects is sent every row numbered above 0. *)
Theorem event_sequences_increase_with_gaps
    (rt : PyBuiltins) (cfg : Settings) (created : Result ContainerInfo) (c : Container)
    (t0 t1 t2 : Q) (db : DB) (sid : string) :
  increasing (events_of db sid) ->
  Forall (fun n => n < 1) (map sequence (events_of db sid)) ->
  let db' := _run_session_pipeline cfg created c t0 t1 t2 db sid in
  let log := events_of db' sid in
  increasing log
  /\ List.NoDup (map sequence log)
  /\ Forall (fun n => n <> 3 /\ n <> 4 /\ ~ (6 <= n <= 9)) (map sequence log)
  /\ (forall cursor,
        fst (poll db' sid cursor)
        = List.filter (fun e => cursor <? sequence e) log)
  /\ (forall cursor e,
        In e (fst (poll db' sid cursor)) <-> In e log /\ cursor < sequence e)
  /\ session_websocket sid [db'] = [List.filter (fun e => 0 <? sequence e) log].
Proof.
  intros Hinc Hold db' log.
  destruct (pipeline_appends cfg created c t0 t1 t2 db sid) as (x & Happ).
  destruct (events_of_appends _ x sid db db' Happ) as (news & Hlog & Hninc & Hnall).
  fold log in Hlog.
  assert (Hlinc : increasing log).
  { rewrite Hlog. apply (increasing_app _ _ 1); try assumption.
    eapply List.Forall_impl; [|exact Hnall]. unfold pipeline_numbers. intros n Hn. lia. }
  assert (Hpoll : forall cursor,
            fst (poll db' sid cursor) = List.filter (fun e => cursor <? sequence e) log).
  { intros cursor. unfold poll. simpl. fold log.
    apply order_by_sequence_increasing. apply increasing_filter. exact Hlinc. }
  split; [exact Hlinc|]. split; [apply increasing_NoDup; exact Hlinc|].
  split; [|split; [|split]].
  - rewrite Hlog, map_app. apply Forall_app. split.
    + eapply List.Forall_impl; [|exact Hold]. simpl. intros n Hn. lia.
    + eapply List.Forall_impl; [|exact Hnall]. unfold pipeline_numbers. intros n Hn. lia.
  - exact Hpoll.
  - intros cursor e. apply poll_selects.
  - unfold session_websocket, feed_rounds. specialize (Hpoll 0).
    destruct (poll db' sid 0) as [sent cursor]. simpl in Hpoll. rewrite Hpoll.
    destruct (feed_ends db' sid); reflexivity.
Qed.

Lemma event_sequences_increase_with_gaps_witness :
  increasing
    (events_of (_run_session_pipeline (rt := some_builtins) settings (Ok a_container_info)
                  clean_tree_container 0 60 61 fresh_db "s") "s").
Proof.
  refine (proj1 (event_sequences_increase_with_gaps some_builtins settings
                   (Ok a_container_info) clean_tree_container 0 60 61 fresh_db "s" _ _)).
  - unfold increasing. vm_compute. repeat constructor.
  - vm_compute. repeat constructor.
Defined.

(** C4 fails as stated: the log of a successful run is numbered
    0, 1, 2, 5, 10, ..., 15, so the numbers 3, 4 and 6 to 9 are missing; and
    a consumer that connects again after it has seen the rows up to 12 is
    sent the rows from 1 on, not the three rows above 12. *)
Lemma event_sequences_have_gaps :
  map sequence (events_of fresh_db "s") = [0]
  /\ forall rt : PyBuiltins,
       let db' := _run_session_pipeline settings (Ok a_container_info)
                    clean_tree_container 0 60 61 fresh_db "s" in
       map sequence (events_of db' "s") = [0; 1; 2; 5; 10; 11; 12; 13; 14; 15]
       /\ map (map sequence) (session_websocket "s" [db'])
          = [[1; 2; 5; 10; 11; 12; 13; 14; 15]]
       /\ map sequence (fst (poll db' "s" 12)) = [13; 14; 15].
Proof.
  split; [vm_compute; reflexivity|]. intros rt. vm_compute. repeat split.
Qed.

(** ** Streaming exec and the stream decoder *)

Lemma split_not_nil (s : string) : Py.split Py.newline s <> [].
Proof.
  destruct s as [|c rest]; simpl; [discriminate|].
  destruct (Ascii.eqb c Py.newline); [discriminate|].
  destruct (Py.split Py.newline rest); discriminate.
Qed.

(** [drain] is the inner loop of [_run_streaming]: while the buffer holds a
    newline, the text before the first one is put on the queue and the rest
    is the new buffer. *)
Lemma drain_is_the_loop (buffer : string) :
  drain buffer
  = match Py.split_once Py.newline buffer with
    | Some (line, rest) => (line :: fst (drain rest), snd (drain rest))
    | None => ([], buffer)
    end.
Proof.
  unfold drain. induction buffer as [|c rest IH]; [reflexivity|].
  simpl Py.split. simpl Py.split_once.
  destruct (Ascii.eqb c Py.newline).
  - pose proof (split_not_nil rest) as Hne.
    destruct (Py.split Py.newline rest) as [|a l]; [congruence|]. reflexivity.
  - pose proof (split_not_nil rest) as Hne.
    destruct (Py.split Py.newline rest) as [|a l]; [congruence|].
    destruct (Py.split_once Py.newline rest) as [[line rest']|].
    + destruct l as [|b l]; [discriminate|].
      simpl in IH. injection IH as Ha Hl Hlast. subst a.
      simpl. rewrite Hl, Hlast. reflexivity.
    + destruct l as [|b l]; [|discriminate].
      simpl in IH. injection IH as Hrest. subst a. reflexivity.
Qed.

Section Stream.

Context {rt : PyBuiltins}.

Lemma int_reads_back_all : forallb int_reads_back exit_statuses = true.
Proof. vm_compute. reflexivity. Qed.

(** [int] reads back what [str] printed, for every exit status. *)
Lemma py_int_str_of_int (n : Z) : 0 <= n <= 255 -> py_int (Py.str_of_int n) = Ok n.
Proof.
  intros Hn. pose proof int_reads_back_all as H.
  rewrite forallb_forall in H.
  assert (Hin : In n exit_statuses).
  { unfold exit_statuses. apply in_map_iff. exists (Z.to_nat n).
    split; [lia|]. apply in_seq. lia. }
  specialize (H n Hin). unfold int_reads_back in H.
  destruct (py_int (Py.str_of_int n)) as [m|]; [|discriminate].
  apply Z.eqb_eq in H. congruence.
Qed.

Lemma startswith_app (p x : string) : Py.startswith p (p ++ x) = true.
Proof.
  unfold Py.startswith. induction p as [|a p IH]; simpl.
  - destruct x; reflexivity.
  - destruct (ascii_dec a a); [exact IH|congruence].
Qed.

Lemma handle_exit_sentinel (on_event : bool) (n : Z) (st : StreamState) :
  0 <= n <= 255 ->
  handle_line on_event (EXIT_CODE_PREFIX ++ Py.str_of_int n) st
  = Next (with_exit_code n st) [].
Proof.
  intros Hn. unfold handle_line.
  rewrite startswith_app.
  change (Py.split_once ":" (EXIT_CODE_PREFIX ++ Py.str_of_int n))
    with (Some ("__EXIT_CODE__", Py.str_of_int n)).
  cbv iota beta. rewrite (py_int_str_of_int n Hn). reflexivity.
Qed.

Lemma stream_loop_app (on_event : bool) (l1 l2 : list string) (st : StreamState) :
  stream_loop on_event (l1 ++ l2) st
  = match stream_loop on_event l1 st with
    | Next st' evs => then_step evs (stream_loop on_event l2 st')
    | stop => stop
    end.
Proof.
  revert st. induction l1 as [|line l1 IH]; intros st; simpl.
  - destruct (stream_loop on_event l2 st); reflexivity.
  - destruct (handle_line on_event line st) as [st1 evs1| |]; try reflexivity.
    rewrite IH. destruct (stream_loop on_event l1 st1) as [st2 evs2| |]; try reflexivity.
    destruct (stream_loop on_event l2 st2); simpl; rewrite app_assoc; reflexivity.
Qed.

Lemma handle_message_no_return (on_event : bool) (parsed : list (string * pyval))
    (st : StreamState) (res : RunResult) (evs : list AgentEvent) :
  handle_message on_event parsed st <> Return res evs.
Proof.
  unfold handle_message. repeat case_match; discriminate.
Qed.

Lemma handle_line_return (on_event : bool) (line : string) (st : StreamState)
    (res : RunResult) (evs : list AgentEvent) :
  handle_line on_event line st = Return res evs -> failed_run res.
Proof.
  unfold handle_line.
  destruct (Py.startswith EXIT_CODE_PREFIX line).
  { repeat case_match; discriminate. }
  destruct (Py.startswith EXEC_ERROR_PREFIX line).
  { destruct (Py.split_once ":" line) as [[a b]|]; [|discriminate].
    intros [= <- <-]. split; reflexivity. }
  destruct (_parse_stream_line line) as [[v|]|msg]; [|discriminate|discriminate].
  destruct v; try discriminate.
  intros H. exfalso. exact (handle_message_no_return _ _ _ _ _ H).
Qed.

Lemma stream_loop_return (on_event : bool) (lines : list string) (st : StreamState)
    (res : RunResult) (evs : list AgentEvent) :
  stream_loop on_event lines st = Return res evs -> failed_run res.
Proof.
  revert st evs. induction lines as [|line lines IH]; intros st evs; simpl; [discriminate|].
  destruct (handle_line on_event line st) as [st1 evs1|res1 evs1|] eqn:Hl.
  - destruct (stream_loop on_event lines st1) as [| res2 evs2 |] eqn:Hr; try discriminate.
    intros [= <- <-]. exact (IH _ _ Hr).
  - intros [= <- <-]. exact (handle_line_return _ _ _ _ _ Hl).
  - discriminate.
Qed.

(** Whether a line is got past does not depend on the state it finds. *)
Lemma handle_message_any_state (on_event : bool) (parsed : list (string * pyval))
    (st st' : StreamState) :
  (exists s e, handle_message on_event parsed st = Next s e) ->
  exists s e, handle_message on_event parsed st' = Next s e.
Proof.
  unfold handle_message. intros (s & e & H). revert H.
  repeat case_match; intros; try discriminate; eauto.
Qed.

Lemma handle_line_any_state (on_event : bool) (line : string) (st : StreamState) :
  passes on_event line = true -> exists s e, handle_line on_event line st = Next s e.
Proof.
  unfold passes, handle_line.
  destruct (Py.startswith EXIT_CODE_PREFIX line).
  { destruct (Py.split_once ":" line) as [[a b]|]; [|discriminate].
    destruct (py_int b); [eauto|discriminate]. }
  destruct (Py.startswith EXEC_ERROR_PREFIX line).
  { destruct (Py.split_once ":" line) as [[a b]|]; discriminate. }
  destruct (_parse_stream_line line) as [[v|]|msg]; [|eauto|discriminate].
  destruct v; try discriminate.
  intros H. apply (handle_message_any_state on_event fields initial_state st).
  destruct (handle_message on_event fields initial_state); try discriminate. eauto.
Qed.

Lemma stream_loop_passes (on_event : bool) (lines : list string) (st : StreamState) :
  forallb (passes on_event) lines = true ->
  exists s e, stream_loop on_event lines st = Next s e.
Proof.
  revert st. induction lines as [|line lines IH]; intros st; simpl; [eauto|].
  intros H. apply andb_true_iff in H. destruct H as [H1 H2].
  destruct (handle_line_any_state on_event line st H1) as (s1 & e1 & ->).
  destruct (IH s1 H2) as (s2 & e2 & ->). eauto.
Qed.

End Stream.

Lemma loop_ends_with_exit `{rt : PyBuiltins} (on_event : bool) (out : list string) (n : Z)
    (st0 st : StreamState) (evs : list AgentEvent) :
  0 <= n <= 255 ->
  stream_loop on_event (out ++ [EXIT_CODE_PREFIX ++ Py.str_of_int n]) st0 = Next st evs ->
  st_exit_code st = n.
Proof.
  intros Hn. rewrite stream_loop_app.
  destruct (stream_loop on_event out st0) as [st1 evs1| |]; try discriminate.
  simpl. rewrite (handle_exit_sentinel on_event n st1 Hn). simpl.
  intros [= <- _]. reflexivity.
Qed.

(** Every dictionary [_stream_command] returns has [success] true exactly
    when its [exit_code] is 0. *)
Lemma success_iff_exit_code_zero `{rt : PyBuiltins} (on_event : bool) (lines : list string)
    (res : RunResult) :
  snd (_stream_command on_event lines) = Ok res ->
  (success res = true <-> res_exit_code res = 0).
Proof.
  unfold _stream_command.
  destruct (stream_loop on_event lines initial_state) as [st evs|res' evs|m st evs] eqn:Hloop.
  - destruct (py_add _ _); [|discriminate]. simpl. intros [= <-]. simpl.
    apply Z.eqb_eq.
  - simpl. intros [= <-]. destruct (stream_loop_return _ _ _ _ _ Hloop) as [Hs He].
    rewrite Hs, He. split; [discriminate|lia].
  - destruct (py_add _ _); [|discriminate]. simpl. intros [= <-]. simpl.
    split; [discriminate|lia].
Qed.

(** C7 (as the code has it). Take a streamed command that ends with exit
    status [n]. The generator yields the lines of the output and then the
    exit-code sentinel carrying [n]: the sentinel comes last and the
    generator adds no exec-error sentinel. Every result the runner returns
    has [success] true exactly when its [exit_code] is 0, and a status other
    than 0 never gives [success]. When the loop gets past every line of the
    output (none starts like an exec-error sentinel, none makes the decoder
    raise) the result carries [n] itself; for status 3 that is
    [success = false] and [exit_code = 3]. *)
Theorem streamed_exit_status
    (rt : PyBuiltins) (on_event : bool) (d : DockerExec) (n : Z) :
  ending d = Inspected (ExitCode n) -> 0 <= n <= 255 ->
  let lines := exec_streaming d in
  let outcome := snd (_stream_command on_event lines) in
  lines = (output_lines (texts d) ++ [(EXIT_CODE_PREFIX ++ Py.str_of_int n)%string])%list
  /\ (forall res, outcome = Ok res -> (success res = true <-> res_exit_code res = 0))
  /\ (n <> 0 -> forall res, outcome = Ok res -> success res = false)
  /\ (forallb (passes on_event) (output_lines (texts d)) = true ->
      forall res, outcome = Ok res ->
        res_exit_code res = n /\ success res = (n =? 0) /\ tool_uses res <> None).
Proof.
  intros Hend Hn lines outcome.
  assert (Hlines : lines
            = (output_lines (texts d) ++ [(EXIT_CODE_PREFIX ++ Py.str_of_int n)%string])%list).
  { unfold lines, exec_streaming. rewrite Hend. reflexivity. }
  split; [exact Hlines|]. split; [|split].
  - intros res. apply success_iff_exit_code_zero.
  - intros Hn0 res. unfold outcome, _stream_command. rewrite Hlines.
    destruct (stream_loop on_event _ initial_state) as [st evs|res' evs|m st evs] eqn:Hloop.
    + pose proof (loop_ends_with_exit _ _ _ _ _ _ Hn Hloop) as He.
      destruct (py_add _ _); [|discriminate]. simpl. intros [= <-]. simpl.
      rewrite He. apply Z.eqb_neq. exact Hn0.
    + simpl. intros [= <-]. apply (stream_loop_return _ _ _ _ _ Hloop).
    + destruct (py_add _ _); [|discriminate]. simpl. intros [= <-]. reflexivity.
  - intros Hpass res. unfold outcome, _stream_command. rewrite Hlines.
    destruct (stream_loop_passes on_event _ initial_state Hpass) as (s1 & e1 & Hout).
    rewrite stream_loop_app, Hout. simpl.
    rewrite (handle_exit_sentinel on_event n s1 Hn). simpl.
    destruct (py_add _ _); [|discriminate]. simpl. intros [= <-]. simpl.
    repeat split. discriminate.
Qed.

Lemma streamed_exit_status_witness :
  snd (_stream_command (rt := some_builtins) true
         (exec_streaming {| chunks := [hello_line ++ nl; "build succeeded"];
                            ending := Inspected (ExitCode 3) |}))
  = Ok {| success := false; summary := "build succeeded"; res_tokens_used := PInt 0;
          res_exit_code := 3; tool_uses := Some 0 |}
  /\ res_exit_code {| success := false; summary := "build succeeded";
                      res_tokens_used := PInt 0; res_exit_code := 3;
                      tool_uses := Some 0 |} = 3.
Proof.
  split; [vm_compute; reflexivity|].
  refine (proj1 (proj2 (proj2 (proj2
    (streamed_exit_status some_builtins true
       {| chunks := [hello_line ++ nl; "build succeeded"];
          ending := Inspected (ExitCode 3) |} 3 eq_refl _))) _ _ _)).
  - lia.
  - vm_compute. reflexivity.
  - vm_compute. reflexivity.
Defined.

(** C7 fails as stated. A command that prints the line [42] and exits with
    status 3 makes the decoder raise on the number, and the runner reports
    exit code -1; a command that prints a line starting like the exec-error
    sentinel puts that line in the stream, and the runner reports an
    execution error with exit code -1. *)
Lemma exit_status_lost :
  exec_streaming {| chunks := ["42" ++ nl]; ending := Inspected (ExitCode 3) |}
  = ["42"; "__EXIT_CODE__:3"]
  /\ exec_streaming {| chunks := ["__EXEC_ERROR__:not really" ++ nl];
                       ending := Inspected (ExitCode 3) |}
     = ["__EXEC_ERROR__:not really"; "__EXIT_CODE__:3"]
  /\ forall rt : PyBuiltins,
       snd (_stream_command true ["42"; "__EXIT_CODE__:3"])
       = Ok {| success := false; summary := "'int' object has no attribute 'get'";
               res_tokens_used := PInt 0; res_exit_code := -1; tool_uses := None |}
       /\ snd (_stream_command true ["__EXEC_ERROR__:not really"; "__EXIT_CODE__:3"])
          = Ok {| success := false; summary := "Execution error: not really";
                  res_tokens_used := PInt 0; res_exit_code := -1; tool_uses := None |}.
Proof.
  split; [vm_compute; reflexivity|]. split; [vm_compute; reflexivity|].
  intros rt. split; vm_compute; reflexivity.
Qed.

(** ** The decoder on single lines *)

Section Lines.

Context {rt : PyBuiltins}.

Lemma parse_bare_text (line : string) :
  Py.nonempty (Py.strip line) = true ->
  Json.loads (S json_depth) max_str_digits (Py.strip line) = Json.JSONDecodeError ->
  Py.startswith "{" (Py.strip line) = false ->
  _parse_stream_line line
  = Ok (Some (PDict [("type", PStr "assistant"); ("content", PStr (Py.strip line))])).
Proof.
  intros Hne Hbad Hbrace. unfold _parse_stream_line. rewrite Hne, Hbad, Hbrace. reflexivity.
Qed.

Lemma handle_bare_text (on_event : bool) (line : string) (st : StreamState) :
  Py.nonempty (Py.strip line) = true ->
  Json.loads (S json_depth) max_str_digits (Py.strip line) = Json.JSONDecodeError ->
  Py.startswith "{" (Py.strip line) = false ->
  Py.startswith EXIT_CODE_PREFIX line = false ->
  Py.startswith EXEC_ERROR_PREFIX line = false ->
  handle_line on_event line st
  = Next (with_result_text (Py.strip line) st)
         (emit on_event "agent_message" (PStr (Py.strip line))).
Proof.
  intros Hne Hbad Hbrace Hexit Herr.
  unfold handle_line. rewrite Hexit, Herr, (parse_bare_text line Hne Hbad Hbrace).
  unfold handle_message, _extract_text. simpl.
  unfold or_text. rewrite Hne. reflexivity.
Qed.

(** Plain text that is not mistaken for a sentinel is a line the loop gets
    past. *)
Lemma bare_text_passes (on_event : bool) (line : string) :
  Py.nonempty (Py.strip line) = true ->
  Json.loads (S json_depth) max_str_digits (Py.strip line) = Json.JSONDecodeError ->
  Py.startswith "{" (Py.strip line) = false ->
  Py.startswith EXIT_CODE_PREFIX line = false ->
  Py.startswith EXEC_ERROR_PREFIX line = false ->
  passes on_event line = true.
Proof.
  intros Hne Hbad Hbrace Hexit Herr. unfold passes.
  rewrite (handle_bare_text on_event line initial_state Hne Hbad Hbrace Hexit Herr).
  reflexivity.
Qed.

(** The first object of a line can always be opened, and [hello_line] has
    no other: it decodes whatever the limits are. *)
Lemma loads_hello_line :
  Json.loads (S json_depth) max_str_digits hello_line
  = Json.Decoded (PDict [("type", PStr "assistant"); ("content", PStr "hello")]).
Proof. reflexivity. Qed.

End Lines.

(** C8. A line that is not empty once stripped of the white space around
    it, on which [json.loads] raises [JSONDecodeError] and that does not
    start with a brace is treated as assistant text: it decodes to an
    assistant message whose content is the stripped line, and the loop
    forwards exactly one agent-message event with that content and makes it
    the result text. In particular the line [build succeeded] yields one
    agent-message event with content [build succeeded], and the line
    [{"type":"assistant","content":"hello"}] yields one agent-message event
    with content [hello]. *)
Theorem decoder_lines (rt : PyBuiltins) (line : string) (st : StreamState) :
  Py.nonempty (Py.strip line) = true ->
  Json.loads (S json_depth) max_str_digits (Py.strip line) = Json.JSONDecodeError ->
  Py.startswith "{" (Py.strip line) = false ->
  _parse_stream_line line
  = Ok (Some (PDict [("type", PStr "assistant"); ("content", PStr (Py.strip line))]))
  /\ (Py.startswith EXIT_CODE_PREFIX line = false ->
      Py.startswith EXEC_ERROR_PREFIX line = false ->
      handle_line true line st
      = Next (with_result_text (Py.strip line) st)
             [("agent_message", PStr (Py.strip line))])
  /\ handle_line true "build succeeded" st
     = Next (with_result_text "build succeeded" st)
            [("agent_message", PStr "build succeeded")]
  /\ Json.loads (S json_depth) max_str_digits hello_line
     = Json.Decoded (PDict [("type", PStr "assistant"); ("content", PStr "hello")])
  /\ handle_line true hello_line st
     = Next (with_result_text "hello" st) [("agent_message", PStr "hello")].
Proof.
  intros Hne Hbad Hbrace.
  split; [exact (parse_bare_text line Hne Hbad Hbrace)|]. split; [|split; [|split]].
  - intros Hexit Herr. exact (handle_bare_text true line st Hne Hbad Hbrace Hexit Herr).
  - reflexivity.
  - apply loads_hello_line.
  - reflexivity.
Qed.

Lemma decoder_lines_witness :
  handle_line (rt := some_builtins) true "  [warn] disk almost full  " initial_state
  = Next (with_result_text "[warn] disk almost full" initial_state)
         [("agent_message", PStr "[warn] disk almost full")].
Proof.
  refine (proj1 (proj2 (decoder_lines some_builtins "  [warn] disk almost full  "
                          initial_state _ _ _)) _ _);
    vm_compute; reflexivity.
Defined.

(** The edges of the fallback. White space outside ASCII is stripped like
    any other, so a line of it is skipped and a line wrapped in it gives
    its text. A line on which [json.loads] raises something else than
    [JSONDecodeError], because it is nested deeper than the interpreter
    allows or holds an integer of more digits than [int] converts, is not
    text: the exception leaves [_parse_stream_line] and ends the loop. *)
Example lines_at_the_edges_of_the_fallback :
  _parse_stream_line (rt := some_builtins) no_break_space = Ok None
  /\ handle_line (rt := some_builtins) true
       (no_break_space ++ "build succeeded" ++ ideographic_space) initial_state
     = Next (with_result_text "build succeeded" initial_state)
            [("agent_message", PStr "build succeeded")]
  /\ _parse_stream_line (rt := some_builtins) (brackets 1100)
     = Raise "maximum recursion depth exceeded while decoding a JSON array from a unicode string"
  /\ handle_line (rt := some_builtins) true (brackets 1100) initial_state
     = Raised "maximum recursion depth exceeded while decoding a JSON array from a unicode string"
              initial_state []
  /\ handle_line (rt := some_builtins) true (ones 4300) initial_state
     = Raised "'int' object has no attribute 'get'" initial_state []
  /\ handle_line (rt := some_builtins) true (ones 4301) initial_state
     = Raised (Json.digits_message 4300 4301) initial_state [].
Proof. vm_compute. repeat split. Qed.
(** * Further properties

    What the code shows beyond the design document's claims, component by
    component: the lines a streamed exec yields, the runner, the commit
    step, the session queries and handlers, billing, the sweep of expired
    containers, and the live feed with its registry. *)

(** ** The lines of a streamed exec *)

Lemma append_assoc_r (a b c : string) : (a ++ b) ++ c = a ++ (b ++ c).
Proof.
  induction a as [|x a IH]; [reflexivity|].
  change (String x ((a ++ b) ++ c) = String x (a ++ (b ++ c))). rewrite IH. reflexivity.
Qed.

Lemma join_empty_cons (t : string) (rest : list string) :
  Py.join "" (t :: rest) = t ++ Py.join "" rest.
Proof.
  unfold Py.join. destruct rest as [|u rest]; simpl.
  - rewrite append_empty_r. reflexivity.
  - reflexivity.
Qed.

Lemma drain_empty : drain "" = ([], "").
Proof. reflexivity. Qed.

(** [drain] one character further to the left. *)
Lemma drain_cons (c : ascii) (z : string) :
  drain (String c z)
  = if Ascii.eqb c Py.newline then ("" :: fst (drain z), snd (drain z))
    else match fst (drain z) with
         | [] => ([], String c (snd (drain z)))
         | a :: r => (String c a :: r, snd (drain z))
         end.
Proof.
  unfold drain. simpl Py.split.
  pose proof (split_not_nil z) as Hne.
  destruct (Ascii.eqb c Py.newline).
  - destruct (Py.split Py.newline z) as [|a l]; [congruence|]. reflexivity.
  - destruct (Py.split Py.newline z) as [|a l]; [congruence|].
    destruct l as [|b l]; reflexivity.
Qed.

(** Draining a buffer that grew is draining what was left of it, grown. *)
Lemma drain_app (x y : string) :
  drain (x ++ y)
  = ((fst (drain x) ++ fst (drain (snd (drain x) ++ y)))%list,
     snd (drain (snd (drain x) ++ y))).
Proof.
  induction x as [|c x IH].
  - rewrite drain_empty. simpl. destruct (drain y); reflexivity.
  - change (String c x ++ y) with (String c (x ++ y)).
    rewrite (drain_cons c (x ++ y)), (drain_cons c x), IH.
    destruct (Ascii.eqb c Py.newline) eqn:Hc; [reflexivity|].
    cbn [fst snd].
    destruct (fst (drain x)) as [|a r]; cbn [fst snd app].
    + change (String c (snd (drain x)) ++ y) with (String c (snd (drain x) ++ y)).
      rewrite (drain_cons c (snd (drain x) ++ y)), Hc.
      destruct (fst (drain (snd (drain x) ++ y))); reflexivity.
    + reflexivity.
Qed.

(** What [drain] leaves in the buffer holds no newline. *)
Lemma drain_rest (x : string) : drain (snd (drain x)) = ([], snd (drain x)).
Proof.
  induction x as [|c x IH]; [reflexivity|].
  rewrite (drain_cons c x).
  destruct (Ascii.eqb c Py.newline) eqn:Hc; cbn [snd]; [exact IH|].
  destruct (fst (drain x)) as [|a r] eqn:Hf; cbn [snd]; [|exact IH].
  rewrite drain_cons, Hc, IH. reflexivity.
Qed.

(** The outer loop of [_run_streaming] drains the concatenation of the
    chunks. *)
Lemma feed_is_drain (buffer : string) (stream : list string) :
  drain buffer = ([], buffer) ->
  feed buffer stream = drain (buffer ++ Py.join "" stream).
Proof.
  revert buffer. induction stream as [|text rest IH]; intros buffer Hb.
  - simpl. rewrite append_empty_r. symmetry. exact Hb.
  - rewrite join_empty_cons, <- append_assoc_r, drain_app.
    cbn [feed]. destruct (drain (buffer ++ text)) as [lines buffer'] eqn:Hd.
    cbn [fst snd].
    assert (Hrest : drain buffer' = ([], buffer')).
    { pose proof (drain_rest (buffer ++ text)) as H. rewrite Hd in H. exact H. }
    rewrite (IH buffer' Hrest).
    destruct (drain (buffer' ++ Py.join "" rest)); reflexivity.
Qed.

Lemma output_lines_whole (stream : list string) :
  output_lines stream
  = let parts := Py.split Py.newline (Py.join "" stream) in
    (List.removelast parts
     ++ (if Py.nonempty (List.last parts "") then [List.last parts ""] else []))%list.
Proof.
  unfold output_lines. rewrite (feed_is_drain "" stream drain_empty).
  reflexivity.
Qed.

(** X1. The lines [exec_streaming] yields are the pieces between the
    newlines of the whole output of the process, each chunk decoded on its
    own, followed by the sentinel.  The piece after the last newline is
    yielded when it is not empty and the stream was read to its end; it is
    lost when reading the stream raised. *)
Theorem exec_streaming_lines (d : DockerExec) :
  let parts := Py.split Py.newline (Py.join "" (texts d)) in
  let complete := List.removelast parts in
  let tail := if Py.nonempty (List.last parts "") then [List.last parts ""] else [] in
  exec_streaming d
  = match ending d with
    | Inspected info =>
        (complete ++ tail ++ [(EXIT_CODE_PREFIX ++ exit_code_text info)%string])%list
    | RaisedAtInspect msg => (complete ++ tail ++ [(EXEC_ERROR_PREFIX ++ msg)%string])%list
    | RaisedInStream msg => (complete ++ [(EXEC_ERROR_PREFIX ++ msg)%string])%list
    end.
Proof.
  cbv zeta. unfold exec_streaming.
  destruct (ending d) as [info|msg|msg].
  - rewrite output_lines_whole. cbv zeta. rewrite <- app_assoc. reflexivity.
  - rewrite (feed_is_drain "" (texts d) drain_empty). reflexivity.
  - rewrite output_lines_whole. cbv zeta. rewrite <- app_assoc. reflexivity.
Qed.

(** The two bytes of the letter e with an acute accent, U+00E9. *)
Definition e_acute_lead : string := String (ascii_of_nat 195) "".
Definition e_acute_trail : string := String (ascii_of_nat 169) "".

(** X2. A run does not depend on how the daemon cuts the output into
    chunks, as long as no cut falls inside a character: two streamed execs
    that deliver the same bytes in chunks that are well-formed UTF-8 each,
    and end the same way, yield the same lines, so the runner reports the
    same events and returns the same result for both.  A cut inside a
    character does change the lines: each chunk is decoded on its own, and
    each half of the character becomes a replacement character. *)
Theorem run_ignores_the_chunking
    (rt : PyBuiltins) (on_event : bool) (d d' : DockerExec) :
  forallb Utf8.well_formed (chunks d) = true ->
  forallb Utf8.well_formed (chunks d') = true ->
  Py.join "" (chunks d) = Py.join "" (chunks d') -> ending d = ending d' ->
  (exec_streaming d = exec_streaming d'
   /\ _stream_command on_event (exec_streaming d)
      = _stream_command on_event (exec_streaming d'))
  /\ exec_streaming {| chunks := [e_acute_lead ++ e_acute_trail ++ nl];
                       ending := Inspected (ExitCode 0) |}
     = [e_acute_lead ++ e_acute_trail; EXIT_CODE_PREFIX ++ "0"]
  /\ exec_streaming {| chunks := [e_acute_lead; e_acute_trail ++ nl];
                       ending := Inspected (ExitCode 0) |}
     = [Utf8.REPLACEMENT ++ Utf8.REPLACEMENT; EXIT_CODE_PREFIX ++ "0"].
Proof.
  intros Hd Hd' Hbytes Hend.
  split; [|split; reflexivity].
  assert (H : exec_streaming d = exec_streaming d').
  { unfold exec_streaming, texts.
    rewrite (decode_chunks _ Hd), (decode_chunks _ Hd').
    rewrite Hend, !output_lines_whole.
    rewrite (feed_is_drain "" (chunks d) drain_empty).
    rewrite (feed_is_drain "" (chunks d') drain_empty).
    cbv zeta. rewrite Hbytes. reflexivity. }
  split; [exact H|]. rewrite H. reflexivity.
Qed.

Lemma run_ignores_the_chunking_witness :
  exec_streaming {| chunks := ["one" ++ nl ++ "tw"; "o" ++ nl; "thr"; "ee"];
                    ending := Inspected (ExitCode 0) |}
  = exec_streaming {| chunks := ["one" ++ nl ++ "two" ++ nl ++ "three"];
                      ending := Inspected (ExitCode 0) |}.
Proof.
  exact (proj1 (proj1 (run_ignores_the_chunking some_builtins true
                  {| chunks := ["one" ++ nl ++ "tw"; "o" ++ nl; "thr"; "ee"];
                     ending := Inspected (ExitCode 0) |}
                  {| chunks := ["one" ++ nl ++ "two" ++ nl ++ "three"];
                     ending := Inspected (ExitCode 0) |}
                  eq_refl eq_refl eq_refl eq_refl))).
Defined.

Lemma join_split (s : string) : Py.join nl (Py.split Py.newline s) = s.
Proof.
  unfold Py.join. induction s as [|c s IH]; [reflexivity|].
  simpl Py.split. pose proof (split_not_nil s) as Hne.
  destruct (Ascii.eqb c Py.newline) eqn:Hc.
  - apply Ascii.eqb_eq in Hc. subst c.
    destruct (Py.split Py.newline s) as [|a l]; [congruence|].
    change (String.concat nl ("" :: a :: l)) with (nl ++ String.concat nl (a :: l)).
    rewrite IH. reflexivity.
  - destruct (Py.split Py.newline s) as [|a l]; [congruence|].
    destruct l as [|b l].
    + simpl in IH. simpl. rewrite IH. reflexivity.
    + change (String.concat nl (String c a :: b :: l))
        with (String c (a ++ nl ++ String.concat nl (b :: l))).
      change (String.concat nl (a :: b :: l))
        with (a ++ nl ++ String.concat nl (b :: l)) in IH.
      rewrite IH. reflexivity.
Qed.

Lemma contains_newline_cons (c : ascii) (s : string) :
  Py.contains nl (String c s) = Ascii.eqb c Py.newline || Py.contains nl s.
Proof.
  change (Py.contains nl (String c s))
    with (String.prefix nl (String c s) || Py.contains nl s).
  f_equal. unfold nl. cbn [String.prefix].
  destruct (ascii_dec Py.newline c) as [<-|Hne].
  - destruct s; reflexivity.
  - symmetry. apply Ascii.eqb_neq. congruence.
Qed.

Lemma split_pieces_hold_no_newline (s : string) :
  Forall (fun piece => Py.contains nl piece = false) (Py.split Py.newline s).
Proof.
  induction s as [|c s IH]; [repeat constructor|].
  simpl Py.split. destruct (Ascii.eqb c Py.newline) eqn:Hc.
  - constructor; [reflexivity|exact IH].
  - destruct (Py.split Py.newline s) as [|a l]; [repeat constructor|].
    + rewrite contains_newline_cons, Hc. reflexivity.
    + inversion IH as [|? ? Ha Hl]; subst. constructor; [|exact Hl].
      rewrite contains_newline_cons, Hc. exact Ha.
Qed.

Lemma join_snoc (sep : string) (l : list string) (x : string) :
  Py.join sep (l ++ [x])
  = match l with [] => x | _ => Py.join sep l ++ sep ++ x end.
Proof.
  unfold Py.join. induction l as [|a l IH]; [reflexivity|].
  destruct l as [|b l]; [reflexivity|].
  change (String.concat sep ((a :: b :: l) ++ [x]))
    with (a ++ sep ++ String.concat sep ((b :: l) ++ [x])).
  rewrite IH.
  change (String.concat sep (a :: b :: l)) with (a ++ sep ++ String.concat sep (b :: l)).
  rewrite !append_assoc_r. reflexivity.
Qed.

(** X3. The yielded lines give the output back: none of them holds a
    newline, and joined by newlines they are the whole output of the
    process, or the whole output without its final newline. *)
Theorem streamed_lines_round_trip (stream : list string) :
  let whole := Py.join "" stream in
  Forall (fun line => Py.contains nl line = false) (output_lines stream)
  /\ (whole = Py.join nl (output_lines stream)
      \/ whole = Py.join nl (output_lines stream) ++ nl).
Proof.
  cbv zeta. rewrite output_lines_whole. cbv zeta.
  set (whole := Py.join "" stream).
  pose proof (split_not_nil whole) as Hne.
  pose proof (split_pieces_hold_no_newline whole) as Hall.
  pose proof (join_split whole) as Hjoin.
  rewrite (app_removelast_last "" Hne) in Hall, Hjoin.
  set (front := List.removelast (Py.split Py.newline whole)) in *.
  set (rest := List.last (Py.split Py.newline whole) "") in *.
  apply Forall_app in Hall. destruct Hall as [Hfront Hrest].
  destruct rest as [|c rest'] eqn:Hr; cbn [Py.nonempty].
  - rewrite app_nil_r. split; [exact Hfront|].
    rewrite join_snoc in Hjoin. destruct front as [|a front'].
    + left. rewrite <- Hjoin. reflexivity.
    + right. rewrite <- Hjoin, append_empty_r. reflexivity.
  - split; [apply Forall_app; split; assumption|].
    left. symmetry. exact Hjoin.
Qed.
(** ** The runner *)

Section Runner.

Context {rt : PyBuiltins}.

Lemma handle_message_silent (parsed : list (string * pyval)) (st : StreamState) :
  step_events (handle_message false parsed st) = [].
Proof.
  unfold handle_message, stats_events, emit. cbn [negb].
  repeat case_match; reflexivity.
Qed.

Lemma handle_line_silent (line : string) (st : StreamState) :
  step_events (handle_line false line st) = [].
Proof.
  unfold handle_line, emit.
  repeat case_match; try reflexivity; apply handle_message_silent.
Qed.

Lemma stream_loop_silent (lines : list string) (st : StreamState) :
  step_events (stream_loop false lines st) = [].
Proof.
  revert st. induction lines as [|line lines IH]; intros st; [reflexivity|].
  cbn [stream_loop].
  pose proof (handle_line_silent line st) as Hl.
  destruct (handle_line false line st) as [st1 evs1| |]; try exact Hl.
  simpl in Hl. subst evs1.
  pose proof (IH st1) as Hr.
  destruct (stream_loop false lines st1); simpl in Hr; subst; reflexivity.
Qed.

End Runner.

(** X4. Without a callback the runner reports nothing: whatever the lines,
    [_stream_command] calls [on_event] not once. *)
Theorem stream_command_without_callback (rt : PyBuiltins) (lines : list string) :
  fst (_stream_command false lines) = [].
Proof.
  unfold _stream_command.
  pose proof (stream_loop_silent lines initial_state) as H.
  destruct (stream_loop false lines initial_state) as [st evs|res evs|msg st evs];
    simpl in H; subst evs; cbn [emit app].
  - destruct (py_add _ _); reflexivity.
  - reflexivity.
  - destruct (py_add _ _); reflexivity.
Qed.

Lemma handle_exec_error `{rt : PyBuiltins} (on_event : bool) (msg : string) (st : StreamState) :
  handle_line on_event (EXEC_ERROR_PREFIX ++ msg) st
  = Return {| success := false; summary := "Execution error: " ++ msg;
              res_tokens_used := PInt 0; res_exit_code := -1; tool_uses := None |}
           (emit on_event "error" (PStr ("Execution error: " ++ msg))).
Proof.
  unfold handle_line.
  change (Py.startswith EXIT_CODE_PREFIX (EXEC_ERROR_PREFIX ++ msg)) with false.
  rewrite startswith_app.
  change (Py.split_once ":" (EXEC_ERROR_PREFIX ++ msg))
    with (Some ("__EXEC_ERROR__", msg)).
  reflexivity.
Qed.

(** X5. An exec-error sentinel ends the run. When the loop got past the
    lines before it, the runner reports the error once and returns
    [success = False], [exit_code = -1] and [tokens_used = 0] with the
    message as summary, whatever token counts were read before and whatever
    lines follow the sentinel. *)
Theorem exec_error_ends_the_run
    (rt : PyBuiltins) (on_event : bool) (before after : list string) (msg : string)
    (st : StreamState) (evs : list AgentEvent) :
  stream_loop on_event before initial_state = Next st evs ->
  _stream_command on_event (before ++ (EXEC_ERROR_PREFIX ++ msg)%string :: after)
  = ((evs ++ emit on_event "error" (PStr ("Execution error: " ++ msg)))%list,
     Ok {| success := false; summary := "Execution error: " ++ msg;
           res_tokens_used := PInt 0; res_exit_code := -1; tool_uses := None |}).
Proof.
  intros Hbefore. unfold _stream_command.
  rewrite stream_loop_app, Hbefore. cbn [stream_loop].
  rewrite handle_exec_error. reflexivity.
Qed.

Lemma exec_error_ends_the_run_witness :
  _stream_command (rt := some_builtins) true
    ["working"; (EXEC_ERROR_PREFIX ++ "daemon gone")%string; hello_line]
  = ([("agent_message", PStr "working"); ("error", PStr "Execution error: daemon gone")],
     Ok {| success := false; summary := "Execution error: daemon gone";
           res_tokens_used := PInt 0; res_exit_code := -1; tool_uses := None |}).
Proof.
  exact (exec_error_ends_the_run some_builtins true ["working"] [hello_line] "daemon gone"
           (with_result_text "working" initial_state)
           [("agent_message", PStr "working")] eq_refl).
Defined.

Lemma take_length (n : nat) (s : string) : (String.length (Py.take n s) <= n)%nat.
Proof.
  unfold Py.take. revert s. induction n as [|n IH]; intros s.
  - destruct s; simpl; lia.
  - destruct s as [|c s]; simpl; [lia|]. specialize (IH s). lia.
Qed.

Lemma first_present_length `{rt : PyBuiltins} (keys : list string)
    (d : list (string * pyval)) (text : string) :
  first_present keys d = Some text -> (String.length text <= 200)%nat.
Proof.
  induction keys as [|key keys IH]; simpl; [discriminate|].
  destruct (Dict.get key d); [|exact IH].
  intros [= <-]. apply take_length.
Qed.

(** X6. The summary of a tool call never exceeds 200 characters, whatever
    the shape of the message: a [str] input, a [dict] with or without one
    of the four known keys, or any other value. *)
Theorem tool_input_summary_is_short (rt : PyBuiltins) (parsed : list (string * pyval)) :
  (String.length (_summarize_tool_input parsed) <= 200)%nat.
Proof.
  unfold _summarize_tool_input.
  destruct (Dict.get_default "input" _ parsed) as [| | | | | |s|items|fields];
    try apply take_length.
  destruct (first_present _ fields) as [text|] eqn:Hfirst; [|apply take_length].
  exact (first_present_length _ _ _ Hfirst).
Qed.

Section OutputCut.

Context {rt : PyBuiltins}.

Lemma emit_other_kind (on_event : bool) (kind : string) (text : pyval) :
  kind <> "command_output" -> Forall output_is_cut (emit on_event kind text).
Proof.
  intros Hk. unfold emit. destruct on_event; [|apply List.Forall_nil].
  apply List.Forall_cons; [|apply List.Forall_nil]. intros H. contradiction.
Qed.

Lemma stats_events_cut (on_event : bool) (parsed : list (string * pyval))
    (i o : pyval) (evs : list AgentEvent) :
  stats_events on_event parsed i o = Ok evs -> Forall output_is_cut evs.
Proof.
  unfold stats_events.
  repeat case_match; intros [= <-]; try apply List.Forall_nil;
    (apply List.Forall_cons; [intros Hkind; discriminate Hkind|apply List.Forall_nil]).
Qed.

Lemma handle_message_cut (on_event : bool) (parsed : list (string * pyval))
    (st : StreamState) :
  Forall output_is_cut (step_events (handle_message on_event parsed st)).
Proof.
  unfold handle_message.
  repeat match goal with
  | |- context [if ?b then _ else _] => destruct b eqn:?
  | |- context [match ?x with Ok _ => _ | Raise _ => _ end] => destruct x eqn:?
  end; cbn [step_events];
  try (apply emit_other_kind; discriminate);
  try apply List.Forall_nil.
  - unfold emit. destruct on_event; [|apply List.Forall_nil].
    apply List.Forall_cons; [|apply List.Forall_nil].
    intros _. eexists. split; [reflexivity|apply take_length].
  - eapply stats_events_cut. eassumption.
Qed.

Lemma handle_line_cut (on_event : bool) (line : string) (st : StreamState) :
  Forall output_is_cut (step_events (handle_line on_event line st)).
Proof.
  unfold handle_line.
  repeat case_match; cbn [step_events];
    try apply List.Forall_nil;
    try (apply emit_other_kind; discriminate).
  apply handle_message_cut.
Qed.

Lemma stream_loop_cut (on_event : bool) (lines : list string) (st : StreamState) :
  Forall output_is_cut (step_events (stream_loop on_event lines st)).
Proof.
  revert st. induction lines as [|line lines IH]; intros st; [apply List.Forall_nil|].
  cbn [stream_loop].
  pose proof (handle_line_cut on_event line st) as Hl.
  destruct (handle_line on_event line st) as [st1 evs1| |]; try exact Hl.
  pose proof (IH st1) as Hr.
  destruct (stream_loop on_event lines st1); cbn [step_events] in *;
    apply Forall_app; split; assumption.
Qed.

Lemma stream_command_cut (on_event : bool) (lines : list string) :
  Forall output_is_cut (fst (_stream_command on_event lines)).
Proof.
  unfold _stream_command.
  pose proof (stream_loop_cut on_event lines initial_state) as H.
  destruct (stream_loop on_event lines initial_state) as [st evs|res evs|msg st evs];
    cbn [step_events] in H.
  - destruct (py_add _ _); cbn [fst];
      (apply Forall_app; split; [exact H|apply emit_other_kind; discriminate]).
  - exact H.
  - destruct (py_add _ _); cbn [fst];
      (apply Forall_app; split; [exact H|apply emit_other_kind; discriminate]).
Qed.

Lemma run_claude_code_cut (cfg : Settings) (c : Container) (on_event : bool) (task : string) :
  Forall output_is_cut (fst (_run_claude_code cfg c on_event task)).
Proof.
  unfold _run_claude_code.
  pose proof (stream_command_cut on_event
                (exec_streaming (exec_stream c (_build_claude_command cfg task)))) as H.
  destruct (_stream_command _ _) as [evs res]. cbn [fst] in *.
  repeat (apply Forall_app; split); try exact H;
    apply emit_other_kind; discriminate.
Qed.

Lemma cdm_start_cut (c : Container) (on_event : bool) (task : string)
    (before : list AgentEvent) :
  Forall output_is_cut before ->
  Forall output_is_cut (fst (cdm_start c on_event task before)).
Proof.
  intros Hb. unfold cdm_start.
  destruct (exec_command c "cdm init --non-interactive") as [init|m]; [|exact Hb].
  pose proof (stream_command_cut on_event
                (exec_streaming (exec_stream c (_build_cdm_command task)))) as H.
  destruct (_stream_command _ _) as [evs res]. cbn [fst] in *.
  repeat (apply Forall_app; split); try assumption.
  - destruct (exit_code init =? 0); [apply emit_other_kind; discriminate|apply List.Forall_nil].
  - apply emit_other_kind; discriminate.
Qed.

End OutputCut.

(** X7. Whatever the process prints, every [command_output] event that a
    run of the agent passes to [on_event], in either mode, carries a [str]
    of at most 800 characters. *)
Theorem command_output_is_cut
    (rt : PyBuiltins) (cfg : Settings) (c : Container) (on_event : bool)
    (task mode : string) :
  Forall output_is_cut (fst (run_task cfg c on_event task mode)).
Proof.
  unfold run_task.
  destruct (String.eqb mode "cdm"); [|apply run_claude_code_cut].
  unfold _run_cdm_pipeline.
  destruct (exec_command c "which cdm") as [probe|m];
    [|apply emit_other_kind; discriminate].
  destruct (exit_code probe =? 0).
  { apply cdm_start_cut. apply emit_other_kind. discriminate. }
  destruct (exec_command c CDM_INSTALL) as [install|m].
  2: { apply Forall_app; split; apply emit_other_kind; discriminate. }
  destruct (negb (exit_code install =? 0)).
  - pose proof (run_claude_code_cut cfg c on_event task) as H.
    destruct (_run_claude_code cfg c on_event task) as [evs res]. cbn [fst] in *.
    repeat (apply Forall_app; split); try exact H;
      apply emit_other_kind; discriminate.
  - apply cdm_start_cut. apply Forall_app; split; apply emit_other_kind; discriminate.
Qed.
(** ** The commit step: counting the changed files *)

Lemma contains_bar_cons (c : ascii) (s : string) :
  Py.contains "|" (String c s) = Ascii.eqb c "|" || Py.contains "|" s.
Proof.
  change (Py.contains "|" (String c s))
    with (String.prefix "|" (String c s) || Py.contains "|" s).
  f_equal. cbn [String.prefix].
  destruct (ascii_dec "|" c) as [<-|Hne].
  - destruct s; reflexivity.
  - symmetry. apply Ascii.eqb_neq. congruence.
Qed.

Lemma space_is_no_bar (c : ascii) : Py.is_space c = true -> Ascii.eqb c "|" = false.
Proof.
  destruct c as [[] [] [] [] [] [] [] []]; vm_compute; congruence.
Qed.

Lemma newline_is_no_bar (c : ascii) : Ascii.eqb c Py.newline = true -> Ascii.eqb c "|" = false.
Proof.
  destruct c as [[] [] [] [] [] [] [] []]; vm_compute; congruence.
Qed.

(** A byte of a character outside ASCII is no bar and no newline. *)
Lemma high_byte_is_plain (c : ascii) :
  (128 <= nat_of_ascii c)%nat -> Ascii.eqb c "|" = false /\ Ascii.eqb c Py.newline = false.
Proof.
  intros H. split; apply Ascii.eqb_neq; intros ->; vm_compute in H; lia.
Qed.

Lemma space2_is_high (a b : ascii) :
  Py.is_space2 a b = true -> (128 <= nat_of_ascii a)%nat /\ (128 <= nat_of_ascii b)%nat.
Proof.
  unfold Py.is_space2.
  rewrite andb_true_iff, orb_true_iff, !Nat.eqb_eq. lia.
Qed.

Lemma space3_is_high (a b c : ascii) :
  Py.is_space3 a b c = true ->
  (128 <= nat_of_ascii a)%nat /\ (128 <= nat_of_ascii b)%nat /\ (128 <= nat_of_ascii c)%nat.
Proof.
  unfold Py.is_space3. cbv zeta.
  rewrite ?orb_true_iff, ?andb_true_iff, ?orb_true_iff, ?andb_true_iff,
    ?Nat.eqb_eq, ?Nat.leb_le. lia.
Qed.

(** The ways [lstrip_of] goes: it stops, or it drops a character of one,
    two or three bytes. *)
Lemma lstrip_ind (P : string -> Prop) :
  (forall s, Py.lstrip_of Py.is_space s = s -> P s) ->
  (forall c r, Py.is_space c = true ->
     Py.lstrip_of Py.is_space (String c r) = Py.lstrip_of Py.is_space r ->
     P r -> P (String c r)) ->
  (forall a b r, Py.is_space2 a b = true ->
     Py.lstrip_of Py.is_space (String a (String b r)) = Py.lstrip_of Py.is_space r ->
     P r -> P (String a (String b r))) ->
  (forall a b c r, Py.is_space3 a b c = true ->
     Py.lstrip_of Py.is_space (String a (String b (String c r)))
     = Py.lstrip_of Py.is_space r ->
     P r -> P (String a (String b (String c r)))) ->
  forall s, P s.
Proof.
  intros Hstop H1 H2 H3.
  assert (H : forall n s, (String.length s <= n)%nat -> P s).
  { induction n as [|n IH]; intros s Hn.
    - destruct s; [apply Hstop; reflexivity|simpl in Hn; lia].
    - destruct s as [|a r1]; [apply Hstop; reflexivity|].
      simpl in Hn.
      destruct (Py.is_space a) eqn:Ha.
      { apply H1; [exact Ha|cbn [Py.lstrip_of]; rewrite Ha; reflexivity|apply IH; lia]. }
      destruct r1 as [|b r2];
        [apply Hstop; cbn [Py.lstrip_of]; rewrite Ha; reflexivity|].
      simpl in Hn.
      destruct (Py.is_space2 a b) eqn:Hab.
      { apply H2; [exact Hab|cbn [Py.lstrip_of]; rewrite Ha, Hab; reflexivity|apply IH; lia]. }
      destruct r2 as [|c r3];
        [apply Hstop; cbn [Py.lstrip_of]; rewrite Ha, Hab; reflexivity|].
      simpl in Hn.
      destruct (Py.is_space3 a b c) eqn:Habc.
      { apply H3; [exact Habc|cbn [Py.lstrip_of]; rewrite Ha, Hab, Habc; reflexivity
                  |apply IH; lia]. }
      apply Hstop. cbn [Py.lstrip_of]. rewrite Ha, Hab, Habc. reflexivity. }
  intros s. apply (H (String.length s)). lia.
Qed.

Lemma contains_bar_high (c : ascii) (s : string) :
  (128 <= nat_of_ascii c)%nat -> Py.contains "|" (String c s) = Py.contains "|" s.
Proof.
  intros H. rewrite contains_bar_cons, (proj1 (high_byte_is_plain c H)). reflexivity.
Qed.

Lemma lstrip_keeps_bar (s : string) :
  Py.contains "|" s = true -> Py.contains "|" (Py.lstrip_of Py.is_space s) = true.
Proof.
  induction s as [s E|c r Hc E IH|a b r Hab E IH|a b c r Habc E IH] using lstrip_ind;
    rewrite E; [auto| | |].
  - rewrite contains_bar_cons, (space_is_no_bar c Hc). exact IH.
  - destruct (space2_is_high a b Hab) as [Ha Hb].
    rewrite !contains_bar_high by assumption. exact IH.
  - destruct (space3_is_high a b c Habc) as (Ha & Hb & Hc).
    rewrite !contains_bar_high by assumption. exact IH.
Qed.

Lemma bar_flags_not_nil (s : string) : bar_flags s <> [].
Proof.
  unfold bar_flags. pose proof (split_not_nil s) as H.
  destruct (Py.split Py.newline s); [congruence|discriminate].
Qed.

(** The flags of a text one character longer on the left. *)
Lemma bar_flags_cons (c : ascii) (s : string) :
  bar_flags (String c s)
  = if Ascii.eqb c Py.newline then false :: bar_flags s
    else match bar_flags s with
         | flag :: flags => (Ascii.eqb c "|" || flag) :: flags
         | [] => []
         end.
Proof.
  unfold bar_flags. cbn [Py.split].
  pose proof (split_not_nil s) as Hne.
  destruct (Ascii.eqb c Py.newline); [reflexivity|].
  destruct (Py.split Py.newline s) as [|a l]; [congruence|].
  cbn [map]. rewrite contains_bar_cons. reflexivity.
Qed.

Lemma bar_flags_high (c : ascii) (s : string) :
  (128 <= nat_of_ascii c)%nat -> bar_flags (String c s) = bar_flags s.
Proof.
  intros H. destruct (high_byte_is_plain c H) as [Hb Hn].
  rewrite bar_flags_cons, Hn, Hb.
  destruct (bar_flags s); reflexivity.
Qed.

Lemma count_true_lstrip (s : string) :
  count_true (bar_flags (Py.lstrip_of Py.is_space s)) = count_true (bar_flags s).
Proof.
  induction s as [s E|c r Hc E IH|a b r Hab E IH|a b c r Habc E IH] using lstrip_ind;
    rewrite E; [reflexivity| | |].
  - rewrite IH, bar_flags_cons, (space_is_no_bar c Hc).
    destruct (Ascii.eqb c Py.newline); [reflexivity|].
    pose proof (bar_flags_not_nil r) as Hne.
    destruct (bar_flags r); [congruence|reflexivity].
  - destruct (space2_is_high a b Hab) as [Ha Hb].
    rewrite !bar_flags_high by assumption. exact IH.
  - destruct (space3_is_high a b c Habc) as (Ha & Hb & Hc).
    rewrite !bar_flags_high by assumption. exact IH.
Qed.

(** A text that is white space throughout holds no bar on any line. *)
Lemma blank_flags (s : string) :
  Py.lstrip_of Py.is_space s = "" -> exists k, bar_flags s = false :: repeat false k.
Proof.
  induction s as [s E|c r Hc E IH|a b r Hab E IH|a b c r Habc E IH] using lstrip_ind;
    rewrite E.
  - intros ->. exists 0%nat. reflexivity.
  - intros H. destruct (IH H) as (k & Hk).
    rewrite bar_flags_cons, Hk, (space_is_no_bar c Hc).
    destruct (Ascii.eqb c Py.newline); [exists (S k)|exists k]; reflexivity.
  - destruct (space2_is_high a b Hab) as [Ha Hb].
    rewrite !bar_flags_high by assumption. exact IH.
  - destruct (space3_is_high a b c Habc) as (Ha & Hb & Hc).
    rewrite !bar_flags_high by assumption. exact IH.
Qed.

Lemma flags_off_hold_no_bar (s : string) (k : nat) :
  bar_flags s = false :: repeat false k -> Py.contains "|" s = false.
Proof.
  revert k. induction s as [|c s IH]; intros k; [reflexivity|].
  rewrite bar_flags_cons, contains_bar_cons.
  destruct (Ascii.eqb c Py.newline) eqn:Hn.
  - rewrite (newline_is_no_bar c Hn). intros H. injection H as H.
    destruct k as [|k]; [exfalso; exact (bar_flags_not_nil s H)|].
    exact (IH k H).
  - destruct (bar_flags s) as [|flag flags] eqn:Hf; [discriminate|].
    intros H. injection H as H1 H2. apply orb_false_iff in H1. destruct H1 as [-> ->].
    rewrite (IH k); [reflexivity|]. f_equal. exact H2.
Qed.

Lemma rstrip_keeps_bar (s : string) :
  Py.contains "|" s = true -> Py.contains "|" (Py.rstrip_of Py.is_space s) = true.
Proof.
  induction s as [|c s IH]; [discriminate|].
  intros H. cbn [Py.rstrip_of].
  destruct (Py.lstrip_of Py.is_space (String c s)) as [|x rest] eqn:Hl.
  - destruct (blank_flags _ Hl) as (k & Hk).
    rewrite (flags_off_hold_no_bar _ k Hk) in H. discriminate.
  - rewrite contains_bar_cons in *.
    destruct (Ascii.eqb c "|"); [reflexivity|]. apply IH. exact H.
Qed.

(** A line that holds a bar is not blank. *)
Lemma bar_line_is_not_blank (line : string) :
  Py.contains "|" line = true -> Py.nonempty (Py.strip line) = true.
Proof.
  intros H. unfold Py.strip.
  pose proof (rstrip_keeps_bar _ (lstrip_keeps_bar _ H)) as Hs.
  destruct (Py.rstrip_of Py.is_space (Py.lstrip_of Py.is_space line));
    [discriminate|reflexivity].
Qed.

(** Stripping on the right removes flags that are off. *)
Lemma bar_flags_rstrip (s : string) :
  exists k, bar_flags s
            = (bar_flags (Py.rstrip_of Py.is_space s) ++ repeat false k)%list.
Proof.
  induction s as [|c s (k & IH)]; [exists 0%nat; reflexivity|].
  cbn [Py.rstrip_of].
  destruct (Py.lstrip_of Py.is_space (String c s)) as [|x rest] eqn:Hl.
  - destruct (blank_flags _ Hl) as (j & Hj). exists j. rewrite Hj. reflexivity.
  - rewrite !bar_flags_cons, IH.
    destruct (Ascii.eqb c Py.newline); [exists k; reflexivity|].
    pose proof (bar_flags_not_nil (Py.rstrip_of Py.is_space s)) as Hne.
    destruct (bar_flags (Py.rstrip_of Py.is_space s)); [congruence|].
    exists k. reflexivity.
Qed.

Lemma count_true_off (l : list bool) (k : nat) :
  count_true (l ++ repeat false k) = count_true l.
Proof.
  unfold count_true. rewrite List.filter_app, length_app.
  assert (H : List.filter (fun b : bool => b) (repeat false k) = []).
  { induction k; [reflexivity|exact IHk]. }
  rewrite H. simpl. lia.
Qed.

Lemma count_true_strip (s : string) :
  count_true (bar_flags (Py.strip s)) = count_true (bar_flags s).
Proof.
  unfold Py.strip. rewrite <- (count_true_lstrip s).
  destruct (bar_flags_rstrip (Py.lstrip_of Py.is_space s)) as (k & ->).
  rewrite count_true_off. reflexivity.
Qed.

Lemma count_true_map {A : Type} (p : A -> bool) (l : list A) :
  count_true (map p l) = length (List.filter p l).
Proof.
  unfold count_true. induction l as [|a l IH]; [reflexivity|].
  simpl. destruct (p a); simpl; rewrite IH; reflexivity.
Qed.

(** X8. The number of changed files that [git_commit_and_push] reports is
    the number of lines of the staged diff statistic that hold a bar: the
    two [strip] calls and the test for a blank line change nothing, and the
    summary line of the statistic, which holds no bar, is not counted. *)
Theorem files_changed_counts_bar_lines (out : string) :
  count_changed out
  = Z.of_nat (length (List.filter (Py.contains "|") (Py.split Py.newline out))).
Proof.
  unfold count_changed. f_equal.
  rewrite <- (count_true_map (Py.contains "|") (Py.split Py.newline out)).
  fold (bar_flags out). rewrite <- (count_true_strip out).
  unfold bar_flags. rewrite count_true_map. f_equal.
  apply List.filter_ext. intros line.
  destruct (Py.contains "|" line) eqn:Hb; [|apply andb_false_r].
  rewrite (bar_line_is_not_blank line Hb). reflexivity.
Qed.
(** ** Sessions: creation, ownership, cost and the end of the pipeline *)

Lemma flush_row (s : DevSession) (db : DB) : db_sessions (flush s db) !! id s = Some s.
Proof. unfold flush. simpl. apply lookup_insert_eq. Qed.

Lemma flush_other_row (s : DevSession) (db : DB) (sid : string) :
  sid <> id s -> db_sessions (flush s db) !! sid = db_sessions db !! sid.
Proof. intros Hne. unfold flush. simpl. apply lookup_insert_ne. congruence. Qed.

(** What a successful [create_session] returns and leaves. *)
Lemma create_session_ok (limits_of : SubscriptionTier -> TierLimits) (cfg : Settings)
    (db : DB) (uid new_id repo_id task : string) (branch_arg : option string)
    (mode : string) (db' : DB) (s : DevSession) :
  create_session limits_of cfg db uid new_id repo_id task branch_arg mode = Ok (db', s) ->
  db' = _add_event (flush s db) new_id STATUS_CHANGE (PStr "Session created") 0
  /\ id s = new_id /\ user_id s = uid /\ status s = PENDING
  /\ execution_mode s = mode
  /\ (mode = "claude" \/ mode = "cdm")
  /\ _check_tier_limits limits_of db uid = Allowed.
Proof.
  unfold create_session.
  destruct (db_repositories db !! repo_id) as [repo|]; [|discriminate].
  destruct (negb (String.eqb (repo_user_id repo) uid)); [discriminate|].
  destruct (negb (Py.nonempty (ANTHROPIC_API_KEY cfg))); [discriminate|].
  destruct (String.eqb mode "claude") eqn:Hc; cbn [orb negb].
  - destruct (_check_tier_limits limits_of db uid); [|discriminate].
    intros [= <- <-]. apply String.eqb_eq in Hc. repeat split; auto.
  - destruct (String.eqb mode "cdm") eqn:Hm; cbn [negb]; [|discriminate].
    destruct (_check_tier_limits limits_of db uid); [|discriminate].
    intros [= <- <-]. apply String.eqb_eq in Hm. repeat split; auto.
Qed.

(** X9. A session that [create_session] returned is found again by its
    key: [get_session] gives it back to its owner and to nobody else, it is
    pending in the mode that was asked for, every other session is found as
    before, and its log, when the key is new to the log, is the one event
    numbered 0. *)
Theorem created_session_is_found_by_its_owner
    (limits_of : SubscriptionTier -> TierLimits) (cfg : Settings)
    (db : DB) (uid new_id repo_id task : string) (branch_arg : option string)
    (mode : string) (db' : DB) (s : DevSession) :
  create_session limits_of cfg db uid new_id repo_id task branch_arg mode = Ok (db', s) ->
  get_session db' new_id uid = Some s
  /\ (forall other, other <> uid -> get_session db' new_id other = None)
  /\ (forall sid who, sid <> new_id -> get_session db' sid who = get_session db sid who)
  /\ status s = PENDING /\ execution_mode s = mode
  /\ (events_of db new_id = [] ->
      get_session_events db' new_id
      = [{| ev_session_id := new_id; event_type := STATUS_CHANGE;
            content := PStr "Session created"; sequence := 0 |}]).
Proof.
  intros H. destruct (create_session_ok _ _ _ _ _ _ _ _ _ _ _ H)
    as (-> & Hid & Huid & Hst & Hmode & _).
  assert (Hrow : db_sessions (_add_event (flush s db) new_id STATUS_CHANGE
                                (PStr "Session created") 0) !! new_id = Some s).
  { rewrite <- Hid. apply flush_row. }
  split; [|split; [|split; [|split; [|split]]]]; try assumption.
  - unfold get_session. rewrite Hrow, Huid, String.eqb_refl. reflexivity.
  - intros other Hne. unfold get_session. rewrite Hrow, Huid.
    destruct (String.eqb uid other) eqn:E; [|reflexivity].
    apply String.eqb_eq in E. congruence.
  - intros sid who Hne. unfold get_session.
    change (db_sessions (_add_event (flush s db) new_id STATUS_CHANGE
                           (PStr "Session created") 0))
      with (db_sessions (flush s db)).
    rewrite flush_other_row; [reflexivity|congruence].
  - intros Hlog. unfold get_session_events, events_of. simpl.
    rewrite List.filter_app. fold (events_of db new_id). rewrite Hlog. simpl.
    rewrite String.eqb_refl. reflexivity.
Qed.

Lemma created_session_is_found_by_its_owner_witness :
  get_session fresh_db "s" "u" = Some pending_session.
Proof.
  exact (proj1 (created_session_is_found_by_its_owner TIER_LIMITS settings
                  (registered_db 0) "u" "s" "r" "add a README" None "claude"
                  fresh_db pending_session create_session_fresh)).
Defined.

Lemma filter_length_Permutation {A : Type} (f : A -> bool) (l l' : list A) :
  l ≡ₚ l' -> length (List.filter f l) = length (List.filter f l').
Proof.
  induction 1 as [|x l l' _ IH|x y l|l l' l'' _ IH1 _ IH2]; simpl.
  - reflexivity.
  - destruct (f x); simpl; rewrite IH; reflexivity.
  - destruct (f x), (f y); reflexivity.
  - congruence.
Qed.

Lemma check_tier_limits_ext (limits_of : SubscriptionTier -> TierLimits)
    (db db' : DB) (uid : string) :
  db_subscriptions db' !! uid = db_subscriptions db !! uid ->
  length (active_sessions db' uid) = length (active_sessions db uid) ->
  _check_tier_limits limits_of db' uid = _check_tier_limits limits_of db uid.
Proof.
  intros Hs Hl. unfold _check_tier_limits. rewrite Hs, Hl. reflexivity.
Qed.

(** A row that does not count as active, stored under a new key, leaves
    the number of active sessions of every user as it was. *)
Lemma active_sessions_insert (db db' : DB) (s : DevSession) (uid : string) :
  db_sessions db !! id s = None ->
  db_sessions db' = <[id s := s]> (db_sessions db) ->
  counts_as_active (status s) = false ->
  length (active_sessions db' uid) = length (active_sessions db uid).
Proof.
  intros Hnew Hrows Hst. unfold active_sessions. rewrite Hrows.
  rewrite (filter_length_Permutation _ _ (s :: (map_to_list (db_sessions db)).*2)).
  - simpl. rewrite Hst, andb_false_r. reflexivity.
  - change (s :: (map_to_list (db_sessions db)).*2)
      with (((id s, s) :: map_to_list (db_sessions db)).*2).
    apply fmap_Permutation, map_to_list_insert. exact Hnew.
Qed.

(** X10. A session that was created and not started does not count
    against its owner: after [create_session] stored a session under a new
    key, the admission check answers every user as it did before, the
    owner included. *)
Theorem pending_session_does_not_count
    (limits_of : SubscriptionTier -> TierLimits) (cfg : Settings)
    (db : DB) (uid new_id repo_id task : string) (branch_arg : option string)
    (mode : string) (db' : DB) (s : DevSession) :
  db_sessions db !! new_id = None ->
  create_session limits_of cfg db uid new_id repo_id task branch_arg mode = Ok (db', s) ->
  forall who, _check_tier_limits limits_of db' who = _check_tier_limits limits_of db who.
Proof.
  intros Hnew H who.
  destruct (create_session_ok _ _ _ _ _ _ _ _ _ _ _ H) as (-> & Hid & _ & Hst & _).
  apply check_tier_limits_ext; [reflexivity|].
  apply (active_sessions_insert db _ s who).
  - rewrite Hid. exact Hnew.
  - reflexivity.
  - rewrite Hst. reflexivity.
Qed.

Lemma pending_session_does_not_count_witness :
  _check_tier_limits TIER_LIMITS fresh_db "u"
  = _check_tier_limits TIER_LIMITS (registered_db 0) "u".
Proof.
  exact (pending_session_does_not_count TIER_LIMITS settings (registered_db 0)
           "u" "s" "r" "add a README" None "claude" fresh_db pending_session
           eq_refl create_session_fresh "u").
Defined.

(** X11. The handlers answer for a session of somebody else as they
    answer for a session that does not exist: reading it, reading its
    events and cancelling it all raise 404 with the same detail, and the
    cancellation leaves the tables as they were. *)
Theorem foreign_session_is_not_found
    (cfg : Settings) (SessionResponse SessionEventResponse : Type)
    (session_response : DevSession -> Result SessionResponse)
    (event_response : SessionEvent -> Result SessionEventResponse)
    (now : Q) (db : DB) (user session_id : string) :
  (forall s, db_sessions db !! session_id = Some s -> user_id s <> user) ->
  get_session_endpoint SessionResponse session_response db user session_id
  = HTTPException 404 "Session not found"
  /\ get_session_events_endpoint SessionEventResponse event_response db user session_id
     = HTTPException 404 "Session not found"
  /\ cancel_session_endpoint cfg SessionResponse session_response now db user session_id
     = (db, HTTPException 404 "Session not found").
Proof.
  intros Hforeign.
  assert (Hnone : get_session db session_id user = None).
  { unfold get_session. destruct (db_sessions db !! session_id) as [s|]; [|reflexivity].
    destruct (String.eqb (user_id s) user) eqn:E; [|reflexivity].
    apply String.eqb_eq in E. exfalso. exact (Hforeign s eq_refl E). }
  unfold get_session_endpoint, get_session_events_endpoint, cancel_session_endpoint.
  rewrite Hnone. repeat split.
Qed.

Lemma foreign_session_is_not_found_witness :
  cancel_session_endpoint settings DevSession Ok 60 fresh_db "mallory" "s"
  = (fresh_db, HTTPException 404 "Session not found").
Proof.
  refine (proj2 (proj2 (foreign_session_is_not_found settings DevSession SessionEvent
                          Ok Ok 60 fresh_db "mallory" "s" _))).
  intros s. vm_compute. intros [= <-]. discriminate.
Defined.

(** The cost grows with the minutes: each rounding keeps the order. *)
Lemma session_cost_le (rate m m' : Q) :
  (0 <= rate)%Q -> (0 <= m)%Q -> (m <= m')%Q ->
  session_cost rate m <= session_cost rate m'.
Proof.
  intros Hr Hm Hle.
  assert (Hm' : (0 <= m')%Q) by (eapply Qle_trans; eassumption).
  assert (Hrate : (0 <= Float.round rate)%Q) by (apply round_nonneg; exact Hr).
  unfold session_cost.
  rewrite (int_of_float_floor _ (cost_product_nonneg rate m Hr Hm)).
  rewrite (int_of_float_floor _ (cost_product_nonneg rate m' Hr Hm')).
  apply Qfloor_resp_le. unfold cost_product, Float.mul.
  apply round_le.
  - apply Qmult_le_0_compat; [|discriminate].
    apply round_nonneg. apply Qmult_le_0_compat; assumption.
  - apply Qmult_le_compat_r; [|discriminate].
    apply round_le; [apply Qmult_le_0_compat; assumption|].
    apply Qmult_le_compat_r; assumption.
Qed.

Lemma finalize_positive_cost (cfg : Settings) (now : Q) (db : DB) (s : DevSession) (d : Q) :
  duration_seconds s = Some d -> (0 < d)%Q ->
  cost_cents (snd (finalize_session cfg now db s))
  = session_cost (RATE_PER_MINUTE cfg) (Float.div d 60).
Proof.
  intros Hd Hpos.
  destruct (finalize_positive cfg now db s d (positive_duration_some s d Hd Hpos))
    as (Hs & _).
  cbv zeta in Hs. rewrite Hs. destruct (ended_at s); reflexivity.
Qed.

(** X12. A longer session never costs less: with a rate that is not
    negative, the cost that finalization stores, the binary64 product
    [duration / 60 * rate * 100] cut to an [int], grows with the recorded
    duration, as long as the larger cost fits the [Integer] column. None
    of the three roundings turns the order around. *)
Theorem longer_session_costs_no_less
    (cfg : Settings) (now now' : Q) (db db' : DB) (s s' : DevSession) (d d' : Q) :
  (0 <= RATE_PER_MINUTE cfg)%Q ->
  duration_seconds s = Some d -> duration_seconds s' = Some d' ->
  (0 < d)%Q -> (d <= d')%Q ->
  Column.Integer (cost_cents (snd (finalize_session cfg now' db' s'))) = true ->
  cost_cents (snd (finalize_session cfg now db s))
  <= cost_cents (snd (finalize_session cfg now' db' s'))
  /\ cost_cents (snd (finalize_session cfg now db s))
     = session_cost (RATE_PER_MINUTE cfg) (Float.div d 60)
  /\ cost_cents (snd (finalize_session cfg now' db' s'))
     = session_cost (RATE_PER_MINUTE cfg) (Float.div d' 60).
Proof.
  intros Hrate Hd Hd' Hpos Hle _.
  assert (Hpos' : (0 < d')%Q) by (eapply Qlt_le_trans; eassumption).
  rewrite (finalize_positive_cost cfg now db s d Hd Hpos).
  rewrite (finalize_positive_cost cfg now' db' s' d' Hd' Hpos').
  split; [|split; reflexivity].
  apply session_cost_le; [exact Hrate|apply duration_minutes_nonneg; exact Hpos|].
  unfold Float.div. apply round_le.
  - apply Qle_shift_div_l; [reflexivity|]. rewrite Qmult_0_l. apply Qlt_le_weak. exact Hpos.
  - apply Qmult_le_compat_r; [exact Hle|discriminate].
Qed.

Lemma longer_session_costs_no_less_witness :
  cost_cents (snd (finalize_session settings 2000
                     (db_with_subscription "u" (free_with 0)) (finished_session 1739)))
  <= cost_cents (snd (finalize_session settings 2000
                        (db_with_subscription "u" (free_with 0)) (finished_session 1740))).
Proof.
  apply (longer_session_costs_no_less settings 2000 2000 _ _ _ _ 1739 1740);
    first [reflexivity | discriminate].
Defined.




Lemma run_agent_row `{rt : PyBuiltins} (cfg : Settings) (c : Container) (now : Q)
    (db : DB) (s : DevSession) :
  out_raised (run_agent cfg c now db s) = None ->
  db_sessions (out_db (run_agent cfg c now db s)) !! id s
  = Some (out_session (run_agent cfg c now db s)).
Proof.
  intros Hok.
  destruct (run_agent_cases cfg c now db s)
    as [(Hr & _)|(s1 & _ & Hs & _ & Hsame & _)]; [congruence|].
  assert (Hid : id (out_session (run_agent cfg c now db s)) = id s).
  { rewrite Hs. destruct (stamp_end_fields now s1) as (_ & _ & _ & _ & H1 & _).
    destruct Hsame as (H2 & _). congruence. }
  rewrite <- Hid. clear Hid Hs Hsame. revert Hok. unfold run_agent.
  destruct (container_id s) as [[|ch cid]|]; try discriminate.
  intros _.
  destruct (run_task _ _ _ _ _) as [evs outcome].
  destruct (track_events _ _ _ _) as [db1 counter].
  destruct outcome as [result|e];
    [destruct (after_agent _ _ _ _ _) as [[db2 s2] raised]|];
    simpl; apply lookup_insert_eq.
Qed.






Lemma pipeline_failed_uncharged (cfg : Settings) (e : string) (now : Q) (db : DB)
    (sid : string) (s : DevSession) :
  db_sessions db !! sid = Some s -> id s = sid -> duration_seconds s = None ->
  db_billing (pipeline_failed cfg e now db sid) = db_billing db
  /\ db_subscriptions (pipeline_failed cfg e now db sid) = db_subscriptions db
  /\ db_sessions (pipeline_failed cfg e now db sid) !! sid
     = Some (match ended_at s with
             | Some _ => set_error_message (Some e) (set_status FAILED s)
             | None => set_ended_at (Some now)
                         (set_error_message (Some e) (set_status FAILED s))
             end).
Proof.
  intros Hrow Hid Hd. unfold pipeline_failed. rewrite Hrow.
  unfold finalize_session, positive_duration. cbn [duration_seconds set_error_message set_status].
  rewrite Hd. cbn [ended_at set_error_message set_status fst].
  split; [destruct (ended_at s); reflexivity|].
  split; [destruct (ended_at s); reflexivity|].
  rewrite <- Hid.
  destruct (ended_at s) eqn:He; unfold flush; cbn; rewrite ?He; apply lookup_insert_eq.
Qed.

(** X15. A session whose provisioning fails is not charged. When
    creating the container raises, an execution of the pipeline on a
    session without a recorded duration adds no billing record and changes
    no subscription; it leaves the session failed with the exception as its
    error message, its cost as it was and no duration. *)
Theorem failed_provisioning_is_not_charged
    (rt : PyBuiltins) (cfg : Settings) (e : string) (c : Container) (t0 t1 t2 : Q)
    (db : DB) (sid : string) (s : DevSession) (repo : Repository) :
  db_sessions db !! sid = Some s -> id s = sid ->
  db_repositories db !! repository_id s = Some repo ->
  duration_seconds s = None ->
  let db' := _run_session_pipeline cfg (Raise e) c t0 t1 t2 db sid in
  db_billing db' = db_billing db
  /\ db_subscriptions db' = db_subscriptions db
  /\ exists s',
       db_sessions db' !! sid = Some s'
       /\ status s' = FAILED /\ error_message s' = Some e
       /\ cost_cents s' = cost_cents s /\ duration_seconds s' = None
       /\ container_id s' = container_id s.
Proof.
  intros Hrow Hid Hrepo Hd. cbv zeta. unfold _run_session_pipeline. rewrite Hrow.
  unfold start_session. rewrite Hrepo. cbn [out_raised out_db].
  set (failed := set_error_message (Some e)
                   (set_status FAILED (set_started_at (Some t0) (set_status PROVISIONING s)))).
  set (db1 := flush failed _).
  assert (Hrow1 : db_sessions db1 !! sid = Some failed).
  { rewrite <- Hid. apply (flush_row failed). }
  destruct (pipeline_failed_uncharged cfg e t2 db1 sid failed Hrow1 Hid Hd)
    as (Hb & Hs & Hr).
  rewrite Hb, Hs. split; [reflexivity|]. split; [reflexivity|].
  eexists. split; [exact Hr|].
  unfold failed. cbn [ended_at set_error_message set_status set_started_at].
  destruct (ended_at s); repeat split; assumption.
Qed.

Lemma failed_provisioning_is_not_charged_witness :
  db_billing (_run_session_pipeline (rt := some_builtins) settings
                (Raise "docker daemon unreachable") quiet_container 0 30 60 fresh_db "s")
  = db_billing fresh_db.
Proof.
  exact (proj1 (failed_provisioning_is_not_charged some_builtins settings
                  "docker daemon unreachable" quiet_container 0 30 60 fresh_db "s"
                  pending_session a_repository eq_refl eq_refl eq_refl eq_refl)).
Defined.

(** A difference of a microsecond or more between two clock readings is a
    positive number of seconds. *)
Lemma timedelta_seconds_positive (delta : Q) :
  (1 # 1000000 <= delta)%Q -> (0 < timedelta_seconds delta)%Q.
Proof.
  intros H. unfold timedelta_seconds.
  apply (Qlt_le_trans _ (2 ^ (-20))%Q); [reflexivity|].
  apply round_ge_pow2; [lia|].
  apply (Qle_trans _ (1 # 1000000)%Q); [discriminate|exact H].
Qed.



(** X17. Cancelling a session that was started bills the time since
    then. [cancel_session] at [now] on a session started at [t0], a
    microsecond or more before, stores the status [CANCELLED], the
    duration [(now - t0).total_seconds()] and the cost
    [int(duration / 60 * rate * 100)], the quotient and the products being
    those of binary64, and appends one billing record for that amount,
    which is taken to fit its [Integer] column; on a session that was
    never started and has no duration it bills nothing. *)
Theorem cancellation_bills_the_elapsed_time
    (cfg : Settings) (now : Q) (db : DB) (s : DevSession) :
  let cancelled := cancel_session cfg now db s in
  (forall t0, started_at s = Some t0 -> (1 # 1000000 <= now - t0)%Q ->
     let seconds := timedelta_seconds (now - t0) in
     let minutes := Float.div seconds 60 in
     let amount := session_cost (RATE_PER_MINUTE cfg) minutes in
     Column.Integer amount = true ->
     status (snd cancelled) = CANCELLED
     /\ duration_seconds (snd cancelled) = Some seconds
     /\ cost_cents (snd cancelled) = amount
     /\ db_billing (fst cancelled)
        = (db_billing db ++
           [{| bill_user_id := user_id s; bill_session_id := Some (id s);
               billing_type := SESSION_CHARGE; amount_cents := amount;
               description_minutes := minutes;
               description_task := Py.take 50 (task_description s) |}])%list)
  /\ (started_at s = None -> duration_seconds s = None ->
      status (snd cancelled) = CANCELLED
      /\ cost_cents (snd cancelled) = cost_cents s
      /\ db_billing (fst cancelled) = db_billing db
      /\ db_subscriptions (fst cancelled) = db_subscriptions db).
Proof.
  cbv zeta. unfold cancel_session.
  set (stamped := stamp_end now (set_status CANCELLED s)).
  destruct (stamp_end_fields now (set_status CANCELLED s))
    as (G1 & G2 & G3 & G4 & G5 & G6 & G7).
  fold stamped in G1, G2, G3, G4, G5, G6, G7.
  cbn [status started_at duration_seconds id user_id task_description set_status]
    in G1, G3, G5, G6, G7.
  destruct (finalize_session_fields cfg now (flush stamped db) stamped)
    as (F1 & _ & F3 & _).
  cbv zeta in F1, F3.
  split.
  - intros t0 Ht0 Hlt _. rewrite Ht0 in G3.
    pose proof (timedelta_seconds_positive _ Hlt) as Hpos.
    destruct (finalize_positive cfg now (flush stamped db) stamped
                (timedelta_seconds (now - t0))
                (positive_duration_some _ _ G3 Hpos)) as (Hfin & Hbill & _).
    cbv zeta in Hfin, Hbill.
    split; [rewrite F1; exact G1|]. split; [rewrite F3; exact G3|].
    split; [rewrite Hfin; destruct (ended_at stamped); reflexivity|].
    rewrite Hbill, G5, G6, G7. reflexivity.
  - intros Hnone Hd. rewrite Hnone, Hd in G3.
    assert (Hp : positive_duration stamped = None).
    { unfold positive_duration. rewrite G3. reflexivity. }
    destruct (finalize_not_positive cfg now (flush stamped db) stamped Hp)
      as (Hbill & _ & Hsubs).
    split; [rewrite F1; exact G1|].
    split; [|split; [exact Hbill|exact Hsubs]].
    unfold finalize_session. rewrite Hp. cbn [snd].
    destruct (ended_at stamped); cbn [cost_cents set_ended_at];
      unfold stamped, stamp_end; cbn [started_at set_ended_at set_status];
      rewrite Hnone; reflexivity.
Qed.

Lemma cancellation_bills_the_elapsed_time_witness :
  cost_cents (snd (cancel_session settings 1740 fresh_db (running_session "s" "u"))) = 28.
Proof.
  destruct (proj1 (cancellation_bills_the_elapsed_time settings 1740 fresh_db
                     (running_session "s" "u")) 0%Q eq_refl ltac:(discriminate) eq_refl)
    as (_ & _ & Hcost & _).
  rewrite Hcost. vm_compute. reflexivity.
Defined.

Lemma insert_over (m : gmap string DevSession) (k : string) (a b : DevSession) :
  <[k := a]> (<[k := b]> m) = <[k := a]> m.
Proof.
  apply map_eq. intros i. destruct (decide (i = k)) as [->|Hne].
  - rewrite !lookup_insert_eq. reflexivity.
  - rewrite !lookup_insert_ne by congruence. reflexivity.
Qed.

Lemma rows_with (m : gmap string DevSession) (k : string) (v : DevSession) :
  (map_to_list (<[k := v]> m)).*2 ≡ₚ v :: (map_to_list (delete k m)).*2.
Proof.
  assert (H : <[k := v]> m = <[k := v]> (delete k m)).
  { apply map_eq. intros i. destruct (decide (i = k)) as [->|Hne].
    - rewrite !lookup_insert_eq. reflexivity.
    - rewrite !lookup_insert_ne, lookup_delete_ne by congruence. reflexivity. }
  rewrite H.
  change (v :: (map_to_list (delete k m)).*2) with (((k, v) :: map_to_list (delete k m)).*2).
  apply fmap_Permutation, map_to_list_insert, lookup_delete_eq.
Qed.

(** Replacing a row changes the number of rows that satisfy a test by the
    difference between the new row and the old one. *)
Lemma replace_row_count (f : DevSession -> bool) (m : gmap string DevSession)
    (k : string) (old new : DevSession) :
  m !! k = Some old ->
  (length (List.filter f (map_to_list (<[k := new]> m)).*2) + (if f old then 1 else 0)
   = length (List.filter f (map_to_list m).*2) + (if f new then 1 else 0))%nat.
Proof.
  intros Hold.
  assert (Hm : (map_to_list m).*2 ≡ₚ old :: (map_to_list (delete k m)).*2).
  { rewrite <- (rows_with m k old). rewrite insert_id by exact Hold. reflexivity. }
  rewrite (filter_length_Permutation f _ _ (rows_with m k new)).
  rewrite (filter_length_Permutation f _ _ Hm).
  simpl. destruct (f old), (f new); simpl; lia.
Qed.

Lemma cancel_session_rows (cfg : Settings) (now : Q) (db : DB) (s : DevSession) :
  db_sessions (fst (cancel_session cfg now db s))
  = <[id s := snd (cancel_session cfg now db s)]> (db_sessions db).
Proof.
  unfold cancel_session, finalize_session.
  set (stamped := stamp_end now (set_status CANCELLED s)).
  assert (Hid : id stamped = id s).
  { destruct (stamp_end_fields now (set_status CANCELLED s)) as (_ & _ & _ & _ & H & _).
    exact H. }
  destruct (positive_duration stamped); destruct (ended_at stamped) eqn:He;
    simpl; rewrite ?He; unfold flush; simpl;
    repeat (destruct (db_subscriptions _ !! _); simpl);
    rewrite ?Hid; apply insert_over.
Qed.

(** X18. Cancelling a session frees its slot. When a session that counts
    as active (provisioning, running or with the agent at work) and is
    stored under its key is cancelled, the number of active sessions
    that the admission check counts for its owner goes down by one, and the
    number of every other user stays as it was. *)
Theorem cancelled_session_frees_its_slot
    (cfg : Settings) (now : Q) (db : DB) (s : DevSession) :
  db_sessions db !! id s = Some s ->
  counts_as_active (status s) = true ->
  let db' := fst (cancel_session cfg now db s) in
  (length (active_sessions db' (user_id s)) + 1 = length (active_sessions db (user_id s)))%nat
  /\ (forall other, other <> user_id s ->
        length (active_sessions db' other) = length (active_sessions db other)).
Proof.
  intros Hrow Hactive. cbv zeta. unfold active_sessions.
  rewrite cancel_session_rows.
  set (cancelled := snd (cancel_session cfg now db s)).
  assert (Hst : status cancelled = CANCELLED /\ user_id cancelled = user_id s).
  { unfold cancelled, cancel_session.
    destruct (finalize_session_fields cfg now
                (flush (stamp_end now (set_status CANCELLED s)) db)
                (stamp_end now (set_status CANCELLED s))) as (F1 & _ & _ & _ & _ & F6 & _).
    cbv zeta in F1, F6.
    destruct (stamp_end_fields now (set_status CANCELLED s)) as (G1 & _ & _ & _ & _ & G6 & _).
    cbn [status user_id set_status] in G1, G6.
    split; [rewrite F1; exact G1 | rewrite F6; exact G6]. }
  destruct Hst as (Hst & Huid).
  split.
  - pose proof (replace_row_count
                  (fun x => String.eqb (user_id x) (user_id s) && counts_as_active (status x))
                  (db_sessions db) (id s) s cancelled Hrow) as H.
    cbv beta in H. rewrite Hst, Huid, String.eqb_refl, Hactive in H. simpl in H. lia.
  - intros other Hne.
    pose proof (replace_row_count
                  (fun x => String.eqb (user_id x) other && counts_as_active (status x))
                  (db_sessions db) (id s) s cancelled Hrow) as H.
    cbv beta in H. rewrite Huid in H.
    assert (E : String.eqb (user_id s) other = false) by (apply String.eqb_neq; congruence).
    rewrite E in H. simpl in H. lia.
Qed.

Lemma cancelled_session_frees_its_slot_witness :
  (length (active_sessions
             (fst (cancel_session settings 60 busy_db (running_session "s1" "u"))) "u") + 1
   = length (active_sessions busy_db "u"))%nat.
Proof.
  exact (proj1 (cancelled_session_frees_its_slot settings 60 busy_db
                  (running_session "s1" "u") eq_refl eq_refl)).
Defined.
(** ** The billing service *)

Lemma with_subscriptions_active (subs : gmap string Subscription) (db : DB) (uid : string) :
  active_sessions (with_subscriptions subs db) uid = active_sessions db uid.
Proof. reflexivity. Qed.

(** X19. Asking for a subscription that does not exist creates the free
    one, and nothing else changes: asking again returns the same row and
    the same tables, and the admission check, which treats a user without a
    subscription as a free user who used nothing, answers every user as it
    did before. *)
Theorem default_subscription_changes_no_answer
    (limits_of : SubscriptionTier -> TierLimits) (db : DB) (uid : string) :
  let created := get_or_create_subscription db uid in
  get_or_create_subscription (fst created) uid = created
  /\ db_subscriptions (fst created) !! uid = Some (snd created)
  /\ (db_subscriptions db !! uid = None ->
      snd created = {| tier := FREE; is_active := true; minutes_used_this_period := 0 |})
  /\ (forall who,
        _check_tier_limits limits_of (fst created) who
        = _check_tier_limits limits_of db who).
Proof.
  cbv zeta. unfold get_or_create_subscription.
  destruct (db_subscriptions db !! uid) as [sub|] eqn:Hsub; cbn [fst snd].
  - rewrite Hsub. repeat split; congruence.
  - cbn [db_subscriptions with_subscriptions]. rewrite lookup_insert_eq.
    split; [reflexivity|]. split; [reflexivity|]. split; [reflexivity|].
    intros who. unfold _check_tier_limits.
    cbn [db_subscriptions with_subscriptions].
    rewrite with_subscriptions_active.
    destruct (decide (who = uid)) as [->|Hne].
    + rewrite lookup_insert_eq, Hsub. reflexivity.
    + rewrite lookup_insert_ne by congruence. reflexivity.
Qed.

Lemma nothing_used_is_under_quota (limit : Z) :
  (0 <? limit) && Qle_bool (inject_Z limit) 0 = false.
Proof.
  destruct (0 <? limit) eqn:Hpos; [|reflexivity].
  apply Z.ltb_lt in Hpos. unfold Qle_bool. simpl.
  apply Z.leb_gt. lia.
Qed.

(** The check for a user whose counter is at 0: the monthly quota does not
    deny. *)
Lemma check_with_nothing_used (limits_of : SubscriptionTier -> TierLimits) (db : DB)
    (uid : string) (sub : Subscription) :
  db_subscriptions db !! uid = Some sub ->
  minutes_used_this_period sub = 0%Q ->
  _check_tier_limits limits_of db uid = Allowed
  \/ _check_tier_limits limits_of db uid
     = Denied (concurrency_reason (limits_of (tier sub))).
Proof.
  intros Hsub Hzero. unfold _check_tier_limits. rewrite Hsub, Hzero.
  rewrite nothing_used_is_under_quota.
  destruct (_ && _); auto.
Qed.

(** X20. [upgrade_subscription] stores the new tier with the period
    counter back at 0, creating the subscription when there is none, and
    touches no other user's; right after it the monthly quota cannot deny
    the user, only the limit on concurrent sessions can. *)
Theorem upgrade_resets_the_quota
    (limits_of : SubscriptionTier -> TierLimits) (db : DB) (uid : string)
    (new_tier : SubscriptionTier) :
  let db' := fst (upgrade_subscription db uid new_tier) in
  let sub := snd (upgrade_subscription db uid new_tier) in
  db_subscriptions db' !! uid = Some sub
  /\ tier sub = new_tier
  /\ minutes_used_this_period sub = 0%Q
  /\ (forall other, other <> uid ->
        db_subscriptions db' !! other = db_subscriptions db !! other)
  /\ (_check_tier_limits limits_of db' uid = Allowed
      \/ _check_tier_limits limits_of db' uid
         = Denied (concurrency_reason (limits_of new_tier))).
Proof.
  cbv zeta. unfold upgrade_subscription, get_or_create_subscription.
  destruct (db_subscriptions db !! uid) as [old|] eqn:Hold; cbn [fst snd].
  - cbn [db_subscriptions with_subscriptions].
    split; [apply lookup_insert_eq|]. split; [reflexivity|]. split; [reflexivity|].
    split; [intros other Hne; apply lookup_insert_ne; congruence|].
    eapply (check_with_nothing_used limits_of _ uid
              {| tier := new_tier; is_active := is_active old;
                 minutes_used_this_period := 0 |});
      [apply lookup_insert_eq|reflexivity].
  - cbn [db_subscriptions with_subscriptions].
    split; [apply lookup_insert_eq|]. split; [reflexivity|]. split; [reflexivity|].
    split.
    + intros other Hne. rewrite !lookup_insert_ne by congruence. reflexivity.
    + eapply (check_with_nothing_used limits_of _ uid
                {| tier := new_tier; is_active := true;
                   minutes_used_this_period := 0 |});
        [apply lookup_insert_eq|reflexivity].
Qed.

(** X21. [reset_period_usage] sets the counter of every active
    subscription to 0 and keeps its tier; it leaves the inactive ones as
    they are, so a user whose subscription is inactive keeps the minutes
    that count against the quota; it creates no subscription; and the
    number it returns is at most the number of subscriptions. After it the
    monthly quota denies no user whose subscription is active. *)
Theorem reset_period_usage_resets_the_active
    (limits_of : SubscriptionTier -> TierLimits) (db : DB) :
  let db' := fst (reset_period_usage db) in
  (forall uid sub, db_subscriptions db !! uid = Some sub -> is_active sub = true ->
     db_subscriptions db' !! uid
     = Some {| tier := tier sub; is_active := true; minutes_used_this_period := 0 |}
     /\ (_check_tier_limits limits_of db' uid = Allowed
         \/ _check_tier_limits limits_of db' uid
            = Denied (concurrency_reason (limits_of (tier sub)))))
  /\ (forall uid sub, db_subscriptions db !! uid = Some sub -> is_active sub = false ->
        db_subscriptions db' !! uid = Some sub)
  /\ (forall uid, db_subscriptions db !! uid = None -> db_subscriptions db' !! uid = None)
  /\ 0 <= snd (reset_period_usage db) <= Z.of_nat (size (db_subscriptions db)).
Proof.
  cbv zeta. unfold reset_period_usage. cbn [fst snd db_subscriptions with_subscriptions].
  split; [|split; [|split]].
  - intros uid sub Hsub Hact.
    assert (Hrow : ((fun sub0 : Subscription =>
                       if is_active sub0
                       then {| tier := tier sub0; is_active := is_active sub0;
                               minutes_used_this_period := 0 |}
                       else sub0) <$> db_subscriptions db) !! uid
                   = Some {| tier := tier sub; is_active := true;
                             minutes_used_this_period := 0 |}).
    { rewrite lookup_fmap, Hsub. simpl. rewrite Hact. reflexivity. }
    split; [exact Hrow|].
    eapply (check_with_nothing_used limits_of _ uid
              {| tier := tier sub; is_active := true; minutes_used_this_period := 0 |});
      [exact Hrow|reflexivity].
  - intros uid sub Hsub Hact. rewrite lookup_fmap, Hsub. simpl. rewrite Hact. reflexivity.
  - intros uid Hsub. rewrite lookup_fmap, Hsub. reflexivity.
  - split; [lia|]. apply Nat2Z.inj_le.
    etransitivity; [apply List.filter_length_le|].
    rewrite length_fmap, length_map_to_list. reflexivity.
Qed.

Lemma reset_period_usage_resets_the_active_witness :
  db_subscriptions (fst (reset_period_usage busy_db)) !! "u" = Some (free_with 0).
Proof.
  exact (proj1 (proj1 (reset_period_usage_resets_the_active TIER_LIMITS busy_db)
                  "u" (free_with 100000) eq_refl eq_refl)).
Defined.

Lemma total_spent_with_subscriptions (subs : gmap string Subscription) (db : DB)
    (uid : string) :
  total_spent (with_subscriptions subs db) uid = total_spent db uid.
Proof. reflexivity. Qed.

Lemma usage_summary_total_spent (db : DB) (uid : string) :
  total_spent_cents (snd (get_usage_summary db uid)) = total_spent db uid.
Proof.
  unfold get_usage_summary, get_or_create_subscription.
  destruct (db_subscriptions db !! uid); reflexivity.
Qed.

Lemma sum_snoc (l : list Z) (x : Z) :
  fold_right Z.add 0 (l ++ [x]) = fold_right Z.add 0 l + x.
Proof. induction l as [|a l IH]; simpl; lia. Qed.

(** X22. What finalization charges is what the usage summary shows: after
    a session with a positive duration is finalized, the total spent that
    [get_usage_summary] reports to its owner has grown by the cost stored in
    the session, and the total of every other user is as it was. *)
Theorem finalization_shows_in_the_usage_summary
    (cfg : Settings) (now : Q) (db : DB) (s : DevSession) (d : Q) :
  duration_seconds s = Some d -> (0 < d)%Q ->
  let finalized := finalize_session cfg now db s in
  total_spent_cents (snd (get_usage_summary (fst finalized) (user_id s)))
  = total_spent_cents (snd (get_usage_summary db (user_id s))) + cost_cents (snd finalized)
  /\ (forall other, other <> user_id s ->
        total_spent_cents (snd (get_usage_summary (fst finalized) other))
        = total_spent_cents (snd (get_usage_summary db other))).
Proof.
  intros Hd Hpos. cbv zeta. rewrite !usage_summary_total_spent.
  destruct (finalize_positive cfg now db s d (positive_duration_some s d Hd Hpos))
    as (Hs & Hb & _).
  cbv zeta in Hs, Hb.
  assert (Hcost : cost_cents (snd (finalize_session cfg now db s))
                  = session_cost (RATE_PER_MINUTE cfg) (Float.div d 60)).
  { rewrite Hs. destruct (ended_at s); reflexivity. }
  split.
  - unfold total_spent at 1. rewrite Hb, List.filter_app. cbn [List.filter].
    cbn [bill_user_id billing_type is_session_charge].
    rewrite String.eqb_refl. cbn [andb]. rewrite map_app. cbn [map amount_cents].
    rewrite sum_snoc, Hcost. reflexivity.
  - intros other Hne. setoid_rewrite usage_summary_total_spent.
    unfold total_spent. rewrite Hb, List.filter_app. cbn [List.filter].
    cbn [bill_user_id billing_type is_session_charge].
    assert (String.eqb (user_id s) other = false) as ->.
    { apply String.eqb_neq. congruence. }
    cbn [andb]. rewrite app_nil_r. reflexivity.
Qed.

Lemma finalization_shows_in_the_usage_summary_witness :
  let db := db_with_subscription "u" (free_with 0) in
  let finalized := finalize_session settings 200 db (finished_session 180) in
  total_spent_cents (snd (get_usage_summary (fst finalized) "u"))
  = total_spent_cents (snd (get_usage_summary db "u")) + cost_cents (snd finalized).
Proof.
  exact (proj1 (finalization_shows_in_the_usage_summary settings 200
                  (db_with_subscription "u" (free_with 0)) (finished_session 180) 180
                  eq_refl eq_refl)).
Defined.
(** ** The container service: images and the sweep *)

Lemma lower_char_idempotent (c : ascii) : Py.lower_char (Py.lower_char c) = Py.lower_char c.
Proof. destruct c as [[] [] [] [] [] [] [] []]; vm_compute; reflexivity. Qed.

Lemma lower_idempotent (s : string) : Py.lower (Py.lower s) = Py.lower s.
Proof.
  induction s as [|c s IH]; [reflexivity|].
  cbn [Py.lower]. rewrite lower_char_idempotent, IH. reflexivity.
Qed.

(** X23. The image of a session is chosen by the repository's language
    without regard to its case, by this table: python gets the python
    image, javascript and typescript the node image, java, go, rust and
    ruby each their own, and a language that is missing, empty or not one
    of these seven gets the universal image. The name of the image is the
    configured prefix, a dash, the name and [:latest]. *)
Theorem image_is_chosen_ignoring_case (prefix : string) (language : option string) :
  let key := Py.lower (match language with Some l => l | None => "" end) in
  let image name := prefix ++ "-" ++ name ++ ":latest" in
  _select_image prefix (option_map Py.lower language) = _select_image prefix language
  /\ (key = "python" -> _select_image prefix language = image "python")
  /\ (key = "javascript" \/ key = "typescript" -> _select_image prefix language = image "node")
  /\ (key = "java" -> _select_image prefix language = image "java")
  /\ (key = "go" -> _select_image prefix language = image "go")
  /\ (key = "rust" -> _select_image prefix language = image "rust")
  /\ (key = "ruby" -> _select_image prefix language = image "ruby")
  /\ (~ In key ["python"; "javascript"; "typescript"; "java"; "go"; "rust"; "ruby"] ->
      _select_image prefix language = image "universal")
  /\ _select_image prefix None = image "universal"
  /\ _select_image prefix (Some "") = image "universal"
  /\ _select_image prefix (Some "Python") = image "python"
  /\ _select_image prefix (Some "TypeScript") = image "node"
  /\ _select_image prefix (Some "JAVASCRIPT") = image "node"
  /\ _select_image prefix (Some "Cobol") = image "universal".
Proof.
  cbv zeta. split.
  { destruct language as [l|]; [|reflexivity].
    unfold _select_image. cbn [option_map]. rewrite lower_idempotent. reflexivity. }
  unfold _select_image. cbv zeta.
  repeat match goal with
         | |- _ /\ _ => split
         | |- _ = _ => reflexivity
         | |- _ = _ -> _ => intros ->; reflexivity
         | |- _ \/ _ -> _ => intros [-> | ->]; reflexivity
         end.
  intros Hnot.
  repeat match goal with
         | |- context [String.eqb ?k ?name] =>
             destruct (String.eqb k name) eqn:E;
             [apply String.eqb_eq in E; exfalso; apply Hnot; rewrite E; cbn [In]; tauto
             |clear E]
         end.
  reflexivity.
Qed.

Lemma image_is_chosen_ignoring_case_witness :
  _select_image "adelbot" (Some "RUST") = "adelbot-rust:latest".
Proof.
  pose proof (image_is_chosen_ignoring_case "adelbot" (Some "RUST")) as H.
  cbv zeta in H. destruct H as (_ & _ & _ & _ & _ & H & _).
  exact (H eq_refl).
Defined.

Section SweepProperties.

Variable CONTAINER_MAX_LIFETIME_HOURS : Z.
Variable seconds_alive : string -> Result Q.

(** A container the sweep may remove: its label states a time that is
    more than the maximal lifetime ago. *)
Lemma sweep_container_calls (container : DockerContainer) (call : DockerCall) :
  In call (fst (sweep_container CONTAINER_MAX_LIFETIME_HOURS seconds_alive container)) ->
  (call = Stop (container_name container) \/ call = Remove (container_name container))
  /\ exists created_str seconds,
       created_at_label container = Some created_str
       /\ seconds_alive created_str = Ok seconds
       /\ (inject_Z CONTAINER_MAX_LIFETIME_HOURS < seconds / 3600)%Q.
Proof.
  unfold sweep_container.
  destruct (created_at_label container) as [[|ch created_str]|]; try (intros []).
  destruct (seconds_alive (String ch created_str)) as [seconds|m] eqn:Hage; try (intros []).
  destruct (Qle_bool (seconds / 3600) (inject_Z CONTAINER_MAX_LIFETIME_HOURS)) eqn:Hle;
    cbn [negb]; try (intros []).
  assert (Hold : (inject_Z CONTAINER_MAX_LIFETIME_HOURS < seconds / 3600)%Q).
  { apply Qnot_le_lt. intros H. apply Qle_bool_iff in H. congruence. }
  intros Hin. split.
  - destruct (stop_raises container); [|destruct (remove_raises container)];
      cbn [fst In] in Hin; intuition auto.
  - exists (String ch created_str), seconds. auto.
Qed.

Lemma sweep_container_count (container : DockerContainer) :
  0 <= snd (sweep_container CONTAINER_MAX_LIFETIME_HOURS seconds_alive container) <= 1
  /\ (snd (sweep_container CONTAINER_MAX_LIFETIME_HOURS seconds_alive container) = 1 ->
      In (Remove (container_name container))
        (fst (sweep_container CONTAINER_MAX_LIFETIME_HOURS seconds_alive container))
      /\ stop_raises container = None /\ remove_raises container = None).
Proof.
  unfold sweep_container.
  repeat case_match; cbn [fst snd In]; (split; [lia|]); intros Hone;
    try discriminate Hone; auto.
Qed.

Lemma cleanup_app (l1 l2 : list DockerContainer) :
  _cleanup_expired_sync CONTAINER_MAX_LIFETIME_HOURS seconds_alive (l1 ++ l2)
  = ((fst (_cleanup_expired_sync CONTAINER_MAX_LIFETIME_HOURS seconds_alive l1)
      ++ fst (_cleanup_expired_sync CONTAINER_MAX_LIFETIME_HOURS seconds_alive l2))%list,
     snd (_cleanup_expired_sync CONTAINER_MAX_LIFETIME_HOURS seconds_alive l1)
     + snd (_cleanup_expired_sync CONTAINER_MAX_LIFETIME_HOURS seconds_alive l2)).
Proof.
  induction l1 as [|container l1 IH].
  - simpl. destruct (_cleanup_expired_sync _ _ l2). reflexivity.
  - cbn [app _cleanup_expired_sync]. rewrite IH.
    destruct (sweep_container _ _ container) as [calls cleaned].
    destruct (_cleanup_expired_sync _ _ l1) as [later more].
    cbn [fst snd]. rewrite <- app_assoc. f_equal. lia.
Qed.

End SweepProperties.

(** X24. The sweep stops and removes expired containers only: every call
    it makes is on a container of the list whose [adelbot.created_at]
    label parses to a time more than [CONTAINER_MAX_LIFETIME_HOURS] hours
    ago, so a container without the label, with a label that does not
    parse, or exactly at the limit is left alone. What happens to one
    container has no effect on the others (the sweep of a list is the
    sweeps of its parts, one after the other), and the number returned
    counts containers that were removed: it is at most the number of
    containers. *)
Theorem sweep_removes_expired_containers_only
    (CONTAINER_MAX_LIFETIME_HOURS : Z) (seconds_alive : string -> Result Q)
    (containers : list DockerContainer) :
  let swept := _cleanup_expired_sync CONTAINER_MAX_LIFETIME_HOURS seconds_alive containers in
  (forall call, In call (fst swept) ->
     exists container created_str seconds,
       In container containers
       /\ (call = Stop (container_name container)
           \/ call = Remove (container_name container))
       /\ created_at_label container = Some created_str
       /\ seconds_alive created_str = Ok seconds
       /\ (inject_Z CONTAINER_MAX_LIFETIME_HOURS < seconds / 3600)%Q)
  /\ 0 <= snd swept <= Z.of_nat (length containers)
  /\ (forall before after,
        containers = (before ++ after)%list ->
        swept
        = ((fst (_cleanup_expired_sync CONTAINER_MAX_LIFETIME_HOURS seconds_alive before)
            ++ fst (_cleanup_expired_sync CONTAINER_MAX_LIFETIME_HOURS seconds_alive after))%list,
           snd (_cleanup_expired_sync CONTAINER_MAX_LIFETIME_HOURS seconds_alive before)
           + snd (_cleanup_expired_sync CONTAINER_MAX_LIFETIME_HOURS seconds_alive after))).
Proof.
  cbv zeta. split; [|split].
  - induction containers as [|container rest IH]; [intros call []|].
    cbn [_cleanup_expired_sync]. intros call.
    pose proof (sweep_container_calls CONTAINER_MAX_LIFETIME_HOURS seconds_alive container call)
      as Hone.
    destruct (sweep_container _ _ container) as [calls cleaned].
    destruct (_cleanup_expired_sync _ _ rest) as [later more].
    cbn [fst] in *. intros Hin. apply in_app_or in Hin. destruct Hin as [Hin|Hin].
    + destruct (Hone Hin) as (Hcall & created_str & seconds & H1 & H2 & H3).
      exists container, created_str, seconds. cbn [In]. auto.
    + destruct (IH call Hin) as (c & created_str & seconds & H0 & H1).
      exists c, created_str, seconds. cbn [In]. auto.
  - induction containers as [|container rest IH]; [simpl; lia|].
    cbn [_cleanup_expired_sync].
    pose proof (sweep_container_count CONTAINER_MAX_LIFETIME_HOURS seconds_alive container)
      as (Hone & _).
    destruct (sweep_container _ _ container) as [calls cleaned].
    destruct (_cleanup_expired_sync _ _ rest) as [later more].
    cbn [snd length] in *. lia.
  - intros before after ->. apply cleanup_app.
Qed.
(** ** The live feed and the registry of connections *)

Lemma filter_none {A : Type} (p : A -> bool) (l : list A) :
  Forall (fun a => p a = false) l -> List.filter p l = [].
Proof.
  induction 1 as [|a l Ha _ IH]; [reflexivity|]. simpl. rewrite Ha. exact IH.
Qed.

Lemma increasing_app_l (l1 l2 : list SessionEvent) : increasing (l1 ++ l2) -> increasing l1.
Proof.
  unfold increasing. rewrite map_app. apply StronglySorted_app_1_l.
Qed.

Lemma increasing_app_lt (l1 l2 : list SessionEvent) (a b : SessionEvent) :
  increasing (l1 ++ l2) -> In a l1 -> In b l2 -> sequence a < sequence b.
Proof.
  unfold increasing. rewrite map_app. intros H Ha Hb.
  apply (StronglySorted_app_1_elem_of Z.lt _ _ _ _ H);
    apply list_elem_of_In, in_map; assumption.
Qed.

Lemma last_or_nil {A : Type} (l : list A) : l = [] \/ exists front x, l = (front ++ [x])%list.
Proof. induction l as [|x front _] using rev_ind; eauto. Qed.

(** The cursor after a round on a log whose numbers increase: it has not
    gone back, every row of the log is at or below it, and it is the number
    of a row of the log unless it did not move. *)
Lemma cursor_after_round (log : list SessionEvent) (cursor : Z) :
  increasing log ->
  let sent := List.filter (fun e => cursor <? sequence e) log in
  let cursor' := fold_left (fun (_ : Z) e => sequence e) sent cursor in
  cursor <= cursor'
  /\ Forall (fun e => sequence e <= cursor') log
  /\ (cursor' = cursor \/ exists e, In e log /\ cursor' = sequence e).
Proof.
  intros Hinc sent cursor'.
  assert (Hsent : forall e, In e sent <-> In e log /\ cursor < sequence e).
  { intros e. unfold sent. rewrite List.filter_In, Z.ltb_lt. reflexivity. }
  pose proof (increasing_filter (fun e => cursor <? sequence e) log Hinc) as Hsorted.
  fold sent in Hsorted.
  destruct (last_or_nil sent) as [Hnil|(front & x & Hlast)].
  - assert (Hc : cursor' = cursor) by (unfold cursor'; rewrite Hnil; reflexivity).
    rewrite Hc. split; [lia|]. split; [|auto].
    apply List.Forall_forall. intros e He.
    destruct (Z_lt_le_dec cursor (sequence e)) as [Hlt|Hle]; [|exact Hle].
    assert (Hin : In e sent) by (apply Hsent; auto).
    rewrite Hnil in Hin. destruct Hin.
  - assert (Hc : cursor' = sequence x).
    { unfold cursor'. rewrite Hlast, fold_left_app. reflexivity. }
    assert (Hx : In x log /\ cursor < sequence x).
    { apply Hsent. rewrite Hlast. apply in_or_app. right. left. reflexivity. }
    rewrite Hc. split; [lia|]. split; [|right; exists x; tauto].
    apply List.Forall_forall. intros e He.
    destruct (Z_lt_le_dec cursor (sequence e)) as [Hlt|Hle]; [|lia].
    assert (Hin : In e sent) by (apply Hsent; auto).
    rewrite Hlast in Hin, Hsorted. apply in_app_or in Hin. destruct Hin as [Hin|[<-|[]]].
    + pose proof (increasing_app_lt front [x] e x Hsorted Hin (or_introl eq_refl)). lia.
    + lia.
Qed.

Lemma grows_final (sid : string) (states : list DB) (final : DB) (log : list SessionEvent) :
  grows sid log (states ++ [final]) ->
  exists more, events_of final sid = (log ++ more)%list.
Proof.
  revert log. induction states as [|db states IH]; intros log; cbn [app grows].
  - intros ((news & H) & _). exists news. exact H.
  - intros ((news & H) & Hrest). destruct (IH _ Hrest) as (more & Hmore).
    exists (news ++ more)%list. rewrite Hmore, H, <- app_assoc. reflexivity.
Qed.

Lemma poll_increasing (db : DB) (sid : string) (cursor : Z) :
  increasing (events_of db sid) ->
  poll db sid cursor
  = (List.filter (fun e => cursor <? sequence e) (events_of db sid),
     fold_left (fun (_ : Z) e => sequence e)
       (List.filter (fun e => cursor <? sequence e) (events_of db sid)) cursor).
Proof.
  intros Hinc. unfold poll.
  rewrite (order_by_sequence_increasing _ (increasing_filter _ _ Hinc)). reflexivity.
Qed.

Lemma feed_rounds_deliver (sid : string) (states : list DB) :
  forall (final : DB) (cursor : Z) (log : list SessionEvent),
    grows sid log (states ++ [final]) ->
    increasing (events_of final sid) ->
    Forall (fun db => feed_ends db sid = false) states ->
    List.concat (feed_rounds sid cursor (states ++ [final]))
    = List.filter (fun e => cursor <? sequence e) (events_of final sid).
Proof.
  induction states as [|db states IH]; intros final cursor log Hgrows Hinc Hopen.
  - cbn [app feed_rounds]. rewrite (poll_increasing final sid cursor Hinc).
    destruct (feed_ends final sid); cbn [List.concat]; apply app_nil_r.
  - cbn [app feed_rounds]. cbn [app grows] in Hgrows. destruct Hgrows as (_ & Hrest).
    inversion Hopen as [|? ? Hdb Hopen']; subst.
    destruct (grows_final sid states final _ Hrest) as (more & Hmore).
    assert (Hinc1 : increasing (events_of db sid)).
    { apply (increasing_app_l _ more). rewrite <- Hmore. exact Hinc. }
    rewrite (poll_increasing db sid cursor Hinc1), Hdb. cbn [List.concat].
    rewrite (IH final _ _ Hrest Hinc Hopen').
    destruct (cursor_after_round (events_of db sid) cursor Hinc1) as (Hle & Hall & Hfrom).
    cbv zeta in Hle, Hall, Hfrom.
    set (cursor' := fold_left (fun (_ : Z) e => sequence e)
                      (List.filter (fun e => cursor <? sequence e) (events_of db sid))
                      cursor) in *.
    rewrite Hmore, !List.filter_app.
    rewrite (filter_none (fun e => cursor' <? sequence e) (events_of db sid)).
    2: { eapply List.Forall_impl; [|exact Hall]. cbv beta. intros e He.
         apply Z.ltb_ge. exact He. }
    cbn [app]. f_equal. apply List.filter_ext_in. intros e He.
    destruct Hfrom as [->|(x & Hx & Hcx)]; [reflexivity|].
    assert (Hlt : sequence x < sequence e).
    { apply (increasing_app_lt (events_of db sid) more); [rewrite <- Hmore| |]; assumption. }
    assert (Hc' : (cursor' <? sequence e) = true) by (apply Z.ltb_lt; lia).
    rewrite Hc'. symmetry. apply Z.ltb_lt. lia.
Qed.

(** X25. A connection that stays open is sent every event once. Take
    the states of the database that the rounds of the loop find, the log
    of the session growing by appending from each to the next with
    sequence numbers that increase, and the session in none of the three
    final statuses before the last round. The rounds together send the rows
    numbered above 0 of the final log, each once and in the order of the
    log, however the rows were spread over the rounds. *)
Theorem feed_sends_every_event_once
    (session_id : string) (states : list DB) (final : DB) :
  grows session_id [] (states ++ [final]) ->
  increasing (events_of final session_id) ->
  Forall (fun db => feed_ends db session_id = false) states ->
  List.concat (session_websocket session_id (states ++ [final]))
  = List.filter (fun e => 0 <? sequence e) (events_of final session_id).
Proof.
  intros Hgrows Hinc Hopen. unfold session_websocket.
  exact (feed_rounds_deliver session_id states final 0 [] Hgrows Hinc Hopen).
Qed.

Lemma feed_sends_every_event_once_witness :
  List.concat (session_websocket "s" ([feed_db RUNNING first_events] ++ [feed_db COMPLETED all_events]))
  = List.filter (fun e => 0 <? sequence e) all_events.
Proof.
  apply (feed_sends_every_event_once "s" [feed_db RUNNING first_events]
           (feed_db COMPLETED all_events)).
  - split; [exists first_events; reflexivity|].
    split; [exists later_events; reflexivity|exact I].
  - unfold increasing. vm_compute. repeat constructor.
  - repeat constructor.
Defined.

(** *** The registry *)

Lemma remove_last_added (x : Z) (l : list Z) :
  ~ In x l -> ConnectionManager.remove x (l ++ [x]) = Some l.
Proof.
  induction l as [|y l IH]; intros Hnot; cbn [app ConnectionManager.remove].
  - rewrite Z.eqb_refl. reflexivity.
  - destruct (Z.eqb y x) eqn:E.
    + apply Z.eqb_eq in E. exfalso. apply Hnot. left. exact E.
    + rewrite IH; [reflexivity|]. intros Hin. apply Hnot. right. exact Hin.
Qed.

Lemma connect_lookup (manager : gmap string (list Z)) (session_id : string) (websocket : Z) :
  ConnectionManager.connect manager session_id websocket !! session_id
  = Some (match manager !! session_id with Some l => l | None => [] end ++ [websocket])%list.
Proof.
  unfold ConnectionManager.connect.
  destruct (manager !! session_id) as [l|] eqn:Hl; cbv beta iota zeta.
  - rewrite lookup_alter_eq, Hl. reflexivity.
  - rewrite lookup_alter_eq, lookup_insert_eq. reflexivity.
Qed.

Lemma connect_lookup_other (manager : gmap string (list Z)) (session_id other : string)
    (websocket : Z) :
  other <> session_id ->
  ConnectionManager.connect manager session_id websocket !! other = manager !! other.
Proof.
  intros Hne. unfold ConnectionManager.connect.
  destruct (manager !! session_id); cbv beta iota zeta.
  - rewrite lookup_alter_ne by congruence. reflexivity.
  - rewrite lookup_alter_ne, lookup_insert_ne by congruence. reflexivity.
Qed.

Lemma disconnect_connect (manager : gmap string (list Z)) (session_id : string)
    (websocket : Z) :
  tidy manager session_id websocket ->
  ConnectionManager.disconnect
    (ConnectionManager.connect manager session_id websocket) session_id websocket
  = Ok manager.
Proof.
  intros Htidy. unfold ConnectionManager.disconnect. rewrite connect_lookup.
  destruct (manager !! session_id) as [l|] eqn:Hl.
  - destruct (Htidy l Hl) as (Hne & Hnot).
    rewrite (remove_last_added websocket l Hnot).
    destruct l as [|a l]; [congruence|]. f_equal.
    apply map_eq. intros k. destruct (decide (k = session_id)) as [->|Hk].
    + rewrite lookup_insert_eq, Hl. reflexivity.
    + rewrite lookup_insert_ne, connect_lookup_other by congruence. reflexivity.
  - cbn [app ConnectionManager.remove]. rewrite Z.eqb_refl. f_equal.
    apply map_eq. intros k. destruct (decide (k = session_id)) as [->|Hk].
    + rewrite lookup_delete_eq, Hl. reflexivity.
    + rewrite lookup_delete_ne, connect_lookup_other by congruence. reflexivity.
Qed.

(** X26. A connection leaves the registry as it found it. In a registry
    that does not hold the socket yet and holds no session without a
    socket, [connect] puts the socket last in the list of its session and
    touches no other session, and [disconnect] undoes it exactly, removing
    the session with its last socket; so whatever the outcome of
    [session_websocket] (closed before it was accepted, or streamed to
    its end) the registry afterwards is the registry before, and the
    [finally] clause does not raise. *)
Theorem connection_leaves_the_registry_as_found
    (decode_token : string -> option string) (manager : gmap string (list Z))
    (websocket : Z) (token : option string) (db : DB) (session_id : string)
    (states : list DB) :
  tidy manager session_id websocket ->
  fst (session_websocket_endpoint decode_token manager websocket token db session_id states)
  = Ok manager
  /\ ConnectionManager.connect manager session_id websocket !! session_id
     = Some (match manager !! session_id with Some l => l | None => [] end ++ [websocket])%list
  /\ (forall other, other <> session_id ->
        ConnectionManager.connect manager session_id websocket !! other = manager !! other)
  /\ ConnectionManager.disconnect
       (ConnectionManager.connect manager session_id websocket) session_id websocket
     = Ok manager.
Proof.
  intros Htidy. split; [|split; [|split]].
  - unfold session_websocket_endpoint.
    destruct token as [[|ch token]|]; try reflexivity.
    destruct (decode_token (String ch token)) as [[|ch' uid]|]; try reflexivity.
    destruct (get_session db session_id (String ch' uid)); [|reflexivity].
    cbn [fst]. apply disconnect_connect. exact Htidy.
  - apply connect_lookup.
  - intros other Hne. apply connect_lookup_other. exact Hne.
  - apply disconnect_connect. exact Htidy.
Qed.

Lemma connection_leaves_the_registry_as_found_witness :
  ConnectionManager.disconnect
    (ConnectionManager.connect {[ "s" := [7] ]} "s" 8) "s" 8
  = Ok {[ "s" := [7] ]}.
Proof.
  refine (proj2 (proj2 (proj2 (connection_leaves_the_registry_as_found
            (fun _ => None) {[ "s" := [7] ]} 8 None fresh_db "s" [] _)))).
  intros l. vm_compute. intros [= <-]. split; [discriminate|]. intros [H|[]]. discriminate H.
Defined.

Lemma remove_after_live (send_json : Z -> bool) (live : list Z) (x : Z) (l : list Z) :
  Forall (fun ws => send_json ws = true) live -> send_json x = false ->
  ConnectionManager.remove x (live ++ x :: l) = Some (live ++ l)%list.
Proof.
  intros Hlive Hx. induction Hlive as [|y live Hy _ IH]; cbn [app ConnectionManager.remove].
  - rewrite Z.eqb_refl. reflexivity.
  - destruct (Z.eqb y x) eqn:E.
    + apply Z.eqb_eq in E. congruence.
    + rewrite IH. reflexivity.
Qed.

Lemma remove_all_dead (send_json : Z -> bool) (l live : list Z) :
  Forall (fun ws => send_json ws = true) live ->
  ConnectionManager.remove_all (List.filter (fun ws => negb (send_json ws)) l) (live ++ l)
  = Some (live ++ List.filter send_json l)%list.
Proof.
  revert live. induction l as [|x l IH]; intros live Hlive; cbn [List.filter].
  - reflexivity.
  - destruct (send_json x) eqn:Hx; cbn [negb ConnectionManager.remove_all].
    + specialize (IH (live ++ [x])%list). rewrite <- !app_assoc in IH. apply IH.
      apply Forall_app. split; [exact Hlive|]. constructor; [exact Hx|constructor].
    + rewrite (remove_after_live send_json live x l Hlive Hx). apply IH. exact Hlive.
Qed.

(** X27. [broadcast] never raises, and it leaves in the list of the
    session exactly the sockets that took the message, in their order:
    every socket on which sending raised is removed, however many there
    are and wherever they stand, and no other socket is. The list stays in
    the registry when it becomes empty, other sessions are not touched, and
    a session without a list gets none. *)
Theorem broadcast_keeps_the_live_sockets
    (send_json : Z -> bool) (manager : gmap string (list Z)) (session_id : string) :
  ConnectionManager.broadcast send_json manager session_id
  = match manager !! session_id with
    | Some l =>
        Ok (<[session_id := List.filter send_json l]> manager, List.filter send_json l)
    | None => Ok (manager, [])
    end.
Proof.
  unfold ConnectionManager.broadcast.
  destruct (manager !! session_id) as [l|]; [|reflexivity].
  pose proof (remove_all_dead send_json l [] (List.Forall_nil _)) as H.
  cbn [app] in H. cbv zeta. rewrite H. reflexivity.
Qed.

(** X28. The feed of a session is streamed to its owner only, and every
    other request is closed before it is accepted, the registry untouched:
    a request without a token, or with an empty one, is closed with 4001
    [Missing token]; one whose token does not decode to a user with 4001
    [Invalid token]; one whose token decodes to a user who owns no session
    of that key, because the session is missing or belongs to somebody
    else, with 4004 [Session not found]; and one from the owner is
    accepted and sent the rounds of the loop. So whenever a connection is
    streamed, the token decoded to the user who owns the session. *)
Theorem feed_is_streamed_to_the_owner_only
    (decode_token : string -> option string) (manager : gmap string (list Z))
    (websocket : Z) (token : option string) (db : DB) (session_id : string)
    (states : list DB) :
  let answer :=
    session_websocket_endpoint decode_token manager websocket token db session_id states in
  (token = None \/ token = Some "" -> answer = (Ok manager, Closed 4001 "Missing token"))
  /\ (forall text, token = Some text -> text <> "" ->
        decode_token text = None \/ decode_token text = Some "" ->
        answer = (Ok manager, Closed 4001 "Invalid token"))
  /\ (forall text uid, token = Some text -> text <> "" ->
        decode_token text = Some uid -> uid <> "" ->
        (forall s, db_sessions db !! session_id = Some s -> user_id s <> uid) ->
        answer = (Ok manager, Closed 4004 "Session not found"))
  /\ (forall text uid s, token = Some text -> text <> "" ->
        decode_token text = Some uid -> uid <> "" ->
        db_sessions db !! session_id = Some s -> user_id s = uid ->
        snd answer = Streamed (session_websocket session_id states))
  /\ (forall rounds, snd answer = Streamed rounds ->
        rounds = session_websocket session_id states
        /\ exists text uid s,
             token = Some text /\ text <> "" /\ decode_token text = Some uid /\ uid <> ""
             /\ db_sessions db !! session_id = Some s /\ user_id s = uid).
Proof.
  cbv zeta. unfold session_websocket_endpoint.
  split; [|split; [|split; [|split]]].
  - intros [-> | ->]; reflexivity.
  - intros text -> Hne Hdec. destruct text as [|ch text]; [congruence|].
    destruct Hdec as [-> | ->]; reflexivity.
  - intros text uid -> Hne Hdec Huid Hforeign. destruct text as [|ch text]; [congruence|].
    rewrite Hdec. destruct uid as [|ch' uid]; [congruence|].
    unfold get_session.
    destruct (db_sessions db !! session_id) as [s|]; [|reflexivity].
    destruct (String.eqb (user_id s) (String ch' uid)) eqn:Hown; [|reflexivity].
    apply String.eqb_eq in Hown. exfalso. exact (Hforeign s eq_refl Hown).
  - intros text uid s -> Hne Hdec Huid Hrow Hown. destruct text as [|ch text]; [congruence|].
    rewrite Hdec. destruct uid as [|ch' uid]; [congruence|].
    unfold get_session. rewrite Hrow, Hown, String.eqb_refl. reflexivity.
  - intros rounds.
    destruct token as [[|ch text]|]; cbn [snd]; try discriminate.
    destruct (decode_token (String ch text)) as [[|ch' uid]|] eqn:Hdec; cbn [snd];
      try discriminate.
    unfold get_session.
    destruct (db_sessions db !! session_id) as [s|] eqn:Hrow; cbn [snd]; [|discriminate].
    destruct (String.eqb (user_id s) (String ch' uid)) eqn:Hown; cbn [snd]; [|discriminate].
    intros [= <-]. split; [reflexivity|].
    apply String.eqb_eq in Hown.
    exists (String ch text), (String ch' uid), s.
    repeat split; try assumption; discriminate.
Qed.

Lemma feed_is_streamed_to_the_owner_only_witness :
  session_websocket_endpoint (fun text => if String.eqb text "t-mallory" then Some "mallory" else None)
    {[ "s" := [7] ]} 8 (Some "t-mallory") fresh_db "s" []
  = (Ok {[ "s" := [7] ]}, Closed 4004 "Session not found").
Proof.
  refine (proj1 (proj2 (proj2 (feed_is_streamed_to_the_owner_only
            (fun text => if String.eqb text "t-mallory" then Some "mallory" else None)
            {[ "s" := [7] ]} 8 (Some "t-mallory") fresh_db "s" [])))
          "t-mallory" "mallory" eq_refl _ eq_refl _ _).
  - discriminate.
  - discriminate.
  - intros s. vm_compute. intros [= <-]. discriminate.
Defined.
